(** * Audio feature extractors: a shallow embedding of
      [uvic_music_extractor/extractors.py]

    The Python module defines an abstract base class [ExtractorBase] and
    seven concrete extractors.  Every extractor is an object whose
    [__call__] method maps a numpy buffer to a list of numbers and whose
    [get_headers] method names those numbers.

    The embedding keeps the shape of the source:
    - Python exceptions are an explicit error type ([exn], [result]);
    - methods run in a small state-and-error monad over the instance
      ([Py]), so that reads of [self.stats] on an instance that never got
      the attribute raise [AttributeError];
    - floating-point scalars are an interface ([Scalar]) with the handful
      of IEEE-754 facts the proofs rely on stated separately
      ([ScalarLaws], [OrderLaws]); the interface is instantiated with
      exact extended rationals ([Exact]), with hardware doubles
      ([Binary64]) and with real numbers ([Ideal]);
    - the DSP toolkit (essentia), numpy's statistical helpers, scipy's
      [norm.pdf] and the [math] module are collaborators, gathered in the
      interface [Toolkit]. *)

From stdpp Require Import base option list strings gmap.
From Stdlib Require Import ZArith QArith Qabs Qround Qreduction Lia.
From Stdlib Require Import Floats Uint63.
From Stdlib Require Import Reals Lra.

Open Scope string_scope.
Open Scope list_scope.
Open Scope Z_scope.

(** ** Exceptions and results *)

Inductive exn : Set :=
  | AttributeError
  | IndexError
  | KeyError
  | ValueError
  | TypeError
  | ZeroDivisionError
  | EssentiaException.

Inductive result (A : Type) : Type :=
  | Ok (a : A)
  | Raise (e : exn).
Arguments Ok {A} a.
Arguments Raise {A} e.

Definition rbind {A B} (k : A → result B) (m : result A) : result B :=
  match m with
  | Ok a => k a
  | Raise e => Raise e
  end.

#[export] Instance result_ret : MRet result := λ A a, Ok a.
#[export] Instance result_bind : MBind result := λ A B k m, rbind k m.

Definition is_ok {A} (m : result A) : bool :=
  match m with Ok _ => true | Raise _ => false end.

(** The list comprehension [[f x for x in xs]] where [f] may raise: the
    elements are evaluated left to right and the first exception aborts
    the whole comprehension. *)
Fixpoint rmap {A B} (f : A → result B) (xs : list A) : result (list B) :=
  match xs with
  | [] => Ok []
  | x :: xs' => y ← f x; ys ← rmap f xs'; Ok (y :: ys)
  end.

(** The statement [for x in xs: acc = body(acc, x)]. *)
Fixpoint rfold {A S} (body : S → A → result S) (xs : list A) (acc : S)
  : result S :=
  match xs with
  | [] => Ok acc
  | x :: xs' => acc' ← body acc x; rfold body xs' acc'
  end.

(** ** Scalars *)

(** The operations the module performs on floating-point numbers.  The
    integer-to-float conversion is [of_Z]; [fgtb x y] is [x > y];
    [fis_zero x] is [x == 0]. *)
Class Scalar (F : Type) : Type := {
  of_Z : Z → F;
  fadd : F → F → F;
  fsub : F → F → F;
  fmul : F → F → F;
  fdiv : F → F → F;
  fabs : F → F;
  fgtb : F → F → bool;
  fis_zero : F → bool;
  fis_nan : F → bool;
}.

(** The IEEE-754 facts the silence results depend on: arithmetic on
    zeros, zero over zero, and not-a-number operands. *)
Class ScalarLaws (F : Type) `{Scalar F} : Prop := {
  fadd_zero : fadd (of_Z 0) (of_Z 0) = of_Z 0;
  fsub_zero : fsub (of_Z 0) (of_Z 0) = of_Z 0;
  fmul_zero : fmul (of_Z 0) (of_Z 0) = of_Z 0;
  fdiv_zero_pos : ∀ n, 0 < n → fdiv (of_Z 0) (of_Z n) = of_Z 0;
  fdiv_zero_zero : fis_nan (fdiv (of_Z 0) (of_Z 0)) = true;
  fadd_nan : ∀ x y, fis_nan x = true → fis_nan (fadd x y) = true;
  fsub_nan : ∀ x y, fis_nan x = true → fis_nan (fsub x y) = true;
  fdiv_nan : ∀ x y, fis_nan x = true → fis_nan (fdiv x y) = true;
}.

(** The IEEE-754 facts about [>] that a maximum depends on: nothing is
    greater than itself, a number that is not greater than [x] is not
    greater than anything greater than [x], and no comparison with a
    not-a-number holds. *)
Class OrderLaws (F : Type) `{Scalar F} : Prop := {
  fgtb_irrefl : ∀ x, fgtb x x = false;
  fgtb_above : ∀ x y z, fgtb y x = true → fgtb z x = false →
                        fgtb z y = false;
  fgtb_nan : ∀ x y, fis_nan y = true → fgtb x y = false;
}.

Section Numeric.
Context {F : Type} `{Scalar F}.

Definition fzero : F := of_Z 0.

(** A decimal literal [n/d] such as [0.85]: the double nearest to the
    quotient, which is what the correctly rounded division returns. *)
Definition lit (n d : Z) : F := fdiv (of_Z n) (of_Z d).

(** [x ** 2] *)
Definition sq (x : F) : F := fmul x x.

(** Python's [/] on two Python floats, which is what essentia's scalar
    outputs and the results of [math.log10], [abs] and [max] on them
    are: a zero divisor raises. *)
Definition py_truediv (x y : F) : result F :=
  if fis_zero y then Raise ZeroDivisionError else Ok (fdiv x y).

(** Python's builtin [max(a, b)]: the first argument unless the second
    compares greater. *)
Definition py_max (a b : F) : F := if fgtb b a then b else a.

(** [np.maximum], which propagates NaN. *)
Definition np_maximum (a b : F) : F :=
  if fis_nan a then a else if fis_nan b then b
  else if fgtb b a then b else a.

(** [x.max()] on a one-dimensional array. *)
Definition np_amax (xs : list F) : result F :=
  match xs with
  | [] => Raise ValueError
  | x :: xs' => Ok (fold_left np_maximum xs' x)
  end.

(** [x.sum()] and [x.mean()] on a one-dimensional float array. *)
Definition np_sum (xs : list F) : F := fold_left fadd xs fzero.
Definition np_mean (xs : list F) : F :=
  fdiv (np_sum xs) (of_Z (Z.of_nat (length xs))).

(** [(x > t).sum()]: the number of elements above the threshold. *)
Definition count_gt (t : F) (xs : list F) : Z :=
  Z.of_nat (length (filter (λ x, fgtb x t = true) xs)).

(** Element-wise [x - y] and [x + y] with numpy's broadcasting of a
    length-one operand. *)
Definition np_zip (op : F → F → F) (xs ys : list F) : result (list F) :=
  if decide (length xs = length ys) then Ok (zip_with op xs ys)
  else match xs, ys with
       | [x], _ => Ok (map (op x) ys)
       | _, [y] => Ok (map (λ x, op x y) xs)
       | _, _ => Raise ValueError
       end.
End Numeric.

(** ** Python and numpy containers *)

Section Containers.
Context {A : Type}.

(** [range(start, stop, step)], with CPython's length computation. *)
Definition py_range (start stop step : Z) : result (list Z) :=
  if decide (step = 0) then Raise ValueError
  else
    let len :=
      if decide (0 < step)
      then (if decide (start < stop)
            then (stop - start - 1) / step + 1 else 0)
      else (if decide (stop < start)
            then (start - stop - 1) / (- step) + 1 else 0)
    in
    Ok (map (λ i : nat, start + Z.of_nat i * step) (seq 0 (Z.to_nat len))).

(** [xs[i]] on a Python list: negative indices count from the end. *)
Definition py_getitem (xs : list A) (i : Z) : result A :=
  let n := Z.of_nat (length xs) in
  let j := if decide (i < 0) then i + n else i in
  if decide (0 ≤ j < n)
  then match xs !! Z.to_nat j with
       | Some x => Ok x
       | None => Raise IndexError
       end
  else Raise IndexError.

(** A slice bound is clamped to [0 .. len]; a negative bound counts
    from the end. *)
Definition slice_bound (i : Z) (len : nat) : nat :=
  let n := Z.of_nat len in
  Z.to_nat (if decide (i < 0) then Z.max 0 (i + n) else Z.min i n).

(** [xs[x1:x2]] *)
Definition py_slice (x1 x2 : Z) (xs : list A) : list A :=
  let a := slice_bound x1 (length xs) in
  let b := slice_bound x2 (length xs) in
  take (b - a)%nat (drop a xs).
End Containers.

Section Arrays.
Context {F : Type} `{Scalar F}.

(** A numpy buffer: one-dimensional (mono), or two-dimensional with
    [shape = (length rows, ncols)], one row per sample instant.  The
    column count is kept apart from the rows so that the empty buffer of
    shape [(0, 2)] is distinct from the one of shape [(0, 1)]. *)
Inductive ndarray : Type :=
  | Array1 (xs : list F)
  | Array2 (ncols : nat) (rows : list (list F)).

(** [audio.shape[0]] *)
Definition shape0 (a : ndarray) : Z :=
  match a with
  | Array1 xs => Z.of_nat (length xs)
  | Array2 _ rows => Z.of_nat (length rows)
  end.

(** [audio[x1:x2, k]] for a literal column index [k]: the rows of the
    slice, then the column.  A one-dimensional array has no second
    axis; a column index outside [0 .. ncols) is out of bounds whatever
    the row slice is. *)
Definition np_slice_col (x1 x2 : Z) (k : nat) (a : ndarray)
  : result (list F) :=
  match a with
  | Array1 _ => Raise IndexError
  | Array2 c rows =>
      if decide (k < c)%nat
      then Ok (map (λ r, default fzero (r !! k)) (py_slice x1 x2 rows))
      else Raise IndexError
  end.

(** [audio[:, k]] *)
Definition np_col (k : nat) (a : ndarray) : result (list F) :=
  match a with
  | Array1 _ => Raise IndexError
  | Array2 c rows =>
      if decide (k < c)%nat
      then Ok (map (λ r, default fzero (r !! k)) rows)
      else Raise IndexError
  end.

(** The matrix returned by [np.corrcoef(x, y)]. *)
Record corr_matrix : Type := CorrMatrix {
  c00 : F; c01 : F; c10 : F; c11 : F
}.

(** [essentia.Pool]: feature name to the samples added so far. *)
Definition pool_add (key : string) (v : F) (p : gmap string (list F))
  : gmap string (list F) :=
  <[key := default [] (p !! key) ++ [v]]> p.

(** [pool[key]] and [stats[key]] *)
Definition pool_get {V} (key : string) (p : gmap string V) : result V :=
  match p !! key with
  | Some v => Ok v
  | None => Raise KeyError
  end.
End Arrays.
Arguments ndarray F : clear implicits.
Arguments corr_matrix F : clear implicits.

(** ** Collaborators *)

(** The toolkit the extractors are built on.  An essentia algorithm is
    configured first and applied afterwards; either step may raise.
    Algorithms configured with constants only are given by their
    application.  [LoudnessVickers] keeps a running state from one frame
    to the next, so it is a transition function on that state. *)
Class Toolkit (F : Type) : Type := {
  (* essentia.standard *)
  es_FrameGenerator : ndarray F → Z → Z → result (list (list F));
  es_PoolAggregator :
    list string → result (gmap string (list F) → result (gmap string F));
  es_Windowing : string → Z → list F → result (list F);
  es_Spectrum : list F → result (list F);
  es_Centroid : F → result (list F → result F);
  es_CentralMoments : F → result (list F → result (list F));
  es_DistributionShape : list F → result (F * F * F);
  es_Flatness : list F → result F;
  es_Entropy : list F → result F;
  es_EnergyBandRatio : F → F → F → result (list F → result F);
  es_RollOff : F → F → result (list F → result F);
  es_RMS : ndarray F → result F;
  es_MinMax : string → ndarray F → result (F * Z);
  es_LoudnessEBUR128 :
    bool → F → result (ndarray F → result (list F * list F * F * F));
  es_TruePeakDetector : F → result (list F → result (list F * list F));
  vickers_state : Type;
  es_LoudnessVickers : vickers_state;
  vickers_compute : vickers_state → list F → result (F * vickers_state);
  (* numpy, scipy.stats, math *)
  np_percentile : list F → F → result F;
  np_histogram : ndarray F → Z → F → F → result (list Z * list F);
  np_linspace : F → F → Z → list F;
  np_corrcoef : list F → list F → result (corr_matrix F);
  norm_pdf : list F → F → F → list F;
  math_log10 : F → result F;
  math_pow : F → F → result F;
}.

(** ** Extractor objects *)

(** The concrete classes of the module. *)
Inductive kind : Set :=
  | Spectral
  | CrestFactor
  | Loudness
  | DynamicSpread
  | Distortion
  | StereoFeatures
  | PhaseCorrelation.

(** The attributes of an extractor object.  [stats = None] is an object
    on which the attribute [stats] was never set.  [frame_size = None] is
    the Python value [None] (classes without that attribute never read
    it); a frame size that is given is an integer, the only kind
    [range] and the frame generator take. *)
Record instance (F : Type) : Type := Instance {
  cls : kind;
  sample_rate : F;
  pooling : bool;
  feature_names : list string;
  stats : option (list string);
  frame_size : option Z;
}.
Arguments Instance {F}.
Arguments cls {F}.
Arguments sample_rate {F}.
Arguments pooling {F}.
Arguments feature_names {F}.
Arguments stats {F}.
Arguments frame_size {F}.

(** Method bodies: a computation reads and may write the object it runs
    on, and either returns or raises. *)
Record Py (F A : Type) : Type := MkPy {
  run : instance F → result A * instance F
}.
Arguments MkPy {F A}.
Arguments run {F A}.

#[export] Instance Py_ret {F} : MRet (Py F) := λ A a, MkPy (λ s, (Ok a, s)).
#[export] Instance Py_bind {F} : MBind (Py F) := λ A B k m,
  MkPy (λ s, match run m s with
             | (Ok a, s') => run (k a) s'
             | (Raise e, s') => (Raise e, s')
             end).

Section Object.
Context {F : Type}.

Definition lift {A} (r : result A) : Py F A := MkPy (λ s, (r, s)).

(** Attribute reads. *)
Definition self_cls : Py F kind := MkPy (λ s, (Ok (cls s), s)).
Definition self_sample_rate : Py F F :=
  MkPy (λ s, (Ok (sample_rate s), s)).
Definition self_pooling : Py F bool := MkPy (λ s, (Ok (pooling s), s)).
Definition self_feature_names : Py F (list string) :=
  MkPy (λ s, (Ok (feature_names s), s)).
Definition self_frame_size : Py F (option Z) :=
  MkPy (λ s, (Ok (frame_size s), s)).
Definition self_stats : Py F (list string) :=
  MkPy (λ s, (match stats s with
              | Some l => Ok l
              | None => Raise AttributeError
              end, s)).

(** [for x in xs] with a body that reads [self]. *)
Fixpoint pfold {A S} (body : S → A → Py F S) (xs : list A) (acc : S)
  : Py F S :=
  match xs with
  | [] => mret acc
  | x :: xs' => acc' ← body acc x; pfold body xs' acc'
  end.

(** [[f x for x in xs]] with an element expression that reads [self]. *)
Fixpoint pmap {A B} (f : A → Py F B) (xs : list A) : Py F (list B) :=
  match xs with
  | [] => mret []
  | x :: xs' => y ← f x; ys ← pmap f xs'; mret (y :: ys)
  end.

(** The truth value of [self.frame_size]. *)
Definition truthy (fs : option Z) : bool :=
  match fs with
  | None => false
  | Some z => negb (z =? 0)
  end.

(** An integer argument of an essentia algorithm. *)
Definition as_int (fs : option Z) : result Z :=
  match fs with
  | Some z => Ok z
  | None => Raise TypeError
  end.

(** *** Constructors *)

Definition ExtractorBase_init (c : kind) (sample_rate : F)
    (pooling : bool) (stats : option (list string)) : instance F :=
  {| cls := c;
     sample_rate := sample_rate;
     pooling := pooling;
     feature_names := [];
     stats := match stats with
              | None => Some ["mean"; "stdev"]
              | Some _ => None
              end;
     frame_size := None |}.

Definition set_feature_names (names : list string) (self : instance F)
  : instance F :=
  {| cls := cls self; sample_rate := sample_rate self;
     pooling := pooling self; feature_names := names;
     stats := stats self; frame_size := frame_size self |}.

Definition set_frame_size (fs : option Z) (self : instance F)
  : instance F :=
  {| cls := cls self; sample_rate := sample_rate self;
     pooling := pooling self; feature_names := feature_names self;
     stats := stats self; frame_size := fs |}.

Definition Spectral_init (sample_rate : F) (stats : option (list string))
  : instance F :=
  set_feature_names
    ["rolloff_85"; "rolloff_95"; "spectral_centroid"; "spectral_spread";
     "spectral_skewness"; "spectral_kurtosis"; "spectral_flatness";
     "spectral_entropy"; "harsh"; "energyLF"]
    (ExtractorBase_init Spectral sample_rate true stats).

Definition CrestFactor_init (sample_rate : F) (frame_size : option Z)
    (stats : option (list string)) : instance F :=
  set_feature_names ["crest_factor"]
    (set_frame_size frame_size
       (ExtractorBase_init CrestFactor sample_rate
          (bool_decide (frame_size ≠ None)) stats)).

Definition Loudness_init (sample_rate : F) (stats : option (list string))
  : instance F :=
  set_feature_names
    ["loudness_range"; "microdynamics_95%"; "microdynamics_100%";
     "peak_to_loudness"; "top1db"]
    (ExtractorBase_init Loudness sample_rate false stats).

Definition DynamicSpread_init (sample_rate : F) (frame_size : option Z)
    (stats : option (list string)) : instance F :=
  set_feature_names ["dynamic_spread"]
    (set_frame_size frame_size
       (ExtractorBase_init DynamicSpread sample_rate false stats)).

Definition Distortion_init (sample_rate : F)
    (stats : option (list string)) : instance F :=
  set_feature_names
    ["pmf_centroid"; "pmf_spread"; "pmf_skewness"; "pmf_kurtosis";
     "pmf_flatness"; "pmf_gauss"]
    (ExtractorBase_init Distortion sample_rate false stats).

Definition StereoFeatures_init (sample_rate : F)
    (stats : option (list string)) : instance F :=
  set_feature_names ["side_mid_ratio"; "lr_imbalance"]
    (ExtractorBase_init StereoFeatures sample_rate false stats).

Definition PhaseCorrelation_init (sample_rate : F)
    (frame_size : option Z) (stats : option (list string))
  : instance F :=
  set_feature_names ["phase_correlation"]
    (set_frame_size frame_size
       (ExtractorBase_init PhaseCorrelation sample_rate
          (bool_decide (frame_size ≠ None)) stats)).

(** *** [ExtractorBase.get_headers] *)

Definition get_headers (join : string) : Py F (list string) :=
  pooling ← self_pooling;
  if negb pooling then self_feature_names
  else
    names ← self_feature_names;
    pfold (λ headers feature,
             stats ← self_stats;
             mret (fold_left
                     (λ hs stat, hs ++ [feature +:+ join +:+ stat])
                     stats headers))
          names [].
End Object.

(** ** The [__call__] methods *)

Section Extractors.
Context {F : Type} `{Scalar F} `{Toolkit F}.

(** [x[i] = v] on a numpy array. *)
Definition np_setitem (xs : list F) (i : Z) (v : F) : result (list F) :=
  let n := Z.of_nat (length xs) in
  let j := if decide (i < 0) then i + n else i in
  if decide (0 ≤ j < n) then Ok (<[Z.to_nat j := v]> xs)
  else Raise IndexError.

(** *** Spectral *)

Definition Spectral_call (audio : ndarray F) : Py F (list F) :=
  let pool : gmap string (list F) := ∅ in
  stats ← self_stats;
  pool_agg ← lift (es_PoolAggregator stats);
  let window := es_Windowing "hann" 2048 in
  let spectrum := es_Spectrum in
  sr ← self_sample_rate;
  centroid ← lift (es_Centroid (fdiv sr (of_Z 2)));
  sr ← self_sample_rate;
  central_moments ← lift (es_CentralMoments (fdiv sr (of_Z 2)));
  let dist_shape := es_DistributionShape in
  let flatness := es_Flatness in
  let entropy := es_Entropy in
  sr ← self_sample_rate;
  energy_band_harsh ←
    lift (es_EnergyBandRatio sr (of_Z 2000) (of_Z 5000));
  sr ← self_sample_rate;
  energy_band_low ← lift (es_EnergyBandRatio sr (of_Z 20) (of_Z 80));
  sr ← self_sample_rate;
  rolloff_85 ← lift (es_RollOff (lit 85 100) sr);
  sr ← self_sample_rate;
  rolloff_95 ← lift (es_RollOff (lit 95 100) sr);
  frames ← lift (es_FrameGenerator audio 2048 1024);
  pool ← pfold (λ pool frame,
    win ← lift (window frame);
    spec ← lift (spectrum win);
    sc ← lift (centroid spec);
    moments ← lift (central_moments spec);
    '(spread, skewness, kurtosis) ← lift (dist_shape moments);
    spectral_flatness ← lift (flatness spec);
    spectral_entropy ← lift (entropy spec);
    harsh ← lift (energy_band_harsh spec);
    energy_lf ← lift (energy_band_low spec);
    roll85 ← lift (rolloff_85 spec);
    roll95 ← lift (rolloff_95 spec);
    keys ← self_feature_names;
    k ← lift (py_getitem keys 0); let pool := pool_add k roll85 pool in
    k ← lift (py_getitem keys 1); let pool := pool_add k roll95 pool in
    k ← lift (py_getitem keys 2); let pool := pool_add k sc pool in
    k ← lift (py_getitem keys 3); let pool := pool_add k spread pool in
    k ← lift (py_getitem keys 4); let pool := pool_add k skewness pool in
    k ← lift (py_getitem keys 5); let pool := pool_add k kurtosis pool in
    k ← lift (py_getitem keys 6);
    let pool := pool_add k spectral_flatness pool in
    k ← lift (py_getitem keys 7);
    let pool := pool_add k spectral_entropy pool in
    k ← lift (py_getitem keys 8); let pool := pool_add k harsh pool in
    k ← lift (py_getitem keys 9); let pool := pool_add k energy_lf pool in
    mret pool) frames pool;
  stats ← lift (pool_agg pool);
  headers ← get_headers ".";
  results ← lift (rmap (λ feature, pool_get feature stats) headers);
  mret results.

(** *** CrestFactor *)

(** Peak over RMS of one vector, as both branches compute it. *)
Definition crest_of (v : ndarray F) : result F :=
  v_rms ← es_RMS v;
  '(peak_min, _) ← es_MinMax "min" v;
  '(peak_max, _) ← es_MinMax "max" v;
  let peak := py_max (fabs peak_min) (fabs peak_max) in
  py_truediv peak v_rms.

Definition CrestFactor_call (audio : ndarray F) : Py F (list F) :=
  fs ← self_frame_size;
  if truthy fs then
    let pool : gmap string (list F) := ∅ in
    stats ← self_stats;
    pool_agg ← lift (es_PoolAggregator stats);
    size ← self_frame_size;
    hop ← self_frame_size;
    frames ← lift (size ← as_int size; hop ← as_int hop;
                   es_FrameGenerator audio size hop);
    pool ← lift (rfold (λ pool frame,
               frame_crest ← crest_of (Array1 frame);
               Ok (pool_add "crest_factor" frame_crest pool))
             frames pool);
    stats ← lift (pool_agg pool);
    self_stats ← self_stats;
    lift (rmap (λ stat, pool_get ("crest_factor." +:+ stat) stats)
            self_stats)
  else
    full_crest ← lift (crest_of audio);
    mret [full_crest].

(** *** Loudness *)

Definition Loudness_call (audio : ndarray F) : Py F (list F) :=
  sr ← self_sample_rate;
  loudness ← lift (es_LoudnessEBUR128 true sr);
  '(momentary, short_term, integrated, loudness_range) ←
    lift (loudness audio);
  (* Micro dynamics (LDR) *)
  micro_dynamics ← lift (np_zip fsub momentary short_term);
  ldr_95 ← lift (np_percentile micro_dynamics (of_Z 95));
  ldr_max ← lift (np_amax micro_dynamics);
  (* True peak detection for peak to loudness calculation *)
  sr ← self_sample_rate;
  true_peak_detector ← lift (es_TruePeakDetector sr);
  left ← lift (np_col 0 audio);
  '(_, true_peak_audio_l) ← lift (true_peak_detector left);
  peak_l ← lift (np_amax true_peak_audio_l);
  log_l ← lift (math_log10 peak_l);
  let true_peak_l := fmul (of_Z 20) log_l in
  right ← lift (np_col 1 audio);
  '(_, true_peak_audio_r) ← lift (true_peak_detector right);
  peak_r ← lift (np_amax true_peak_audio_r);
  log_r ← lift (math_log10 peak_r);
  let true_peak_r := fmul (of_Z 20) log_r in
  (* True peak to loudness *)
  let true_peak := py_max true_peak_l true_peak_r in
  peak_to_loudness ← lift (py_truediv true_peak integrated);
  (* Top 1 dB (ratio of samples in the top 1dB) *)
  top_1db_gain ← lift (math_pow (of_Z 10) (lit (-1) 20));
  let top_1db_l := count_gt top_1db_gain true_peak_audio_l in
  let top_1db_r := count_gt top_1db_gain true_peak_audio_l in
  let top1db :=
    fdiv (of_Z (top_1db_l + top_1db_r))
         (of_Z (Z.of_nat (length true_peak_audio_l)
                + Z.of_nat (length true_peak_audio_r))) in
  mret [loudness_range; ldr_95; ldr_max; peak_to_loudness; top1db].

(** *** DynamicSpread *)

Definition DynamicSpread_call (audio : ndarray F) : Py F (list F) :=
  let vickers_loudness := es_LoudnessVickers in
  let pool : gmap string (list F) := ∅ in
  pool_agg ← lift (es_PoolAggregator ["mean"]);
  size ← self_frame_size;
  hop ← self_frame_size;
  frames ← lift (size ← as_int size; hop ← as_int hop;
                 es_FrameGenerator audio size hop);
  '(pool, _) ← lift (rfold (λ '(pool, vickers_loudness) frame,
             '(frame_loudness, vickers_loudness) ←
               vickers_compute vickers_loudness frame;
             Ok (pool_add "vdb" frame_loudness pool, vickers_loudness))
           frames (pool, vickers_loudness));
  stats ← lift (pool_agg pool);
  vickers_mean ← lift (pool_get "vdb.mean" stats);
  vdbs ← lift (pool_get "vdb" pool);
  let dynamic_spread :=
    fold_left (λ acc vdb, fadd acc (fabs (fsub vdb vickers_mean)))
              vdbs fzero in
  vdbs ← lift (pool_get "vdb" pool);
  dynamic_spread ←
    lift (match vdbs with
          | [] => Raise ZeroDivisionError
          | _ => Ok (fdiv dynamic_spread (of_Z (Z.of_nat (length vdbs))))
          end);
  mret [dynamic_spread].

(** *** Distortion *)

(** The loop that fills [prime]:
    [for i in range(1, 1000): prime[i - 1] = abs(hist[i] - hist[i - 1])]
    on [prime = np.zeros(1000)]. *)
Definition prime_of (hist : list F) : result (list F) :=
  let prime := replicate 1000 fzero in
  indices ← py_range 1 1000 1;
  rfold (λ prime i,
           hi ← py_getitem hist i;
           hp ← py_getitem hist (i - 1);
           let dy := fabs (fsub hi hp) in
           np_setitem prime (i - 1) dy)
        indices prime.

Definition Distortion_call (audio : ndarray F) : Py F (list F) :=
  '(hist, edges) ← lift (np_histogram audio 1001 (of_Z (-1)) (of_Z 1));
  let hist := map of_Z hist in
  centroid_calc ← lift (es_Centroid (of_Z 1));
  centroid ← lift (centroid_calc hist);
  central_moments ← lift (es_CentralMoments (of_Z 1));
  let shape := es_DistributionShape in
  cm ← lift (central_moments hist);
  '(spread, skewness, kurtosis) ← lift (shape cm);
  let flatness_calc := es_Flatness in
  flatness ← lift (flatness_calc hist);
  prime ← lift (prime_of hist);
  let domain := np_linspace (of_Z (-1)) (of_Z 1) 1000 in
  let gauss_hist := norm_pdf domain (of_Z 0) (lit 2 10) in
  correlation_matrix ← lift (np_corrcoef prime gauss_hist);
  let correlation_xy := c01 correlation_matrix in
  let r_squared := sq correlation_xy in
  mret [centroid; spread; skewness; kurtosis; flatness; r_squared].

(** *** StereoFeatures *)

(** The method returns a pair; it is given here as the two-element
    sequence a caller indexes and measures with [len]. *)
Definition StereoFeatures_call (audio : ndarray F) : Py F (list F) :=
  l ← lift (np_col 0 audio);
  r ← lift (np_col 1 audio);
  let sides := map sq (zip_with fsub l r) in
  l ← lift (np_col 0 audio);
  r ← lift (np_col 1 audio);
  let mids := map sq (zip_with fadd l r) in
  let sides_mid_ratio := fdiv (np_mean sides) (np_mean mids) in
  l ← lift (np_col 0 audio);
  let left_power := np_mean (map sq l) in
  r ← lift (np_col 1 audio);
  let right_power := np_mean (map sq r) in
  let lr_imbalance :=
    fdiv (fsub right_power left_power) (fadd right_power left_power) in
  mret [sides_mid_ratio; lr_imbalance].

(** *** PhaseCorrelation *)

(** [slice_indices]: the frame starts, then the buffer length. *)
Definition slice_indices (max_sample frame_size : Z) : result (list Z) :=
  starts ← py_range 0 max_sample frame_size;
  Ok (starts ++ [max_sample]).

Definition PhaseCorrelation_call (audio : ndarray F) : Py F (list F) :=
  fs ← self_frame_size;
  if truthy fs then
    let max_sample := shape0 audio in
    fs ← self_frame_size;
    slice_indices ← lift (fs ← as_int fs; slice_indices max_sample fs);
    let pool : gmap string (list F) := ∅ in
    positions ← lift (py_range 0 (Z.of_nat (length slice_indices) - 1) 1);
    pool ← pfold (λ pool i,
              x1 ← lift (py_getitem slice_indices i);
              x2 ← lift (py_getitem slice_indices (i + 1));
              l ← lift (np_slice_col x1 x2 0 audio);
              r ← lift (np_slice_col x1 x2 1 audio);
              correlation_matrix ← lift (np_corrcoef l r);
              let phase_correlation := c01 correlation_matrix in
              names ← self_feature_names;
              name ← lift (py_getitem names 0);
              mret (pool_add name phase_correlation pool))
            positions pool;
    stats ← self_stats;
    pool_agg ← lift (es_PoolAggregator stats);
    stats ← lift (pool_agg pool);
    self_stats ← self_stats;
    pmap (λ stat,
            names ← self_feature_names;
            name ← lift (py_getitem names 0);
            lift (pool_get (name +:+ "." +:+ stat) stats))
         self_stats
  else
    l ← lift (np_col 0 audio);
    r ← lift (np_col 1 audio);
    correlation_matrix ← lift (np_corrcoef l r);
    mret [c01 correlation_matrix].

(** *** Method dispatch *)

(** [extractor(audio)]: the [__call__] of the object's class. *)
Definition call (audio : ndarray F) : Py F (list F) :=
  c ← self_cls;
  match c with
  | Spectral => Spectral_call audio
  | CrestFactor => CrestFactor_call audio
  | Loudness => Loudness_call audio
  | DynamicSpread => DynamicSpread_call audio
  | Distortion => Distortion_call audio
  | StereoFeatures => StereoFeatures_call audio
  | PhaseCorrelation => PhaseCorrelation_call audio
  end.
End Extractors.

(** ** Vocabulary of the statements *)

Section Running.
Context {F : Type}.

(** The outcome of a method, and the object afterwards. *)
Definition exec {A} (m : Py F A) (self : instance F) : result A :=
  (run m self).1.
Definition after {A} (m : Py F A) (self : instance F) : instance F :=
  (run m self).2.

(** A computation that leaves every object as it found it. *)
Definition readonly {A} (m : Py F A) : Prop := ∀ self, after m self = self.
End Running.

Section Vocabulary.
Context {F : Type} `{Scalar F} `{Toolkit F}.

(** [Class(sample_rate, frame_size, stats)]: the object a constructor
    call builds.  Classes without a frame size ignore that argument. *)
Definition new (c : kind) (sample_rate : F) (frame_size : option Z)
    (stats : option (list string)) : instance F :=
  match c with
  | Spectral => Spectral_init sample_rate stats
  | CrestFactor => CrestFactor_init sample_rate frame_size stats
  | Loudness => Loudness_init sample_rate stats
  | DynamicSpread => DynamicSpread_init sample_rate frame_size stats
  | Distortion => Distortion_init sample_rate stats
  | StereoFeatures => StereoFeatures_init sample_rate stats
  | PhaseCorrelation => PhaseCorrelation_init sample_rate frame_size stats
  end.

(** The headers of an object that has its statistics: the feature names
    as they are, or every feature name joined to every statistic,
    feature-major and statistic-minor. *)
Definition headers_of (self : instance F) (join : string) (st : list string)
  : list string :=
  if pooling self
  then flat_map (λ feature, map (λ stat, feature +:+ join +:+ stat) st)
                (feature_names self)
  else feature_names self.

(** The correlation of the two channels over the rows [x1 .. x2). *)
Definition slice_correlation (audio : ndarray F) (b : Z * Z) : result F :=
  l ← np_slice_col b.1 b.2 0 audio;
  r ← np_slice_col b.1 b.2 1 audio;
  correlation_matrix ← np_corrcoef l r;
  Ok (c01 correlation_matrix).

(** A buffer whose columns 0 and 1 can be read: two-dimensional with at
    least two columns. *)
Definition stereo_indexable (audio : ndarray F) : bool :=
  match audio with
  | Array1 _ => false
  | Array2 c _ => bool_decide (2 ≤ c)%nat
  end.

(** Column [k] of the rows. *)
Definition column (k : nat) (rows : list (list F)) : list F :=
  map (λ r, default fzero (r !! k)) rows.

(** The two numbers [StereoFeatures] derives from a left and a right
    channel. *)
Definition side_mid_ratio (l r : list F) : F :=
  fdiv (np_mean (map sq (zip_with fsub l r)))
       (np_mean (map sq (zip_with fadd l r))).

Definition lr_imbalance (l r : list F) : F :=
  fdiv (fsub (np_mean (map sq r)) (np_mean (map sq l)))
       (fadd (np_mean (map sq r)) (np_mean (map sq l))).

(** Every sample of the first two channels is zero. *)
Definition silent (rows : list (list F)) : Prop :=
  Forall (λ r, default fzero (r !! 0%nat) = fzero
               ∧ default fzero (r !! 1%nat) = fzero) rows.

(** An envelope as a true-peak detector delivers it: rectified, every
    sample its own absolute value. *)
Definition rectified (env : list F) : Prop := Forall (λ x, fabs x = x) env.

(** The absolute difference of bins [j] and [j + 1]. *)
Definition bin_delta (hist : list F) (j : nat) : F :=
  fabs (fsub (default fzero (hist !! S j)) (default fzero (hist !! j))).

(** What the collaborators report on a buffer when every one of them
    answers: the loudness meter's integrated loudness and range, the 95th
    percentile and the maximum of momentary minus short-term loudness, the
    true-peak envelope of each channel with its largest sample and that
    sample's [log10], and the constant [10^(-1/20)]. *)
Definition loudness_readings (sr : F) (audio : ndarray F)
    (integrated loudness_range ldr_95 ldr_max : F)
    (env_l env_r : list F) (max_l max_r log_l log_r gain : F) : Prop :=
  ∃ meter momentary short_term micro_dynamics detector
    left right peaks_l peaks_r,
    es_LoudnessEBUR128 true sr = Ok meter
    ∧ meter audio = Ok (momentary, short_term, integrated, loudness_range)
    ∧ np_zip fsub momentary short_term = Ok micro_dynamics
    ∧ np_percentile micro_dynamics (of_Z 95) = Ok ldr_95
    ∧ np_amax micro_dynamics = Ok ldr_max
    ∧ es_TruePeakDetector sr = Ok detector
    ∧ np_col 0 audio = Ok left ∧ detector left = Ok (peaks_l, env_l)
    ∧ np_amax env_l = Ok max_l ∧ math_log10 max_l = Ok log_l
    ∧ np_col 1 audio = Ok right ∧ detector right = Ok (peaks_r, env_r)
    ∧ np_amax env_r = Ok max_r ∧ math_log10 max_r = Ok log_r
    ∧ math_pow (of_Z 10) (fdiv (of_Z (-1)) (of_Z 20)) = Ok gain.
End Vocabulary.

Section Pairs.
Context {A : Type}.

(** Adjacent pairs [(xs[i], xs[i + 1])]. *)
Definition adjacent (xs : list A) : list (A * A) := zip xs (tail xs).
End Pairs.

(** The partition as the specification words it: contiguous slices of the
    configured size [k] over [n] samples, the last one ending at [n]. *)
Definition frame_count (n k : Z) : nat := Z.to_nat ((n + k - 1) / k).

Definition frame_bounds (n k : Z) : list (Z * Z) :=
  map (λ i : nat, (Z.of_nat i * k, Z.min ((Z.of_nat i + 1) * k) n))
      (seq 0 (frame_count n k)).

(** ** An executable scalar model *)

(** Exact rationals extended with the IEEE special values.  Finite values
    are kept in lowest terms, so equal numbers are equal terms.  There is
    no rounding and a single zero; the model is used to run the methods on
    concrete buffers. *)
Module Exact.
Inductive xq : Set :=
  | Fin (q : Q)
  | PInf
  | NInf
  | NaN.

Definition sign (q : Q) : comparison := (Qnum q ?= 0)%Z.

Definition xneg (a : xq) : xq :=
  match a with
  | Fin q => Fin (Qred (- q))
  | PInf => NInf
  | NInf => PInf
  | NaN => NaN
  end.

Definition xadd (a b : xq) : xq :=
  match a, b with
  | NaN, _ | _, NaN => NaN
  | Fin p, Fin q => Fin (Qred (p + q))
  | PInf, NInf | NInf, PInf => NaN
  | PInf, _ | _, PInf => PInf
  | NInf, _ | _, NInf => NInf
  end.

Definition xsub (a b : xq) : xq := xadd a (xneg b).

Definition xscale (p : Q) (i : xq) : xq :=
  match sign p with
  | Eq => NaN
  | Gt => i
  | Lt => xneg i
  end.

Definition xmul (a b : xq) : xq :=
  match a, b with
  | NaN, _ | _, NaN => NaN
  | Fin p, Fin q => Fin (Qred (p * q))
  | Fin p, i | i, Fin p => xscale p i
  | PInf, PInf | NInf, NInf => PInf
  | PInf, NInf | NInf, PInf => NInf
  end.

Definition xdiv (a b : xq) : xq :=
  match a, b with
  | NaN, _ | _, NaN => NaN
  | Fin p, Fin q =>
      match sign q with
      | Eq => match sign p with Eq => NaN | Gt => PInf | Lt => NInf end
      | _ => Fin (Qred (p / q))
      end
  | Fin _, _ => Fin 0
  | i, Fin q => match sign q with Lt => xneg i | _ => i end
  | _, _ => NaN
  end.

Definition xabs (a : xq) : xq :=
  match a with
  | Fin q => Fin (Qred (Qabs q))
  | PInf | NInf => PInf
  | NaN => NaN
  end.

Definition xgtb (a b : xq) : bool :=
  match a, b with
  | NaN, _ | _, NaN => false
  | Fin p, Fin q => match p ?= q with Gt => true | _ => false end
  | PInf, PInf => false
  | PInf, _ => true
  | _, PInf => false
  | NInf, _ => false
  | Fin _, NInf => true
  end%Q.

Definition xis_zero (a : xq) : bool :=
  match a with
  | Fin q => match sign q with Eq => true | _ => false end
  | _ => false
  end.

Definition xis_nan (a : xq) : bool :=
  match a with NaN => true | _ => false end.

#[export] Instance xq_scalar : Scalar xq := {|
  of_Z z := Fin (inject_Z z);
  fadd := xadd;
  fsub := xsub;
  fmul := xmul;
  fdiv := xdiv;
  fabs := xabs;
  fgtb := xgtb;
  fis_zero := xis_zero;
  fis_nan := xis_nan;
|}.

(** *** A double of the toolkit

    Collaborators over [xq], to run the methods on concrete buffers.
    Square roots are rounded down to a multiple of [2^-32]; logarithms
    and powers are exact where the result is rational and rounded to ten
    decimals at the one irrational constant the module uses.  The
    windowed spectral analysis and the Gaussian density have no rational
    counterpart: the former raises, the latter is not a number. *)

Definition xsqrt (a : xq) : xq :=
  match a with
  | Fin q =>
      match sign q with
      | Lt => NaN
      | _ => Fin (Qred (Z.sqrt (Qnum q * 2 ^ 64 / Zpos (Qden q))
                        # 2 ^ 32))
      end
  | PInf => PInf
  | _ => NaN
  end.

(** [FrameGenerator] as the module uses it, with essentia's defaults
    ([startFromZero=False], [validFrameThresholdRatio=0]): the frames
    come from a frame cutter that starts half a frame before the first
    sample, so that the first frame is centred on it, and fills with
    zeros what lies outside the buffer.  A frame is cut as long as its
    start is inside the buffer; a frame that had to be filled at its end
    and whose centre is past the end is the last one. *)
Definition cut_frame (xs : list xq) (size start : Z) : list xq :=
  map (λ j : nat,
         let at_ := start + Z.of_nat j in
         if decide (0 ≤ at_) then default (Fin 0) (xs !! Z.to_nat at_)
         else Fin 0)
      (seq 0 (Z.to_nat size)).

Fixpoint frames_from (fuel : nat) (xs : list xq) (size hop start : Z)
  : list (list xq) :=
  match fuel with
  | O => []
  | S fuel' =>
      let len := Z.of_nat (length xs) in
      if decide (len = 0 ∨ len ≤ start) then []
      else
        let frame := cut_frame xs size start in
        let filled := Z.min size (len - start) in
        if decide (filled < size ∧ len ≤ start + size / 2)
        then [frame]
        else frame :: frames_from fuel' xs size hop (start + hop)
  end.

Definition frame_generator (a : ndarray xq) (size hop : Z)
  : result (list (list xq)) :=
  match a with
  | Array1 xs =>
      if decide (0 < size ∧ 0 < hop)
      then Ok (frames_from (length xs + Z.to_nat size) xs size hop
                 (Z.quot (- (size + 1)) 2))
      else Raise EssentiaException
  | Array2 _ _ => Raise TypeError
  end.

Definition variance (xs : list xq) : xq :=
  let m := np_mean xs in
  np_mean (map (λ x, sq (xsub x m)) xs).

Definition extremum (pick_second : xq → xq → bool) (xs : list xq)
  : result (xq * Z) :=
  match xs with
  | [] => Raise EssentiaException
  | x :: xs' =>
      Ok (fold_left
            (λ '(best, at_, i) y,
               if pick_second best y then (y, i, i + 1)
               else (best, at_, i + 1))
            xs' (x, 0, 1)).1
  end.

Definition statistic (name : string) (xs : list xq) : option xq :=
  if decide (name = "mean") then Some (np_mean xs)
  else if decide (name = "var") then Some (variance xs)
  else if decide (name = "stdev") then Some (xsqrt (variance xs))
  else if decide (name = "min")
    then match extremum (λ b y, xgtb b y) xs with
         | Ok (v, _) => Some v | Raise _ => None end
  else if decide (name = "max")
    then match extremum (λ b y, xgtb y b) xs with
         | Ok (v, _) => Some v | Raise _ => None end
  else None.

Definition pool_aggregator (stats : list string)
  : result (gmap string (list xq) → result (gmap string xq)) :=
  if forallb (λ st, bool_decide (is_Some (statistic st [Fin 0]))) stats
  then Ok (λ pool,
         Ok (map_fold
               (λ key vals acc,
                  fold_left
                    (λ acc st,
                       match statistic st vals with
                       | Some v => <[key +:+ "." +:+ st := v]> acc
                       | None => acc
                       end)
                    stats acc)
               ∅ pool))
  else Raise EssentiaException.

Definition rms (a : ndarray xq) : result xq :=
  match a with
  | Array1 [] => Raise EssentiaException
  | Array1 xs => Ok (xsqrt (np_mean (map sq xs)))
  | Array2 _ _ => Raise TypeError
  end.

Definition min_max (type : string) (a : ndarray xq) : result (xq * Z) :=
  match a with
  | Array1 xs =>
      if decide (type = "min") then extremum (λ b y, xgtb b y) xs
      else extremum (λ b y, xgtb y b) xs
  | Array2 _ _ => Raise TypeError
  end.

(** A flat meter: one momentary and one short-term reading per row,
    all at the integrated level of -23. *)
Definition loudness_ebur128 (start_at_zero : bool) (sr : xq)
  : result (ndarray xq → result (list xq * list xq * xq * xq)) :=
  Ok (λ a,
    match a with
    | Array2 2 rows =>
        let level := Fin (inject_Z (-23)) in
        Ok (map (λ _, level) rows, map (λ _, level) rows, level, Fin 0)
    | _ => Raise TypeError
    end).

(** The rectified signal, without oversampling. *)
Definition true_peak_detector (sr : xq)
  : result (list xq → result (list xq * list xq)) :=
  Ok (λ xs, Ok ([], map xabs xs)).

Definition percentile (xs : list xq) (q : xq) : result xq :=
  match extremum (λ b y, xgtb y b) xs with
  | Ok (v, _) => Ok v
  | Raise _ => Raise IndexError
  end.

Definition bin_of (x lo hi : xq) (bins : Z) : option Z :=
  match x, lo, hi with
  | Fin x, Fin lo, Fin hi =>
      if (Qle_bool lo x && Qle_bool x hi)%bool
      then Some (Z.min (bins - 1)
                   (Qfloor ((x - lo) / (hi - lo) * inject_Z bins)))
      else None
  | _, _, _ => None
  end.

Definition entries (a : ndarray xq) : list xq :=
  match a with
  | Array1 xs => xs
  | Array2 _ rows => concat rows
  end.

Definition linspace (lo hi : xq) (num : Z) : list xq :=
  map (λ i : nat,
         xadd lo (xmul (Fin (inject_Z (Z.of_nat i)))
                    (xdiv (xsub hi lo) (Fin (inject_Z (num - 1))))))
      (seq 0 (Z.to_nat num)).

Definition histogram (a : ndarray xq) (bins : Z) (lo hi : xq)
  : result (list Z * list xq) :=
  if decide (0 < bins)
  then Ok (map (λ b : nat,
                  Z.of_nat (length (filter
                    (λ x, bin_of x lo hi bins = Some (Z.of_nat b))
                    (entries a))))
               (seq 0 (Z.to_nat bins)),
           linspace lo hi (bins + 1))
  else Raise ValueError.

Definition corrcoef (xs ys : list xq) : result (corr_matrix xq) :=
  if decide (length xs = length ys)
  then
    let mx := np_mean xs in
    let my := np_mean ys in
    let dx := map (λ x, xsub x mx) xs in
    let dy := map (λ y, xsub y my) ys in
    let cov u v := np_sum (zip_with xmul u v) in
    let r u v := xdiv (cov u v) (xsqrt (xmul (cov u u) (cov v v))) in
    Ok (CorrMatrix (r dx dx) (r dx dy) (r dy dx) (r dy dy))
  else Raise ValueError.

(** Exponents of the powers of ten up to [10^18]. *)
Definition log10_exact (q : Q) : option Z :=
  let n := Qnum q in
  let d := Zpos (Qden q) in
  let ks := map Z.of_nat (seq 0 19) in
  if decide (d = 1) then List.find (λ k, bool_decide (10 ^ k = n)) ks
  else if decide (n = 1)
    then Z.opp <$> List.find (λ k, bool_decide (10 ^ k = d)) ks
  else None.

Definition log10 (a : xq) : result xq :=
  match a with
  | Fin q =>
      match sign q with
      | Gt => Ok (from_option (λ k, Fin (inject_Z k)) NaN (log10_exact q))
      | _ => Raise ValueError
      end
  | PInf => Ok PInf
  | NInf => Raise ValueError
  | NaN => Ok NaN
  end.

Definition pow (a b : xq) : result xq :=
  match a, b with
  | Fin p, Fin q =>
      if decide (Zpos (Qden q) = 1)
      then match sign p, sign q with
           | Eq, Lt => Raise ValueError
           | _, _ => Ok (Fin (Qred (p ^ Qnum q)))
           end
      else if (Qeq_bool p (10 # 1) && Qeq_bool q (-1 # 20))%bool
      then Ok (Fin (8912509381 # 10000000000))
      else Ok NaN
  | _, _ => Ok NaN
  end.

#[export] Instance xq_toolkit : Toolkit xq := {|
  es_FrameGenerator := frame_generator;
  es_PoolAggregator := pool_aggregator;
  es_Windowing _ _ _ := Raise EssentiaException;
  es_Spectrum _ := Raise EssentiaException;
  es_Centroid _ := Ok (λ _, Raise EssentiaException);
  es_CentralMoments _ := Ok (λ _, Raise EssentiaException);
  es_DistributionShape _ := Raise EssentiaException;
  es_Flatness _ := Raise EssentiaException;
  es_Entropy _ := Raise EssentiaException;
  es_EnergyBandRatio _ _ _ := Ok (λ _, Raise EssentiaException);
  es_RollOff _ _ := Ok (λ _, Raise EssentiaException);
  es_RMS := rms;
  es_MinMax := min_max;
  es_LoudnessEBUR128 := loudness_ebur128;
  es_TruePeakDetector := true_peak_detector;
  vickers_state := unit;
  es_LoudnessVickers := tt;
  vickers_compute st frame := Ok (np_mean (map xabs frame), st);
  np_percentile := percentile;
  np_histogram := histogram;
  np_linspace := linspace;
  np_corrcoef := corrcoef;
  norm_pdf xs _ _ := map (λ _, NaN) xs;
  math_log10 := log10;
  math_pow := pow;
|}.
End Exact.

(** ** IEEE-754 binary64 scalars *)

(** The scalar operations on hardware doubles.  Integers are converted
    through their 63-bit value, which covers every count and constant the
    module uses. *)
Module Binary64.
Definition b64_of_Z (z : Z) : float :=
  match z with
  | Z0 => PrimFloat.zero
  | Zpos _ => PrimFloat.of_uint63 (Uint63.of_Z z)
  | Zneg p => PrimFloat.opp (PrimFloat.of_uint63 (Uint63.of_Z (Zpos p)))
  end.

#[export] Instance b64_scalar : Scalar float := {|
  of_Z := b64_of_Z;
  fadd := PrimFloat.add;
  fsub := PrimFloat.sub;
  fmul := PrimFloat.mul;
  fdiv := PrimFloat.div;
  fabs := PrimFloat.abs;
  fgtb x y := PrimFloat.ltb y x;
  fis_zero x := PrimFloat.eqb x PrimFloat.zero;
  fis_nan := PrimFloat.is_nan;
|}.

(** Stereo silence and a stereo buffer with a louder right channel. *)
Definition b64_silence : ndarray float :=
  Array2 2 (replicate 8 [b64_of_Z 0; b64_of_Z 0]).
(** Doubles to compare: not-a-number, both infinities, both zeros and
    some finite numbers. *)
Definition b64_samples : list float :=
  [PrimFloat.nan; PrimFloat.infinity; PrimFloat.neg_infinity;
   PrimFloat.zero; PrimFloat.neg_zero; lit 1 3; lit (-1) 3;
   b64_of_Z 1; b64_of_Z (-2)].
Definition b64_stereo : ndarray float :=
  Array2 2 [[lit 1 2; lit 1 4]; [lit (-1) 2; lit 3 4]; [lit 1 4; lit (-1) 1]].
End Binary64.

(** ** Ideal scalars *)

(** Real numbers as scalars: arithmetic without rounding and without
    not-a-number, to state what a method computes on a sampled sine.
    The root mean square and the extremes are the exact ones; the other
    collaborators are not needed there and do not answer. *)
Module Ideal.
Definition real_gtb (x y : R) : bool :=
  if Rlt_dec y x then true else false.
Definition real_is_zero (x : R) : bool :=
  if Req_dec_T x 0 then true else false.

#[export] Instance real_scalar : Scalar R := {|
  of_Z := IZR;
  fadd := Rplus;
  fsub := Rminus;
  fmul := Rmult;
  fdiv := Rdiv;
  fabs := Rabs;
  fgtb := real_gtb;
  fis_zero := real_is_zero;
  fis_nan _ := false;
|}.

Definition real_extreme (pick_second : R → R → bool) (xs : list R)
  : result (R * Z) :=
  match xs with
  | [] => Raise EssentiaException
  | x :: xs' =>
      Ok (fold_left
            (λ '(best, at_, i) y,
               if pick_second best y then (y, i, i + 1)
               else (best, at_, i + 1))
            xs' (x, 0, 1)).1
  end.

Definition real_rms (a : ndarray R) : result R :=
  match a with
  | Array1 [] => Raise EssentiaException
  | Array1 xs => Ok (sqrt (np_mean (map sq xs)))
  | Array2 _ _ => Raise TypeError
  end.

Definition real_min_max (type : string) (a : ndarray R) : result (R * Z) :=
  match a with
  | Array1 xs =>
      if decide (type = "min") then real_extreme (λ b y, real_gtb b y) xs
      else real_extreme (λ b y, real_gtb y b) xs
  | Array2 _ _ => Raise TypeError
  end.

#[export] Instance real_toolkit : Toolkit R := {|
  es_FrameGenerator _ _ _ := Raise EssentiaException;
  es_PoolAggregator _ := Raise EssentiaException;
  es_Windowing _ _ _ := Raise EssentiaException;
  es_Spectrum _ := Raise EssentiaException;
  es_Centroid _ := Raise EssentiaException;
  es_CentralMoments _ := Raise EssentiaException;
  es_DistributionShape _ := Raise EssentiaException;
  es_Flatness _ := Raise EssentiaException;
  es_Entropy _ := Raise EssentiaException;
  es_EnergyBandRatio _ _ _ := Raise EssentiaException;
  es_RollOff _ _ := Raise EssentiaException;
  es_RMS := real_rms;
  es_MinMax := real_min_max;
  es_LoudnessEBUR128 _ _ := Raise EssentiaException;
  es_TruePeakDetector _ := Raise EssentiaException;
  vickers_state := unit;
  es_LoudnessVickers := tt;
  vickers_compute _ _ := Raise EssentiaException;
  np_percentile _ _ := Raise ValueError;
  np_histogram _ _ _ _ := Raise ValueError;
  np_linspace _ _ _ := [];
  np_corrcoef _ _ := Raise ValueError;
  norm_pdf xs _ _ := xs;
  math_log10 _ := Raise ValueError;
  math_pow _ _ := Raise ValueError;
|}.

(** [count] samples of the unit sine that runs through [cycles] cycles
    every [window] samples, starting at the phase [phase]. *)
Definition sine_wave (cycles window count : nat) (phase : R) : list R :=
  map (λ i : nat,
         sin (phase + INR i * (2 * PI * INR cycles / INR window))%R)
      (seq 0 count).
End Ideal.

(** ** Concrete buffers *)

Import Exact.

Definition rate : xq := Fin (inject_Z 44100).
Definition num (n d : Z) : xq := xdiv (Fin (inject_Z n)) (Fin (inject_Z d)).

(** Whole periods of a full-scale sine sampled four times per period, at
    its zeros and its extremes. *)
Definition sine_period : list xq := [num 0 1; num 1 1; num 0 1; num (-1) 1].
Definition sine_periods (p : nat) : list xq :=
  concat (replicate p sine_period).
Definition unit_sine : ndarray xq := Array1 (sine_periods 250).

(** Three stereo samples. *)
Definition clip_rows : list (list xq) :=
  [[num 1 2; num 1 4]; [num (-1) 2; num 1 4]; [num 1 1; num (-3) 4]].
Definition stereo_clip : ndarray xq := Array2 2 clip_rows.

(** The stereo buffer with no samples, and four samples of silence. *)
Definition empty_stereo : ndarray xq := Array2 2 [].
Definition silence_rows : list (list xq) := replicate 4 [num 0 1; num 0 1].

(** A mono buffer and a three-channel buffer. *)
Definition mono : ndarray xq := Array1 [num 1 2; num (-1) 4].
Definition surround : ndarray xq :=
  Array2 3 [[num 1 2; num 1 4; num 1 8]; [num 1 8; num 1 2; num 1 4]].

(** A signal held at positive full scale, and its amplitude histogram:
    every sample falls in the last of the 1001 bins. *)
Definition full_scale_dc : ndarray xq := Array1 (replicate 4 (num 1 1)).
Definition full_scale_hist : list xq :=
  match np_histogram full_scale_dc 1001 (of_Z (-1)) (of_Z 1) with
  | Ok (counts, _) => map of_Z counts
  | Raise _ => []
  end.

(** ** Vocabulary of the further statements *)

Section Pooling.
Context {F : Type} `{Scalar F} `{Toolkit F}.

(** The pool after [pool.add(key, v)] for each [v] of [vs] in turn. *)
Definition pool_extend (key : string) (vs : list F)
    (pool : gmap string (list F)) : gmap string (list F) :=
  fold_left (λ p v, pool_add key v p) vs pool.

(** The pool that holds the samples [vs] under [key] and nothing else; a
    key is in a pool only once something was added under it. *)
Definition pool_of (key : string) (vs : list F) : gmap string (list F) :=
  match vs with
  | [] => ∅
  | _ => {[ key := vs ]}
  end.

(** The pool after [pool.add(names[j], row[j])] for each [j] in turn. *)
Definition pool_add_row (names : list string) (row : list F)
    (pool : gmap string (list F)) : gmap string (list F) :=
  fold_left (λ p '(name, v), pool_add name v p) (zip names row) pool.

(** The loudness of each frame in turn from one [LoudnessVickers]
    object, whose state runs on from frame to frame. *)
Fixpoint vickers_run (state : vickers_state) (frames : list (list F))
  : result (list F) :=
  match frames with
  | [] => Ok []
  | frame :: frames' =>
      '(loudness, state') ← vickers_compute state frame;
      rest ← vickers_run state' frames';
      Ok (loudness :: rest)
  end.

(** The sum [dynamic_spread] accumulates before it is divided. *)
Definition absolute_deviations (vdbs : list F) (mean : F) : F :=
  fold_left (λ acc vdb, fadd acc (fabs (fsub vdb mean))) vdbs fzero.

(** The ten numbers [Spectral] derives from one frame, in the order of
    its feature names, given the configured algorithms. *)
Definition spectral_frame
    (centroid : list F → result F)
    (central_moments : list F → result (list F))
    (energy_band_harsh energy_band_low rolloff_85 rolloff_95
       : list F → result F)
    (frame : list F) : result (list F) :=
  win ← es_Windowing "hann" 2048 frame;
  spec ← es_Spectrum win;
  sc ← centroid spec;
  moments ← central_moments spec;
  '(spread, skewness, kurtosis) ← es_DistributionShape moments;
  spectral_flatness ← es_Flatness spec;
  spectral_entropy ← es_Entropy spec;
  harsh ← energy_band_harsh spec;
  energy_lf ← energy_band_low spec;
  roll85 ← rolloff_85 spec;
  roll95 ← rolloff_95 spec;
  Ok [roll85; roll95; sc; spread; skewness; kurtosis;
      spectral_flatness; spectral_entropy; harsh; energy_lf].

(** The pool that holds, under the [j]-th name, the [j]-th number of
    every row in row order; no rows, no entries. *)
Definition feature_pool (names : list string) (rows : list (list F))
  : gmap string (list F) :=
  match rows with
  | [] => ∅
  | _ =>
      list_to_map
        (imap (λ j name, (name, map (λ row, default fzero (row !! j)) rows))
              names)
  end.

(** The crest factor as the specification words it: the larger of the
    absolute minimum and the absolute maximum of the vector over its root
    mean square, the three as the toolkit measures them.  The absolute
    minimum stands unless the absolute maximum is greater, and a root mean
    square of zero has no quotient. *)
Definition peak_over_rms (v : ndarray F) : result F :=
  root_mean_square ← es_RMS v;
  '(lowest, _) ← es_MinMax "min" v;
  '(highest, _) ← es_MinMax "max" v;
  let peak :=
    if fgtb (fabs highest) (fabs lowest) then fabs highest
    else fabs lowest in
  if fis_zero root_mean_square then Raise ZeroDivisionError
  else Ok (fdiv peak root_mean_square).

(** The two statistics read from an aggregate, the mean before the
    standard deviation; a missing one is a [KeyError]. *)
Definition mean_and_stdev (feature : string) (agg : gmap string F)
  : result (list F) :=
  match agg !! (feature +:+ ".mean"), agg !! (feature +:+ ".stdev") with
  | Some mean, Some stdev => Ok [mean; stdev]
  | _, _ => Raise KeyError
  end.

(** The three collaborators of [CrestFactor] answer on the vector. *)
Definition measurable (v : ndarray F) : bool :=
  is_ok (es_RMS v) && is_ok (es_MinMax "min" v) && is_ok (es_MinMax "max" v).

(** The root mean square of the vector is reported, and is zero. *)
Definition zero_rms (v : ndarray F) : bool :=
  match es_RMS v with
  | Ok v_rms => fis_zero v_rms
  | Raise _ => false
  end.
End Pooling.

(** Five stereo rows: the channels agree over the first three and
    cross over the last two. *)
Definition two_slices : ndarray xq :=
  Array2 2 [[num 1 1; num 1 1]; [num 2 1; num 2 1]; [num 3 1; num 3 1];
            [num 1 1; num 2 1]; [num 2 1; num 1 1]].

(** Three stereo rows whose left channel peaks at one tenth, in the
    second row, and whose right channel peaks at one hundredth, in the
    first; and the same rows with the channels exchanged. *)
Definition left_louder : ndarray xq :=
  Array2 2 [[num 1 20; num 1 100]; [num (-1) 10; num 1 200];
            [num 1 50; num (-1) 1000]].
Definition right_louder : ndarray xq :=
  Array2 2 [[num 1 100; num 1 20]; [num 1 200; num (-1) 10];
            [num (-1) 1000; num 1 50]].

(** Two samples whose root mean square is five eighths: in the first
    the minimum is the larger in absolute value, in the second the
    maximum. *)
Definition low_heavy : ndarray xq := Array1 [num 1 8; num (-7) 8].
Definition high_heavy : ndarray xq := Array1 [num 7 8; num (-1) 8].

(** Mono buffers: no sample; two samples of silence; signal followed by
    two samples of silence; three samples that frames of two cut into
    [0, 1] and [1/2, -1/2], of equal mean level; twelve samples that
    frames of eight cut into one frame whose largest sample is its maximum
    and one whose largest sample is its minimum. *)
Definition empty_mono : ndarray xq := Array1 [].
Definition silence_mono : ndarray xq := Array1 [num 0 1; num 0 1].
Definition half_silent : ndarray xq :=
  Array1 [num 1 2; num 1 2; num 1 2; num 0 1; num 0 1].
Definition flat_mono : ndarray xq := Array1 [num 1 1; num 1 2; num (-1) 2].
Definition two_frames : ndarray xq :=
  Array1 [num 1 4; num 1 2; num 3 4; num (-1) 2;
          num (-3) 4; num (-3) 4; num 1 2; num 1 2;
          num 1 2; num 1 4; num 1 4; num 0 1].

(** The classes whose [__call__] reads [self.sample_rate]. *)
Definition reads_sample_rate (c : kind) : bool :=
  match c with
  | Spectral | Loudness => true
  | _ => false
  end.

(** * Properties *)

(** ** Methods only read the object *)

Section ReadOnly.
Context {F : Type} `{Scalar F} `{Toolkit F}.

Lemma readonly_ret {A} (a : A) : readonly (mret a : Py F A).
Proof. intros s. reflexivity. Qed.

Lemma readonly_lift {A} (r : result A) : readonly (lift r : Py F A).
Proof. intros s. reflexivity. Qed.

Lemma run_bind {A B} (m : Py F A) (k : A → Py F B) self :
  run (m ≫= k) self =
  match run m self with
  | (Ok a, self') => run (k a) self'
  | (Raise e, self') => (Raise e, self')
  end.
Proof. reflexivity. Qed.

Lemma readonly_bind {A B} (m : Py F A) (k : A → Py F B) :
  readonly m → (∀ a, readonly (k a)) → readonly (m ≫= k).
Proof.
  intros Hm Hk s. unfold after. rewrite run_bind.
  specialize (Hm s). unfold after in Hm.
  destruct (run m s) as [[a|e] s'] eqn:E; cbn in *; subst s'.
  - apply Hk.
  - reflexivity.
Qed.

Lemma readonly_attr :
  readonly (self_cls : Py F _) ∧ readonly (self_sample_rate : Py F _)
  ∧ readonly (self_pooling : Py F _)
  ∧ readonly (self_feature_names : Py F _)
  ∧ readonly (self_frame_size : Py F _) ∧ readonly (self_stats : Py F _).
Proof. repeat split; intros s; reflexivity. Qed.

Lemma readonly_pfold {A S} (body : S → A → Py F S) xs acc :
  (∀ acc x, readonly (body acc x)) → readonly (pfold body xs acc).
Proof.
  intros Hb. revert acc.
  induction xs as [|x xs IH]; intros acc; cbn.
  - apply readonly_ret.
  - apply readonly_bind; [apply Hb | intros; apply IH].
Qed.

Lemma readonly_pmap {A B} (f : A → Py F B) xs :
  (∀ x, readonly (f x)) → readonly (pmap f xs).
Proof.
  intros Hf. induction xs as [|x xs IH]; cbn.
  - apply readonly_ret.
  - apply readonly_bind; [apply Hf | intros y].
    apply readonly_bind; [apply IH | intros; apply readonly_ret].
Qed.

Ltac readonly_local_step :=
  first
    [ apply readonly_ret
    | apply readonly_lift
    | apply readonly_attr
    | apply readonly_pfold; intros
    | apply readonly_pmap; intros
    | apply readonly_bind; [| intros ?]
    | match goal with
      | |- readonly (match ?x with _ => _ end) => destruct x
      | |- readonly (let '_ := ?x in _) => destruct x
      end ].

Ltac readonly_local := repeat readonly_local_step.

Lemma readonly_get_headers join : readonly (get_headers (F:=F) join).
Proof. unfold get_headers. readonly_local. Qed.

Lemma readonly_call audio : readonly (call audio).
Proof.
  unfold call. apply readonly_bind; [apply readonly_attr | intros c].
  destruct c.
  - unfold Spectral_call. readonly_local.
  - unfold CrestFactor_call. readonly_local.
  - unfold Loudness_call. readonly_local.
  - unfold DynamicSpread_call. readonly_local.
  - unfold Distortion_call. readonly_local.
  - unfold StereoFeatures_call. readonly_local.
  - unfold PhaseCorrelation_call. readonly_local.
Qed.

(** *** Outcomes of read-only computations *)

Lemma exec_ret {A} (a : A) (self : instance F) :
  exec (mret a : Py F A) self = Ok a.
Proof. reflexivity. Qed.

Lemma exec_lift {A} (r : result A) (self : instance F) :
  exec (lift r) self = r.
Proof. reflexivity. Qed.

Lemma exec_bind {A B} (m : Py F A) (k : A → Py F B) self :
  readonly m →
  exec (m ≫= k) self = exec m self ≫= λ a, exec (k a) self.
Proof.
  intros Hm. unfold exec. rewrite run_bind.
  specialize (Hm self). unfold after in Hm.
  destruct (run m self) as [[a|e] s']; cbn in *; subst; reflexivity.
Qed.

Lemma exec_pfold {A S} (body : S → A → Py F S) xs acc self :
  (∀ acc x, readonly (body acc x)) →
  exec (pfold body xs acc) self
  = rfold (λ acc x, exec (body acc x) self) xs acc.
Proof.
  intros Hb. revert acc. induction xs as [|x xs IH]; intros acc; cbn.
  - reflexivity.
  - rewrite exec_bind by apply Hb.
    destruct (exec (body acc x) self); cbn; [apply IH | reflexivity].
Qed.

Lemma exec_pmap {A B} (f : A → Py F B) xs self :
  (∀ x, readonly (f x)) →
  exec (pmap f xs) self = rmap (λ x, exec (f x) self) xs.
Proof.
  intros Hf. induction xs as [|x xs IH]; cbn.
  - reflexivity.
  - rewrite exec_bind by apply Hf.
    destruct (exec (f x) self); cbn; [| reflexivity].
    rewrite exec_bind by (apply readonly_pmap, Hf).
    rewrite IH. destruct (rmap _ xs); reflexivity.
Qed.
End ReadOnly.

Ltac readonly_step :=
  first
    [ apply readonly_ret
    | apply readonly_lift
    | apply readonly_attr
    | apply readonly_get_headers
    | apply readonly_call
    | apply readonly_pfold; intros
    | apply readonly_pmap; intros
    | apply readonly_bind; [| intros ?]
    | match goal with
      | |- readonly (match ?x with _ => _ end) => destruct x
      end ].
Ltac readonly_solve := repeat readonly_step.

(** One step of a method: split the outcome of a bind into the outcome of
    its head and of its continuation. *)
Ltac exec_step := rewrite exec_bind by readonly_solve.

(** ** Every extractor, every configuration *)

Section Dispatch.
Context {F : Type} `{Scalar F} `{Toolkit F}.

Lemma cls_new c (sr : F) fs st : cls (new c sr fs st) = c.
Proof. destruct c; reflexivity. Qed.

Lemma stats_new c (sr : F) fs st :
  stats (new c sr fs st)
  = match st with None => Some ["mean"; "stdev"] | Some _ => None end.
Proof. destruct c; reflexivity. Qed.

Lemma exec_call audio (self : instance F) :
  exec (call audio) self
  = match cls self with
    | Spectral => exec (Spectral_call audio) self
    | CrestFactor => exec (CrestFactor_call audio) self
    | Loudness => exec (Loudness_call audio) self
    | DynamicSpread => exec (DynamicSpread_call audio) self
    | Distortion => exec (Distortion_call audio) self
    | StereoFeatures => exec (StereoFeatures_call audio) self
    | PhaseCorrelation => exec (PhaseCorrelation_call audio) self
    end.
Proof.
  unfold call. exec_step. cbn. destruct (cls self); reflexivity.
Qed.
End Dispatch.

(** ** Lists, ranges and slices *)

Section Lists.
Context {A : Type}.

Lemma py_getitem_lookup (xs : list A) (i : nat) x :
  xs !! i = Some x → py_getitem xs (Z.of_nat i) = Ok x.
Proof.
  intros Hx. pose proof (lookup_lt_Some _ _ _ Hx) as Hlt.
  unfold py_getitem.
  destruct (decide (Z.of_nat i < 0)) as [|_]; [lia|].
  destruct (decide _) as [_|Hn]; [|lia].
  rewrite Nat2Z.id, Hx. reflexivity.
Qed.

Lemma py_range_up (n : Z) :
  py_range 0 n 1 = Ok (map Z.of_nat (seq 0 (Z.to_nat n))).
Proof.
  unfold py_range. destruct (decide (1 = 0)) as [|_]; [lia|].
  destruct (decide (0 < 1)) as [_|]; [|lia].
  f_equal.
  assert (Z.to_nat (if decide (0 < n) then (n - 0 - 1) / 1 + 1 else 0)
          = Z.to_nat n) as ->.
  { destruct (decide (0 < n)); [rewrite Z.div_1_r|]; lia. }
  apply map_ext. intros i. lia.
Qed.

Lemma adjacent_lookup (xs : list A) i a b :
  adjacent xs !! i = Some (a, b) ↔ xs !! i = Some a ∧ xs !! S i = Some b.
Proof.
  unfold adjacent. rewrite lookup_zip_with, lookup_tail.
  destruct (xs !! i), (xs !! S i); cbn; split; intros E;
    try (destruct E; congruence); try congruence.
  split; congruence.
Qed.

Lemma length_adjacent (xs : list A) :
  length (adjacent xs) = (length xs - 1)%nat.
Proof.
  unfold adjacent. rewrite length_zip_with, length_tl. lia.
Qed.

Lemma py_slice_nat (a b : nat) (xs : list A) :
  (b ≤ length xs)%nat →
  py_slice (Z.of_nat a) (Z.of_nat b) xs = take (b - a) (drop a xs).
Proof.
  intros Hb. unfold py_slice, slice_bound.
  destruct (decide (Z.of_nat a < 0)); [lia|].
  destruct (decide (Z.of_nat b < 0)); [lia|].
  destruct (decide (a ≤ length xs)%nat) as [Ha|Ha].
  - do 2 f_equal; lia.
  - rewrite !drop_ge by lia. rewrite !take_nil. reflexivity.
Qed.

Lemma slices_join (a b c : nat) (xs : list A) :
  (a ≤ b ≤ c)%nat →
  take (b - a) (drop a xs) ++ take (c - b) (drop b xs)
  = take (c - a) (drop a xs).
Proof.
  intros Habc.
  destruct (decide (b ≤ length xs)%nat) as [Hb|Hb].
  - replace (c - a)%nat with ((b - a) + (c - b))%nat by lia.
    rewrite <- (take_drop (b - a) (drop a xs)) at 2.
    rewrite take_app_add' by (rewrite length_take, length_drop; lia).
    rewrite drop_drop. replace (a + (b - a))%nat with b by lia.
    reflexivity.
  - rewrite (drop_ge xs b) by lia. rewrite take_nil, app_nil_r.
    rewrite !take_ge by (rewrite length_drop; lia). reflexivity.
Qed.
End Lists.

Section ResultLists.
Context {A B St : Type}.

Lemma rmap_length (f : A → result B) xs ys :
  rmap f xs = Ok ys → length ys = length xs.
Proof.
  revert ys. induction xs as [|x xs IH]; intros ys; cbn.
  - intros [= <-]. reflexivity.
  - destruct (f x); cbn; [|discriminate].
    destruct (rmap f xs); cbn; [|discriminate].
    intros [= <-]. cbn. f_equal. apply IH. reflexivity.
Qed.

Lemma rmap_ext_lookup {A'} (f : A → result B) (g : A' → result B) xs ys :
  length xs = length ys →
  (∀ i x y, xs !! i = Some x → ys !! i = Some y → f x = g y) →
  rmap f xs = rmap g ys.
Proof.
  revert ys. induction xs as [|x xs IH]; intros [|y ys] Hlen Hfg;
    try discriminate; cbn; [reflexivity|].
  rewrite (Hfg 0%nat x y) by reflexivity.
  rewrite (IH ys); [reflexivity | cbn in Hlen; lia |].
  intros i. apply (Hfg (S i)).
Qed.

Lemma rmap_ext (f g : A → result B) xs :
  (∀ x, f x = g x) → rmap f xs = rmap g xs.
Proof.
  intros Hfg. induction xs as [|x xs IH]; cbn; [reflexivity|].
  rewrite Hfg, IH. reflexivity.
Qed.

Lemma rfold_ext (f g : St → A → result St) xs acc :
  (∀ acc x, f acc x = g acc x) → rfold f xs acc = rfold g xs acc.
Proof.
  intros Hfg. revert acc. induction xs as [|x xs IH]; intros acc; cbn.
  - reflexivity.
  - rewrite Hfg. destruct (g acc x); cbn; [apply IH | reflexivity].
Qed.

(** A loop that appends one computed value per item to an accumulator is
    the comprehension of the values followed by the appends. *)
Lemma rfold_rmap (f : A → result B) (upd : St → B → St) xs acc :
  rfold (λ acc x, v ← f x; Ok (upd acc v)) xs acc
  = (vs ← rmap f xs; Ok (fold_left upd vs acc)).
Proof.
  revert acc. induction xs as [|x xs IH]; intros acc; cbn; [reflexivity|].
  destruct (f x) as [v|e]; cbn; [|reflexivity].
  rewrite IH. destruct (rmap f xs); reflexivity.
Qed.
End ResultLists.

(** ** Frame bounds of the phase-correlation slices *)

Lemma frame_count_spec (n k : Z) :
  0 < k → 0 ≤ n →
  let m := Z.of_nat (frame_count n k) in
  0 ≤ m ∧ (0 < n → (m - 1) * k < n) ∧ (n = 0 → m = 0) ∧ n ≤ m * k.
Proof.
  intros Hk Hn m. subst m. unfold frame_count.
  assert (0 ≤ (n + k - 1) / k) as Hq by (apply Z.div_pos; lia).
  rewrite Z2Nat.id by assumption.
  pose proof (Z.div_mod (n + k - 1) k ltac:(lia)) as Hdm.
  pose proof (Z.mod_pos_bound (n + k - 1) k Hk) as Hr.
  repeat split; try assumption; nia.
Qed.

Lemma py_range_frames (n k : Z) :
  0 < k → 0 ≤ n →
  py_range 0 n k
  = Ok (map (λ i : nat, Z.of_nat i * k) (seq 0 (frame_count n k))).
Proof.
  intros Hk Hn. unfold py_range, frame_count.
  destruct (decide (k = 0)) as [|_]; [lia|].
  destruct (decide (0 < k)) as [_|]; [|lia].
  f_equal.
  assert ((if decide (0 < n) then (n - 0 - 1) / k + 1 else 0)
          = (n + k - 1) / k) as ->.
  { destruct (decide (0 < n)).
    - replace (n + k - 1) with (n - 0 - 1 + 1 * k) by lia.
      rewrite Z.div_add by lia. reflexivity.
    - replace n with 0 by lia. symmetry. apply Z.div_small. lia. }
  apply map_ext. intros i. lia.
Qed.

(** The pairs [(slice_indices[i], slice_indices[i + 1])] the loop visits
    are the bounds of that partition. *)
Lemma slice_indices_bounds (n k : Z) :
  0 < k → 0 ≤ n →
  ∃ idx, slice_indices n k = Ok idx
         ∧ length idx = S (frame_count n k)
         ∧ adjacent idx = frame_bounds n k.
Proof.
  intros Hk Hn. unfold slice_indices. rewrite py_range_frames by assumption.
  cbn [mbind result_bind rbind]. eexists. split; [reflexivity|].
  split; [rewrite length_app, length_map, length_seq; cbn; lia|].
  destruct (frame_count_spec n k Hk Hn) as (Hm0 & Hlast & Hzero & Hcover).
  unfold adjacent, frame_bounds.
  set (m := frame_count n k) in *.
  set (starts := map (λ i : nat, Z.of_nat i * k) (seq 0 m)).
  assert (length starts = m) as Hlen
    by (unfold starts; rewrite length_map, length_seq; reflexivity).
  assert (∀ i, (i < m)%nat → starts !! i = Some (Z.of_nat i * k)) as Hst.
  { intros i Hi. unfold starts.
    rewrite list_lookup_fmap, lookup_seq_lt by lia. reflexivity. }
  apply list_eq. intros i.
  rewrite lookup_zip_with, lookup_tail, list_lookup_fmap.
  destruct (decide (i < m)%nat) as [Hi|Hi].
  - rewrite (lookup_app_l starts _ i) by lia.
    rewrite Hst, lookup_seq_lt by lia. cbn.
    destruct (decide (S i < m)%nat) as [Hi'|Hi'].
    + rewrite (lookup_app_l starts _ (S i)) by lia.
      rewrite Hst by lia. cbn. do 2 f_equal.
      assert ((Z.of_nat i + 1) * k ≤ (Z.of_nat m - 1) * k)
        by (apply Z.mul_le_mono_nonneg_r; lia).
      assert (0 < n) as Hpos.
      { destruct (decide (n = 0)) as [->|]; [|lia].
        specialize (Hzero eq_refl). lia. }
      specialize (Hlast Hpos). lia.
    + assert (S i = m) as Heq by lia.
      rewrite (lookup_app_r starts _ (S i)) by lia.
      replace (S i - length starts)%nat with 0%nat by lia. cbn.
      do 2 f_equal.
      replace ((Z.of_nat i + 1) * k) with (Z.of_nat m * k) by lia. lia.
  - rewrite (lookup_seq_ge 0 m i) by lia. cbn.
    destruct (_ !! i); cbn; [|reflexivity].
    rewrite lookup_ge_None_2; [reflexivity|].
    rewrite length_app. cbn. lia.
Qed.

(** A negative frame size leaves nothing to visit: the range is empty
    and [slice_indices] is the buffer length alone. *)
Lemma slice_indices_negative (n k : Z) :
  k < 0 → 0 ≤ n →
  slice_indices n k = Ok [n] ∧ adjacent [n] = [].
Proof.
  intros Hk Hn. unfold slice_indices, py_range.
  destruct (decide (k = 0)) as [|_]; [lia|].
  destruct (decide (0 < k)) as [|_]; [lia|].
  destruct (decide (n < 0)) as [|_]; [lia|].
  split; reflexivity.
Qed.

Lemma frame_bounds_lookup (n k : Z) i x1 x2 :
  frame_bounds n k !! i = Some (x1, x2) →
  x1 = Z.of_nat i * k ∧ x2 = Z.min ((Z.of_nat i + 1) * k) n
  ∧ (i < frame_count n k)%nat.
Proof.
  unfold frame_bounds. rewrite list_lookup_fmap.
  destruct (decide (i < frame_count n k)%nat) as [Hi|Hi].
  - rewrite lookup_seq_lt by assumption. cbn. intros [= <- <-]. auto.
  - rewrite lookup_seq_ge by lia. discriminate.
Qed.

(** Every slice is non-empty and at most [k] long; all but the last are
    exactly [k] long; the last ends at the end of the buffer. *)
Lemma frame_bounds_sizes (n k : Z) i x1 x2 :
  0 < k → 0 ≤ n →
  frame_bounds n k !! i = Some (x1, x2) →
  0 ≤ x1 < x2 ∧ x2 ≤ n ∧ x2 - x1 ≤ k
  ∧ ((S i < frame_count n k)%nat → x2 - x1 = k)
  ∧ (S i = frame_count n k → x2 = n).
Proof.
  intros Hk Hn Hi. apply frame_bounds_lookup in Hi as (-> & -> & Hi).
  destruct (frame_count_spec n k Hk Hn) as (Hm0 & Hlast & Hzero & Hcover).
  set (m := frame_count n k) in *.
  assert (0 < n) as Hpos.
  { destruct (decide (n = 0)) as [->|]; [|lia].
    specialize (Hzero eq_refl). lia. }
  specialize (Hlast Hpos).
  assert (Z.of_nat i * k ≤ (Z.of_nat m - 1) * k)
    by (apply Z.mul_le_mono_nonneg_r; lia).
  repeat split; try lia.
  intros Hlt.
  assert ((Z.of_nat i + 1) * k ≤ (Z.of_nat m - 1) * k)
    by (apply Z.mul_le_mono_nonneg_r; lia).
  lia.
Qed.

(** Laid end to end, the slices are the buffer: every sample is in
    exactly one of them, in order. *)
Lemma frame_bounds_partition {A} (rows : list A) (k : Z) :
  0 < k →
  concat (map (λ '(x1, x2), py_slice x1 x2 rows)
              (frame_bounds (Z.of_nat (length rows)) k))
  = rows.
Proof.
  intros Hk. set (n := Z.of_nat (length rows)).
  assert (0 ≤ n) as Hn by lia.
  destruct (frame_count_spec n k Hk Hn) as (Hm0 & Hlast & Hzero & Hcover).
  unfold frame_bounds.
  assert (∀ j, (j ≤ frame_count n k)%nat →
    concat (map (λ '(x1, x2), py_slice x1 x2 rows)
              (map (λ i : nat,
                      (Z.of_nat i * k, Z.min ((Z.of_nat i + 1) * k) n))
                   (seq 0 j)))
    = take (Z.to_nat (Z.min (Z.of_nat j * k) n)) rows) as Hpre.
  { induction j as [|j IH]; intros Hj.
    - cbn. rewrite Z.min_l by lia. reflexivity.
    - rewrite seq_S, !map_app, concat_app, IH by lia. cbn.
      rewrite app_nil_r.
      assert (0 < n) as Hpos.
      { destruct (decide (n = 0)) as [->|]; [|lia].
        specialize (Hzero eq_refl). lia. }
      specialize (Hlast Hpos).
      assert (Z.of_nat j * k ≤ (Z.of_nat (frame_count n k) - 1) * k)
        by (apply Z.mul_le_mono_nonneg_r; lia).
      rewrite Z.min_l by lia.
      set (a := Z.to_nat (Z.of_nat j * k)).
      set (b := Z.to_nat (Z.min ((Z.of_nat j + 1) * k) n)).
      replace (Z.of_nat j * k) with (Z.of_nat a) by (unfold a; lia).
      replace (Z.min ((Z.of_nat j + 1) * k) n) with (Z.of_nat b)
        by (unfold b; lia).
      replace (Z.min (Z.of_nat (S j) * k) n) with (Z.of_nat b)
        by (unfold b; lia).
      rewrite py_slice_nat by (unfold b, n; lia).
      rewrite !Nat2Z.id.
      pose proof (slices_join 0 a b rows) as Hjoin.
      rewrite !drop_0, !Nat.sub_0_r in Hjoin. apply Hjoin.
      unfold a, b. lia. }
  rewrite Hpre by lia. rewrite Z.min_r by lia.
  unfold n. rewrite Nat2Z.id. apply take_ge. lia.
Qed.

(** ** Outcomes of the methods, step by step *)

Section Outcomes.
Context {F : Type} `{Scalar F} `{Toolkit F}.

Lemma exec_attr (self : instance F) :
  exec self_cls self = Ok (cls self)
  ∧ exec self_sample_rate self = Ok (sample_rate self)
  ∧ exec self_pooling self = Ok (pooling self)
  ∧ exec self_feature_names self = Ok (feature_names self)
  ∧ exec self_frame_size self = Ok (frame_size self)
  ∧ exec self_stats self
    = match stats self with
      | Some l => Ok l
      | None => Raise AttributeError
      end.
Proof. repeat split; reflexivity. Qed.

Lemma rbind_ok {A B} (a : A) (k : A → result B) : Ok a ≫= k = k a.
Proof. reflexivity. Qed.

Lemma rbind_raise {A B} e (k : A → result B) : Raise e ≫= k = Raise e.
Proof. reflexivity. Qed.
End Outcomes.

(** Unfold the outcome of a method as far as the known values go. *)
Ltac exec_attr :=
  first
    [ rewrite (proj1 (exec_attr _))
    | rewrite (proj1 (proj2 (exec_attr _)))
    | rewrite (proj1 (proj2 (proj2 (exec_attr _))))
    | rewrite (proj1 (proj2 (proj2 (proj2 (exec_attr _)))))
    | rewrite (proj1 (proj2 (proj2 (proj2 (proj2 (exec_attr _))))))
    | rewrite (proj2 (proj2 (proj2 (proj2 (proj2 (exec_attr _)))))) ].
Ltac exec_norm :=
  repeat first
    [ rewrite exec_bind by readonly_solve
    | rewrite exec_lift
    | rewrite exec_ret
    | exec_attr
    | rewrite rbind_ok
    | rewrite rbind_raise ].

Section PhaseCorrelationFramed.
Context {F : Type} `{Scalar F} `{Toolkit F}.

(** The loop over [range(len(slice_indices) - 1)] visits the adjacent
    pairs of [slice_indices] in order. *)
Lemma positions_adjacent (audio : ndarray F) (idx : list Z) :
  rmap (λ i, x1 ← py_getitem idx i; x2 ← py_getitem idx (i + 1);
             slice_correlation audio (x1, x2))
       (map Z.of_nat (seq 0 (Z.to_nat (Z.of_nat (length idx) - 1))))
  = rmap (slice_correlation audio) (adjacent idx).
Proof.
  apply rmap_ext_lookup.
  - rewrite length_map, length_seq, length_adjacent. lia.
  - intros j i [a b]. rewrite list_lookup_fmap.
    intros Hi Hab. apply adjacent_lookup in Hab as [Ha Hb].
    destruct (seq _ _ !! j) as [j'|] eqn:Hj; [|discriminate].
    apply lookup_seq in Hj as [-> _]. cbn in Hi. injection Hi as <-.
    rewrite (py_getitem_lookup _ _ _ Ha).
    replace (Z.of_nat j + 1) with (Z.of_nat (S j)) by lia.
    rewrite (py_getitem_lookup _ _ _ Hb). reflexivity.
Qed.

Lemma exec_PhaseCorrelation_framed self audio k name rest :
  frame_size self = Some k → k ≠ 0 → feature_names self = name :: rest →
  exec (PhaseCorrelation_call audio) self
  = (idx ← slice_indices (shape0 audio) k;
     cs ← rmap (slice_correlation audio) (adjacent idx);
     st ← exec self_stats self;
     pool_agg ← es_PoolAggregator st;
     agg ← pool_agg (fold_left (λ p c, pool_add name c p) cs ∅);
     rmap (λ stat, pool_get (name +:+ "." +:+ stat) agg) st).
Proof.
  intros Hfs Hk Hnames. unfold PhaseCorrelation_call.
  exec_norm. rewrite Hfs. cbn [truthy].
  destruct (Z.eqb_spec k 0) as [|_]; [contradiction|]. cbn [negb].
  exec_norm. rewrite Hfs. cbn [as_int]. rewrite rbind_ok.
  destruct (slice_indices (shape0 audio) k) as [idx|e]; [|reflexivity].
  rewrite !rbind_ok. exec_norm.
  rewrite py_range_up, rbind_ok. exec_norm.
  rewrite exec_pfold by (intros; readonly_solve).
  rewrite <- positions_adjacent.
  erewrite rfold_ext.
  2:{ intros pool i. exec_norm.
      instantiate (1 := λ pool i,
        v ← (x1 ← py_getitem idx i; x2 ← py_getitem idx (i + 1);
             slice_correlation audio (x1, x2));
        Ok (pool_add name v pool)).
      cbn beta. unfold slice_correlation. cbn [fst snd].
      destruct (py_getitem idx i) as [x1|]; exec_norm; [|reflexivity].
      destruct (py_getitem idx (i + 1)) as [x2|]; exec_norm; [|reflexivity].
      destruct (np_slice_col x1 x2 0 audio) as [l|]; exec_norm;
        [|reflexivity].
      destruct (np_slice_col x1 x2 1 audio) as [r|]; exec_norm;
        [|reflexivity].
      destruct (np_corrcoef l r) as [cm|]; exec_norm; [|reflexivity].
      rewrite Hnames. reflexivity. }
  rewrite rfold_rmap.
  destruct (rmap _ _) as [cs|]; exec_norm; [|reflexivity].
  destruct (stats self) as [st|] eqn:Hst; exec_norm; [|reflexivity].
  destruct (es_PoolAggregator st) as [pool_agg|]; exec_norm; [|reflexivity].
  destruct (pool_agg _) as [agg|]; exec_norm; [|reflexivity].
  rewrite Hst. exec_norm.
  rewrite exec_pmap by (intros; readonly_solve).
  apply rmap_ext. intros stat. exec_norm. rewrite Hnames. reflexivity.
Qed.
End PhaseCorrelationFramed.

(** ** The [stats] attribute *)

Section StatsAttribute.
Context {F : Type} `{Scalar F} `{Toolkit F}.

Lemma feature_names_new c (sr : F) fs st :
  ∃ name rest, feature_names (new c sr fs st) = name :: rest.
Proof. destruct c; cbn; eauto. Qed.

(** On a pooling object that has feature names, [get_headers] reads
    [self.stats] before anything else can go wrong. *)
Lemma get_headers_unset (self : instance F) join name rest :
  pooling self = true → feature_names self = name :: rest →
  stats self = None →
  exec (get_headers join) self = Raise AttributeError.
Proof.
  intros Hp Hn Hs. unfold get_headers. exec_norm. rewrite Hp. cbn [negb].
  exec_norm. rewrite Hn. cbn [pfold]. exec_norm. rewrite Hs. reflexivity.
Qed.

Lemma Spectral_call_unset (self : instance F) audio :
  stats self = None → exec (Spectral_call audio) self = Raise AttributeError.
Proof.
  intros Hs. unfold Spectral_call. exec_norm. rewrite Hs. reflexivity.
Qed.

Lemma CrestFactor_call_unset (self : instance F) audio :
  truthy (frame_size self) = true → stats self = None →
  exec (CrestFactor_call audio) self = Raise AttributeError.
Proof.
  intros Hfs Hs. unfold CrestFactor_call. exec_norm. rewrite Hfs.
  exec_norm. rewrite Hs. reflexivity.
Qed.

Lemma truthy_Some fs : truthy fs = true → ∃ k, fs = Some k ∧ k ≠ 0.
Proof.
  destruct fs as [k|]; [|discriminate]. cbn.
  destruct (Z.eqb_spec k 0); [discriminate|]. eauto.
Qed.

(** C3. A constructor called with an explicit [stats] list leaves the
    object without a [stats] attribute.  Reading it raises
    [AttributeError]: in [get_headers] of a pooling extractor, in the call
    of [Spectral] and of a framed [CrestFactor] whatever the buffer, and
    in the call of a framed [PhaseCorrelation], which never returns a
    vector and raises exactly [AttributeError] once its slice loop has
    run to the end.  Whatever is passed to a constructor, the statistics
    an object ends up with are ["mean"; "stdev"] or none at all. *)
Theorem stats_never_assigned
    (c : kind) (sr : F) (fs : option Z) (l : list string)
    (audio : ndarray F) (join : string) :
  let self := new c sr fs (Some l) in
  stats self = None
  ∧ (pooling self = true →
     exec (get_headers join) self = Raise AttributeError)
  ∧ (c = Spectral → exec (call audio) self = Raise AttributeError)
  ∧ (c = CrestFactor → truthy fs = true →
     exec (call audio) self = Raise AttributeError)
  ∧ (c = PhaseCorrelation → truthy fs = true →
     is_ok (exec (call audio) self) = false
     ∧ ∀ k idx cs,
         fs = Some k →
         slice_indices (shape0 audio) k = Ok idx →
         rmap (slice_correlation audio) (adjacent idx) = Ok cs →
         exec (call audio) self = Raise AttributeError)
  ∧ (∀ arg l', stats (new c sr fs arg) = Some l' → l' = ["mean"; "stdev"]).
Proof.
  intros self.
  assert (stats self = None) as Hs by (unfold self; rewrite stats_new; auto).
  destruct (feature_names_new c sr fs (Some l)) as (name & rest & Hn).
  fold self in Hn.
  split; [exact Hs|]. split; [|split; [|split; [|split]]].
  - intros Hp. eapply get_headers_unset; eauto.
  - intros ->. rewrite exec_call. cbn match.
    apply Spectral_call_unset, Hs.
  - intros -> Hfs. rewrite exec_call. cbn match.
    apply CrestFactor_call_unset; [|exact Hs].
    destruct fs; exact Hfs.
  - intros -> Hfs. destruct (truthy_Some _ Hfs) as (k & -> & Hk).
    rewrite exec_call. cbn match.
    rewrite (exec_PhaseCorrelation_framed self audio k name rest)
      by (assumption || reflexivity).
    exec_norm. rewrite Hs. split.
    + destruct (slice_indices _ _) as [idx|]; [|reflexivity].
      rewrite rbind_ok. destruct (rmap _ _); reflexivity.
    + intros k' idx cs [= <-] Hidx Hcs.
      rewrite Hidx, rbind_ok, Hcs. reflexivity.
  - intros arg l'. rewrite stats_new. destruct arg; [discriminate|].
    intros [= <-]. reflexivity.
Qed.
End StatsAttribute.

(** ** Headers and vector lengths *)

(** From [exec m self = Ok v], walk through the binds of [m]: each step
    either raised, which contradicts the hypothesis, or returned. *)
Ltac exec_norm_in Hx :=
  repeat first
    [ rewrite exec_bind in Hx by readonly_solve
    | rewrite exec_lift in Hx
    | rewrite exec_ret in Hx
    | rewrite (proj1 (exec_attr _)) in Hx
    | rewrite (proj1 (proj2 (exec_attr _))) in Hx
    | rewrite (proj1 (proj2 (proj2 (exec_attr _)))) in Hx
    | rewrite (proj1 (proj2 (proj2 (proj2 (exec_attr _))))) in Hx
    | rewrite (proj1 (proj2 (proj2 (proj2 (proj2 (exec_attr _)))))) in Hx
    | rewrite (proj2 (proj2 (proj2 (proj2 (proj2 (exec_attr _)))))) in Hx
    | rewrite rbind_ok in Hx
    | rewrite rbind_raise in Hx ].
Ltac exec_inv Hx :=
  repeat first
    [ progress (exec_norm_in Hx)
    | match type of Hx with
      | Raise _ = Ok _ => discriminate Hx
      | (match ?x with (_, _) => _ end) = Ok _ => destruct x
      | exec (match ?x with (_, _) => _ end) _ = Ok _ => destruct x
      | (?r ≫= _) = Ok _ =>
          let E := fresh "E" in
          destruct r eqn:E; [rewrite rbind_ok in Hx | discriminate Hx]
      end ].

Section Headers.
Context {F : Type} `{Scalar F} `{Toolkit F}.

Lemma append_headers feature join (st headers : list string) :
  fold_left (λ hs stat, hs ++ [feature +:+ join +:+ stat]) st headers
  = headers ++ map (λ stat, feature +:+ join +:+ stat) st.
Proof.
  revert headers. induction st as [|s st IH]; intros headers; cbn.
  - rewrite app_nil_r. reflexivity.
  - rewrite IH, <- app_assoc. reflexivity.
Qed.

Lemma exec_get_headers (self : instance F) join st :
  stats self = Some st →
  exec (get_headers join) self = Ok (headers_of self join st).
Proof.
  intros Hs. unfold get_headers, headers_of. exec_norm.
  destruct (pooling self); cbn [negb]; exec_norm; [|reflexivity].
  rewrite exec_pfold by (intros; readonly_solve).
  erewrite rfold_ext.
  2:{ intros headers feature. exec_norm. rewrite Hs, rbind_ok, exec_ret.
      rewrite append_headers.
      instantiate (1 := λ headers feature,
        Ok (headers ++ map (λ stat, feature +:+ join +:+ stat) st)).
      reflexivity. }
  change (Ok (flat_map (λ feature, map (λ stat, feature +:+ join +:+ stat) st)
                (feature_names self)))
    with (Ok ([] ++ flat_map
                (λ feature, map (λ stat, feature +:+ join +:+ stat) st)
                (feature_names self)) : result (list string)).
  generalize (@nil string) as acc.
  induction (feature_names self) as [|f fs IH]; intros acc; cbn.
  - rewrite app_nil_r. reflexivity.
  - rewrite IH, <- app_assoc. reflexivity.
Qed.

Lemma headers_of_length (self : instance F) join st :
  length (headers_of self join st)
  = if pooling self
    then (length (feature_names self) * length st)%nat
    else length (feature_names self).
Proof.
  unfold headers_of. destruct (pooling self); [|reflexivity].
  induction (feature_names self) as [|f fs IH]; cbn; [reflexivity|].
  rewrite length_app, length_map, IH. reflexivity.
Qed.

(** The [i]-th statistic of the [j]-th feature sits at position
    [j * len(stats) + i]. *)
Lemma headers_of_lookup (self : instance F) join st j i feature stat :
  pooling self = true →
  feature_names self !! j = Some feature → st !! i = Some stat →
  headers_of self join st !! (j * length st + i)%nat
  = Some (feature +:+ join +:+ stat).
Proof.
  intros Hp. unfold headers_of. rewrite Hp.
  revert j. induction (feature_names self) as [|f fs IH]; intros j Hj Hi.
  - discriminate.
  - cbn. destruct j as [|j]; cbn in Hj.
    + injection Hj as ->. cbn.
      rewrite lookup_app_l
        by (rewrite length_map; eapply lookup_lt_Some; eauto).
      rewrite list_lookup_fmap, Hi. reflexivity.
    + rewrite lookup_app_r by (rewrite length_map; lia).
      rewrite length_map.
      replace (S j * length st + i - length st)%nat
        with (j * length st + i)%nat by lia.
      apply IH; assumption.
Qed.

Lemma Spectral_call_length (self : instance F) audio v hs :
  exec (Spectral_call audio) self = Ok v →
  exec (get_headers ".") self = Ok hs → length v = length hs.
Proof.
  unfold Spectral_call. intros Hx. exec_inv Hx. intros [= <-].
  injection Hx as <-. eapply rmap_length; eauto.
Qed.
Lemma exec_get_headers_flat (self : instance F) join :
  pooling self = false →
  exec (get_headers join) self = Ok (feature_names self).
Proof.
  intros Hp. unfold get_headers. exec_norm. rewrite Hp. cbn [negb].
  exec_norm. reflexivity.
Qed.

Lemma CrestFactor_call_length (self : instance F) audio v :
  exec (CrestFactor_call audio) self = Ok v →
  if truthy (frame_size self)
  then ∃ st, stats self = Some st ∧ length v = length st
  else length v = 1%nat.
Proof.
  unfold CrestFactor_call. intros Hx. exec_norm_in Hx.
  destruct (truthy (frame_size self)).
  - exec_norm_in Hx.
    destruct (stats self) as [st|] eqn:Hst; [|discriminate Hx].
    exec_inv Hx. exists st. split; [reflexivity|].
    match goal with
    | E : match stats self with _ => _ end = Ok _ |- _ =>
        rewrite Hst in E; injection E as <-
    end.
    eapply rmap_length; eauto.
  - exec_inv Hx. injection Hx as <-. reflexivity.
Qed.

Lemma PhaseCorrelation_call_length (self : instance F) audio v :
  exec (PhaseCorrelation_call audio) self = Ok v →
  if truthy (frame_size self)
  then ∃ st, stats self = Some st ∧ length v = length st
  else length v = 1%nat.
Proof.
  unfold PhaseCorrelation_call. intros Hx. exec_norm_in Hx.
  destruct (truthy (frame_size self)).
  - destruct (stats self) as [st|] eqn:Hst.
    + exec_inv Hx. exists st. split; [reflexivity|].
      repeat match goal with
      | E : match stats self with _ => _ end = Ok _ |- _ =>
          rewrite Hst in E; injection E as <-
      end.
      rewrite exec_pmap in Hx by (intros; readonly_solve).
      eapply rmap_length; eauto.
    + exec_inv Hx.
      repeat match goal with
      | E : match stats self with _ => _ end = Ok _ |- _ =>
          rewrite Hst in E; discriminate E
      end.
  - exec_inv Hx. injection Hx as <-. reflexivity.
Qed.

Lemma fixed_call_length (self : instance F) audio v :
  (exec (Loudness_call audio) self = Ok v → length v = 5%nat)
  ∧ (exec (DynamicSpread_call audio) self = Ok v → length v = 1%nat)
  ∧ (exec (Distortion_call audio) self = Ok v → length v = 6%nat)
  ∧ (exec (StereoFeatures_call audio) self = Ok v → length v = 2%nat).
Proof.
  repeat split; intros Hx.
  - unfold Loudness_call in Hx. exec_inv Hx. injection Hx as <-. reflexivity.
  - unfold DynamicSpread_call in Hx. exec_inv Hx.
    injection Hx as <-. reflexivity.
  - unfold Distortion_call in Hx. exec_inv Hx.
    injection Hx as <-. reflexivity.
  - unfold StereoFeatures_call in Hx. exec_inv Hx.
    injection Hx as <-. reflexivity.
Qed.

(** Apart from a frame size of zero, a vector that is returned is as long
    as the header list, when that list can be had. *)
Lemma vector_matches_headers c (sr : F) fs st audio v hs :
  let self := new c sr fs st in
  (c = CrestFactor ∨ c = PhaseCorrelation → fs ≠ Some 0) →
  exec (call audio) self = Ok v →
  exec (get_headers ".") self = Ok hs →
  length v = length hs.
Proof.
  intros self Hfs Hv Hh. rewrite exec_call in Hv.
  unfold self in Hv, Hh. rewrite cls_new in Hv.
  destruct c; cbn [new] in *.
  - eapply Spectral_call_length; eauto.
  - apply CrestFactor_call_length in Hv. cbn in Hv.
    destruct fs as [k|]; cbn in Hv.
    + destruct (Z.eqb_spec k 0) as [->|Hk]; [exfalso; apply Hfs; auto|].
      cbn in Hv. destruct Hv as (st' & Hst & ->).
      rewrite (exec_get_headers _ _ st') in Hh by exact Hst.
      injection Hh as <-. rewrite headers_of_length. cbn. lia.
    + rewrite exec_get_headers_flat in Hh by reflexivity.
      injection Hh as <-. exact Hv.
  - apply fixed_call_length in Hv.
    rewrite exec_get_headers_flat in Hh by reflexivity.
    injection Hh as <-. exact Hv.
  - apply fixed_call_length in Hv.
    rewrite exec_get_headers_flat in Hh by reflexivity.
    injection Hh as <-. exact Hv.
  - apply fixed_call_length in Hv.
    rewrite exec_get_headers_flat in Hh by reflexivity.
    injection Hh as <-. exact Hv.
  - apply fixed_call_length in Hv.
    rewrite exec_get_headers_flat in Hh by reflexivity.
    injection Hh as <-. exact Hv.
  - apply PhaseCorrelation_call_length in Hv. cbn in Hv.
    destruct fs as [k|]; cbn in Hv.
    + destruct (Z.eqb_spec k 0) as [->|Hk]; [exfalso; apply Hfs; auto|].
      cbn in Hv. destruct Hv as (st' & Hst & ->).
      rewrite (exec_get_headers _ _ st') in Hh by exact Hst.
      injection Hh as <-. rewrite headers_of_length. cbn. lia.
    + rewrite exec_get_headers_flat in Hh by reflexivity.
      injection Hh as <-. exact Hv.
Qed.
End Headers.

(** ** Buffers of the wrong shape, and silence *)

Section Stereo.
Context {F : Type} `{Scalar F} `{Toolkit F}.

Lemma np_col_indexable (audio : ndarray F) k :
  (k < 2)%nat → stereo_indexable audio = true →
  ∃ c rows, audio = Array2 c rows ∧ np_col k audio = Ok (column k rows).
Proof.
  intros Hk. destruct audio as [xs|c rows]; cbn; [discriminate|].
  intros Hc%bool_decide_eq_true. exists c, rows. split; [reflexivity|].
  destruct (decide (k < c)%nat); [reflexivity | lia].
Qed.

Lemma np_col_not_indexable (audio : ndarray F) :
  stereo_indexable audio = false →
  np_col 0 audio = Raise IndexError ∨ np_col 1 audio = Raise IndexError.
Proof.
  destruct audio as [xs|c rows]; cbn; [auto|].
  intros Hc%bool_decide_eq_false. right.
  destruct (decide (1 < c)%nat); [lia | reflexivity].
Qed.

Lemma np_col_first (audio : ndarray F) e :
  np_col 0 audio = Raise e → e = IndexError.
Proof.
  destruct audio as [xs|c rows]; cbn; [congruence|].
  destruct (decide _); congruence.
Qed.

Lemma exec_StereoFeatures (self : instance F) c rows :
  (2 ≤ c)%nat →
  exec (StereoFeatures_call (Array2 c rows)) self
  = Ok [side_mid_ratio (column 0 rows) (column 1 rows);
        lr_imbalance (column 0 rows) (column 1 rows)].
Proof.
  intros Hc. unfold StereoFeatures_call. cbn [np_col].
  destruct (decide (0 < c)%nat); [|lia].
  destruct (decide (1 < c)%nat); [|lia].
  exec_norm. reflexivity.
Qed.

Lemma exec_StereoFeatures_bad (self : instance F) audio :
  stereo_indexable audio = false →
  exec (StereoFeatures_call audio) self = Raise IndexError.
Proof.
  intros Hbad. unfold StereoFeatures_call. exec_norm.
  destruct (np_col 0 audio) as [l|e] eqn:E0; exec_norm.
  - destruct (np_col_not_indexable _ Hbad) as [E|E]; [congruence|].
    rewrite E. reflexivity.
  - apply np_col_first in E0 as ->. reflexivity.
Qed.

(** C2, as the code has it.  The module defines no shape error of its
    own: a buffer whose columns 0 and 1 cannot both be read makes numpy
    raise [IndexError] in [StereoFeatures] and in whole-signal
    [PhaseCorrelation], and keeps [Loudness] from returning.  Any buffer
    with two or more columns is accepted by [StereoFeatures], the empty
    one included. *)
Theorem wrong_shape_is_index_error
    (sr : F) (st : option (list string)) (audio : ndarray F) :
  (stereo_indexable audio = false →
     exec (call audio) (StereoFeatures_init sr st) = Raise IndexError
     ∧ exec (call audio) (PhaseCorrelation_init sr None st)
       = Raise IndexError
     ∧ is_ok (exec (call audio) (Loudness_init sr st)) = false)
  ∧ (stereo_indexable audio = true →
     is_ok (exec (call audio) (StereoFeatures_init sr st)) = true).
Proof.
  split.
  - intros Hbad. rewrite !exec_call. cbn [cls StereoFeatures_init
      PhaseCorrelation_init Loudness_init set_feature_names set_frame_size
      ExtractorBase_init].
    split; [apply exec_StereoFeatures_bad, Hbad|]. split.
    + unfold PhaseCorrelation_call. exec_norm. cbn [frame_size truthy].
      exec_norm.
      destruct (np_col 0 audio) as [l|e] eqn:E0; exec_norm.
      * destruct (np_col_not_indexable _ Hbad) as [E|E]; [congruence|].
        rewrite E. reflexivity.
      * apply np_col_first in E0 as ->. reflexivity.
    + destruct (exec (Loudness_call audio) _) as [v|] eqn:Hx; [|reflexivity].
      exfalso. unfold Loudness_call in Hx. exec_inv Hx.
      destruct (np_col_not_indexable _ Hbad); congruence.
  - intros Hgood.
    destruct (np_col_indexable audio 0 ltac:(lia) Hgood)
      as (c & rows & -> & _).
    cbn in Hgood. apply bool_decide_eq_true in Hgood.
    rewrite exec_call. cbn [cls StereoFeatures_init set_feature_names
      ExtractorBase_init].
    rewrite exec_StereoFeatures by assumption. reflexivity.
Qed.
End Stereo.

Section Silence.
Context {F : Type} `{ScalarLaws F} `{Toolkit F}.

Lemma column_silent rows k :
  (k < 2)%nat → silent rows →
  column k rows = replicate (length rows) fzero.
Proof.
  intros Hk Hs.
  induction Hs as [|r rows [Hleft Hright] _ IH]; [reflexivity|].
  change (column k (r :: rows))
    with (default fzero (r !! k) :: column k rows).
  cbn [length replicate]. rewrite IH. f_equal.
  destruct k as [|[|k]]; [exact Hleft | exact Hright | lia].
Qed.

Lemma np_sum_zeros n : np_sum (replicate n fzero) = fzero.
Proof.
  unfold np_sum. induction n as [|n IH]; [reflexivity|].
  cbn [replicate fold_left].
  change (fadd fzero fzero) with (fadd (of_Z 0) (of_Z 0)).
  rewrite fadd_zero. exact IH.
Qed.

Lemma squares_of_zeros (op : F → F → F) n :
  op fzero fzero = fzero →
  map sq (zip_with op (replicate n fzero) (replicate n fzero))
  = replicate n fzero.
Proof.
  intros Hop. induction n as [|n IH]; [reflexivity|].
  cbn [replicate zip_with map]. rewrite IH, Hop.
  unfold sq, fzero. rewrite fmul_zero. reflexivity.
Qed.

Lemma power_of_zeros n : map sq (replicate n fzero) = replicate n fzero.
Proof.
  induction n as [|n IH]; [reflexivity|].
  cbn [replicate map]. rewrite IH.
  unfold sq, fzero. rewrite fmul_zero. reflexivity.
Qed.

(** The mean of [n] zeros: zero, or not a number when there is none. *)
Lemma np_mean_zeros n :
  np_mean (replicate n fzero) = fzero
  ∨ fis_nan (np_mean (replicate n fzero)) = true.
Proof.
  unfold np_mean. rewrite np_sum_zeros, length_replicate.
  destruct n as [|n].
  - right. apply fdiv_zero_zero.
  - left. apply fdiv_zero_pos. lia.
Qed.

(** C9. On a buffer with two or more columns [StereoFeatures] never
    raises.  With the mean of a list written out as the sum of its
    entries, added up from zero in order, over their number, and a square
    as a product, it returns [mean((L-R)^2) / mean((L+R)^2)] and
    [(mean(R^2) - mean(L^2)) / (mean(R^2) + mean(L^2))].  When every sample
    of the two channels is zero both numbers are not-a-number. *)
Theorem stereo_features_silence
    (sr : F) (st : option (list string)) (c : nat) (rows : list (list F)) :
  (2 ≤ c)%nat →
  let l := column 0 rows in
  let r := column 1 rows in
  let mean xs :=
    fdiv (fold_left fadd xs (of_Z 0)) (of_Z (Z.of_nat (length xs))) in
  let square x := fmul x x in
  let side_mid :=
    fdiv (mean (map square (zip_with fsub l r)))
         (mean (map square (zip_with fadd l r))) in
  let imbalance :=
    fdiv (fsub (mean (map square r)) (mean (map square l)))
         (fadd (mean (map square r)) (mean (map square l))) in
  exec (call (Array2 c rows)) (StereoFeatures_init sr st)
  = Ok [side_mid; imbalance]
  ∧ (silent rows → fis_nan side_mid = true ∧ fis_nan imbalance = true).
Proof.
  intros Hc l r mean square side_mid imbalance.
  assert (side_mid = side_mid_ratio l r) as -> by reflexivity.
  assert (imbalance = lr_imbalance l r) as -> by reflexivity.
  unfold side_mid_ratio, lr_imbalance. split.
  - rewrite exec_call. cbn [cls StereoFeatures_init set_feature_names
      ExtractorBase_init].
    apply exec_StereoFeatures, Hc.
  - intros Hs. unfold l, r.
    rewrite !column_silent by (assumption || lia).
    rewrite !squares_of_zeros by (apply fadd_zero || apply fsub_zero).
    rewrite power_of_zeros.
    destruct (np_mean_zeros (length rows)) as [Hm|Hm].
    + rewrite Hm. unfold fzero. rewrite fsub_zero, fadd_zero.
      split; apply fdiv_zero_zero.
    + split; [apply fdiv_nan, Hm | apply fdiv_nan, fsub_nan, Hm].
Qed.
End Silence.

(** ** Loudness *)

Section LoudnessClaims.
Context {F : Type} `{Scalar F} `{Toolkit F}.

Lemma rectified_abs env : rectified env → map fabs env = env.
Proof.
  induction 1 as [|x env Hx _ IH]; cbn; [reflexivity|].
  rewrite Hx, IH. reflexivity.
Qed.

(** [Loudness] returns exactly when every collaborator answers and the
    integrated loudness is not zero, and then with these five numbers. *)
Lemma Loudness_call_returns (self : instance F) audio v :
  exec (Loudness_call audio) self = Ok v
  ↔ ∃ integrated loudness_range ldr_95 ldr_max env_l env_r
      max_l max_r log_l log_r gain,
      loudness_readings (sample_rate self) audio integrated loudness_range
        ldr_95 ldr_max env_l env_r max_l max_r log_l log_r gain
      ∧ fis_zero integrated = false
      ∧ v = [loudness_range; ldr_95; ldr_max;
             fdiv (py_max (fmul (of_Z 20) log_l) (fmul (of_Z 20) log_r))
                  integrated;
             fdiv (of_Z (count_gt gain env_l + count_gt gain env_l))
                  (of_Z (Z.of_nat (length env_l)
                         + Z.of_nat (length env_r)))].
Proof.
  unfold Loudness_call. split.
  - intros Hx. exec_inv Hx. unfold lit in *. injection Hx as <-.
    match goal with
    | E : py_truediv _ _ = Ok _ |- _ =>
        unfold py_truediv in E;
        destruct (fis_zero _) eqn:Hz in E; [discriminate E|];
        injection E as <-
    end.
    do 11 eexists. split; [|split; [eassumption | reflexivity]].
    do 9 eexists. repeat (split; [first [eassumption | reflexivity]|]).
    assumption.
  - intros (integrated & loudness_range & ldr_95 & ldr_max & env_l & env_r
            & max_l & max_r & log_l & log_r & gain & Hread & Hz & ->).
    destruct Hread as (meter & momentary & short_term & micro & detector
      & left & right & peaks_l & peaks_r & E1 & E2 & E3 & E4 & E5 & E6
      & E7 & E8 & E9 & E10 & E11 & E12 & E13 & E14 & E15).
    exec_norm. rewrite E1. exec_norm. rewrite E2. exec_norm.
    rewrite E3. exec_norm. rewrite E4. exec_norm. rewrite E5. exec_norm.
    rewrite E6. exec_norm. rewrite E7. exec_norm. rewrite E8. exec_norm.
    rewrite E9. exec_norm. rewrite E10. exec_norm. rewrite E11. exec_norm.
    rewrite E12. exec_norm. rewrite E13. exec_norm. rewrite E14. exec_norm.
    unfold py_truediv. rewrite Hz. exec_norm.
    unfold lit. rewrite E15. exec_norm. reflexivity.
Qed.

(** C5. [Loudness] returns when its collaborators answer, and whenever
    it returns its fifth number is the count of left-envelope samples
    above [10^(-1/20)], taken twice -- once for the left channel and once
    more where the right channel's count belongs -- over the length of the
    left envelope plus the length of the right one.  The comparison is on
    the sample itself, which for a rectified envelope is its absolute
    value. *)
Theorem top1db_counts_left_twice
    (sr : F) (st : option (list string)) (audio : ndarray F) :
  let top1db gain env_l env_r :=
    fdiv (of_Z (count_gt gain env_l + count_gt gain env_l))
         (of_Z (Z.of_nat (length env_l) + Z.of_nat (length env_r))) in
  (∀ integrated loudness_range ldr_95 ldr_max env_l env_r
     max_l max_r log_l log_r gain,
     loudness_readings sr audio integrated loudness_range ldr_95 ldr_max
       env_l env_r max_l max_r log_l log_r gain →
     fis_zero integrated = false →
     ∃ v, exec (call audio) (Loudness_init sr st) = Ok v
          ∧ v !! 4%nat = Some (top1db gain env_l env_r))
  ∧ (∀ v, exec (call audio) (Loudness_init sr st) = Ok v →
     ∃ integrated loudness_range ldr_95 ldr_max env_l env_r
       max_l max_r log_l log_r gain,
       loudness_readings sr audio integrated loudness_range ldr_95 ldr_max
         env_l env_r max_l max_r log_l log_r gain
       ∧ v !! 4%nat = Some (top1db gain env_l env_r)
       ∧ (rectified env_l →
          count_gt gain env_l = count_gt gain (map fabs env_l))).
Proof.
  intros top1db. rewrite exec_call.
  cbn [cls Loudness_init set_feature_names ExtractorBase_init]. split.
  - intros integrated loudness_range ldr_95 ldr_max env_l env_r
      max_l max_r log_l log_r gain Hread Hz.
    eexists. split.
    + apply Loudness_call_returns. do 11 eexists.
      split; [exact Hread|]. split; [exact Hz | reflexivity].
    + reflexivity.
  - intros v Hv. apply Loudness_call_returns in Hv
      as (integrated & loudness_range & ldr_95 & ldr_max & env_l & env_r
          & max_l & max_r & log_l & log_r & gain & Hread & Hz & ->).
    exists integrated, loudness_range, ldr_95, ldr_max, env_l, env_r,
      max_l, max_r, log_l, log_r, gain.
    split; [exact Hread|]. split; [reflexivity|].
    intros Hr. rewrite rectified_abs by assumption. reflexivity.
Qed.

End LoudnessClaims.

Section LoudnessPeak.
Context {F : Type} `{OrderLaws F} `{Toolkit F}.

(** [max()] of a numpy array is one of its entries, and no entry is
    greater. *)
Lemma np_amax_greatest (env : list F) (m : F) :
  np_amax env = Ok m → m ∈ env ∧ Forall (λ x, fgtb x m = false) env.
Proof.
  destruct env as [|x xs]; [discriminate|]. cbn [np_amax]. intros [= <-].
  assert (∀ seen acc,
            acc ∈ seen → Forall (λ y, fgtb y acc = false) seen →
            fold_left np_maximum xs acc ∈ seen ++ xs
            ∧ Forall (λ y, fgtb y (fold_left np_maximum xs acc) = false)
                     (seen ++ xs)) as Hfold.
  { induction xs as [|b xs IH]; intros seen acc Hin Hall.
    - rewrite app_nil_r. split; assumption.
    - cbn [fold_left]. change (b :: xs) with ([b] ++ xs).
      rewrite app_assoc. apply IH; unfold np_maximum.
      + rewrite elem_of_app, list_elem_of_singleton.
        destruct (fis_nan acc); [auto|].
        destruct (fis_nan b); [auto|].
        destruct (fgtb b acc); auto.
      + apply Forall_app. rewrite Forall_singleton.
        destruct (fis_nan acc) eqn:Hacc.
        { split; [exact Hall | apply fgtb_nan, Hacc]. }
        destruct (fis_nan b) eqn:Hb.
        { split; [|apply fgtb_nan, Hb].
          eapply Forall_impl; [exact Hall|]. intros y _.
          apply fgtb_nan, Hb. }
        destruct (fgtb b acc) eqn:Hgt.
        * split; [|apply fgtb_irrefl].
          eapply Forall_impl; [exact Hall|]. intros y Hy.
          eapply fgtb_above; eassumption.
        * split; assumption. }
  apply (Hfold [x] x); [apply list_elem_of_here|].
  apply Forall_singleton, fgtb_irrefl.
Qed.

(** C6. [Loudness] returns when its collaborators answer and the
    integrated loudness is not zero, and whenever it returns each
    channel's true peak is [20 * log10] of the maximum of that channel's
    envelope -- an envelope sample that no envelope sample exceeds -- the
    true peak is the greater of the two, and the fourth number is that
    true peak divided by the integrated loudness: a quotient of the two
    decibel figures, not their difference. *)
Theorem peak_to_loudness_is_ratio
    (sr : F) (st : option (list string)) (audio : ndarray F) :
  let true_peak log_l log_r :=
    let true_peak_l := fmul (of_Z 20) log_l in
    let true_peak_r := fmul (of_Z 20) log_r in
    if fgtb true_peak_r true_peak_l then true_peak_r else true_peak_l in
  let maximum env m := m ∈ env ∧ Forall (λ x, fgtb x m = false) env in
  (∀ integrated loudness_range ldr_95 ldr_max env_l env_r
     max_l max_r log_l log_r gain,
     loudness_readings sr audio integrated loudness_range ldr_95 ldr_max
       env_l env_r max_l max_r log_l log_r gain →
     fis_zero integrated = false →
     maximum env_l max_l ∧ maximum env_r max_r
     ∧ ∃ v, exec (call audio) (Loudness_init sr st) = Ok v
            ∧ v !! 3%nat = Some (fdiv (true_peak log_l log_r) integrated))
  ∧ (∀ v, exec (call audio) (Loudness_init sr st) = Ok v →
     ∃ integrated loudness_range ldr_95 ldr_max env_l env_r
       max_l max_r log_l log_r gain,
       loudness_readings sr audio integrated loudness_range ldr_95 ldr_max
         env_l env_r max_l max_r log_l log_r gain
       ∧ maximum env_l max_l ∧ math_log10 max_l = Ok log_l
       ∧ maximum env_r max_r ∧ math_log10 max_r = Ok log_r
       ∧ fis_zero integrated = false
       ∧ v !! 3%nat = Some (fdiv (true_peak log_l log_r) integrated)
       ∧ (rectified env_l → maximum (map fabs env_l) max_l)
       ∧ (rectified env_r → maximum (map fabs env_r) max_r)).
Proof.
  intros true_peak maximum. rewrite exec_call.
  cbn [cls Loudness_init set_feature_names ExtractorBase_init]. split.
  - intros integrated loudness_range ldr_95 ldr_max env_l env_r
      max_l max_r log_l log_r gain Hread Hz.
    pose proof Hread as (meter & momentary & short_term & micro & detector
      & left & right & peaks_l & peaks_r & _ & _ & _ & _ & _ & _
      & _ & _ & Eml & _ & _ & _ & Emr & _ & _).
    split; [apply np_amax_greatest, Eml|].
    split; [apply np_amax_greatest, Emr|].
    eexists. split.
    + apply Loudness_call_returns. do 11 eexists.
      split; [exact Hread|]. split; [exact Hz | reflexivity].
    + reflexivity.
  - intros v Hv. apply Loudness_call_returns in Hv
      as (integrated & loudness_range & ldr_95 & ldr_max & env_l & env_r
          & max_l & max_r & log_l & log_r & gain & Hread & Hz & ->).
    exists integrated, loudness_range, ldr_95, ldr_max, env_l, env_r,
      max_l, max_r, log_l, log_r, gain.
    split; [exact Hread|].
    destruct Hread as (meter & momentary & short_term & micro & detector
      & left & right & peaks_l & peaks_r & _ & _ & _ & _ & _ & _
      & _ & _ & Eml & Ell & _ & _ & Emr & Elr & _).
    split; [apply np_amax_greatest, Eml|]. split; [exact Ell|].
    split; [apply np_amax_greatest, Emr|]. split; [exact Elr|].
    split; [exact Hz|]. split; [reflexivity|].
    split; intros Hr; rewrite rectified_abs by assumption;
      apply np_amax_greatest; assumption.
Qed.
End LoudnessPeak.

(** ** CrestFactor, whole-signal mode *)

Section CrestFactorClaims.
Context {F : Type} `{Scalar F} `{Toolkit F}.

Lemma exec_CrestFactor_whole (self : instance F) audio :
  truthy (frame_size self) = false →
  exec (CrestFactor_call audio) self = (c ← crest_of audio; Ok [c]).
Proof.
  intros Hfs. unfold CrestFactor_call. exec_norm. rewrite Hfs. exec_norm.
  destruct (crest_of audio); reflexivity.
Qed.

(** Without a frame size the call returns one number and aggregates
    nothing: the greater of [|min|] and [|max|] over the RMS of the whole
    buffer. *)
Lemma crest_factor_whole (sr : F) st audio r mn mx i j :
  es_RMS audio = Ok r →
  es_MinMax "min" audio = Ok (mn, i) →
  es_MinMax "max" audio = Ok (mx, j) →
  fis_zero r = false →
  exec (call audio) (CrestFactor_init sr None st)
  = Ok [fdiv (py_max (fabs mn) (fabs mx)) r].
Proof.
  intros Hr Hmn Hmx Hz. rewrite exec_call.
  cbn [cls CrestFactor_init set_feature_names set_frame_size
    ExtractorBase_init].
  rewrite exec_CrestFactor_whole by reflexivity.
  unfold crest_of. rewrite Hr, Hmn, Hmx. cbn [mbind result_bind rbind].
  unfold py_truediv. rewrite Hz. reflexivity.
Qed.
End CrestFactorClaims.

(** ** Distortion: the first difference of the histogram *)

Section DistortionClaims.
Context {F : Type} `{Scalar F}.

Lemma py_range_unit (start stop : Z) :
  py_range start stop 1
  = Ok (map (λ i : nat, start + Z.of_nat i)
            (seq 0 (Z.to_nat (stop - start)))).
Proof.
  unfold py_range. destruct (decide (1 = 0)) as [|_]; [lia|].
  destruct (decide (0 < 1)) as [_|]; [|lia].
  f_equal.
  assert (Z.to_nat (if decide (start < stop)
                    then (stop - start - 1) / 1 + 1 else 0)
          = Z.to_nat (stop - start)) as ->.
  { destruct (decide (start < stop)); [rewrite Z.div_1_r|]; lia. }
  apply map_ext. intros i. lia.
Qed.

Lemma rfold_snoc {A St} (body : St → A → result St) xs x acc :
  rfold body (xs ++ [x]) acc = (a ← rfold body xs acc; body a x).
Proof.
  revert acc. induction xs as [|y xs IH]; intros acc; cbn.
  - destruct (body acc x); reflexivity.
  - destruct (body acc y); cbn; [apply IH | reflexivity].
Qed.

(** After [t] rounds the first [t] cells hold the differences of the
    first [t] pairs of bins and the rest is still zero. *)
Lemma prime_loop (hist : list F) (size t : nat) :
  (t < length hist)%nat → (t ≤ size)%nat →
  rfold (λ prime i,
           hi ← py_getitem hist i;
           hp ← py_getitem hist (i - 1);
           np_setitem prime (i - 1) (fabs (fsub hi hp)))
        (map (λ i : nat, 1 + Z.of_nat i) (seq 0 t))
        (replicate size fzero)
  = Ok (map (bin_delta hist) (seq 0 t) ++ replicate (size - t) fzero).
Proof.
  induction t as [|t IH]; intros Hlen Hsize.
  - cbn. rewrite Nat.sub_0_r. reflexivity.
  - rewrite seq_S, !map_app. cbn [map Nat.add].
    rewrite rfold_snoc, IH by lia.
    cbn [mbind result_bind rbind].
    destruct (lookup_lt_is_Some_2 hist (S t) ltac:(lia)) as [hi Hhi].
    destruct (lookup_lt_is_Some_2 hist t ltac:(lia)) as [hp Hhp].
    replace (1 + Z.of_nat t) with (Z.of_nat (S t)) by lia.
    rewrite (py_getitem_lookup _ _ _ Hhi). cbn [mbind result_bind rbind].
    replace (Z.of_nat (S t) - 1) with (Z.of_nat t) by lia.
    rewrite (py_getitem_lookup _ _ _ Hhp). cbn [mbind result_bind rbind].
    unfold np_setitem.
    destruct (decide (Z.of_nat t < 0)) as [|_]; [lia|].
    rewrite length_app, length_map, length_seq, length_replicate.
    destruct (decide _) as [_|Hn]; [|lia].
    f_equal. rewrite Nat2Z.id.
    rewrite insert_app_r_alt by (rewrite length_map, length_seq; lia).
    rewrite length_map, length_seq, Nat.sub_diag.
    replace (size - t)%nat with (S (size - S t)) by lia.
    cbn [replicate]. rewrite <- app_assoc. cbn.
    unfold bin_delta. rewrite Hhi, Hhp. reflexivity.
Qed.

(** What the loop leaves in [prime]: 999 differences, and a last cell
    that is never written. *)
Lemma prime_of_spec (hist : list F) :
  (1000 ≤ length hist)%nat →
  prime_of hist = Ok (map (bin_delta hist) (seq 0 999) ++ [fzero]).
Proof.
  intros Hlen. unfold prime_of. rewrite py_range_unit.
  cbn [mbind result_bind rbind]. cbn zeta.
  change (Z.to_nat (1000 - 1)) with 999%nat.
  rewrite (prime_loop hist 1000 999) by lia.
  reflexivity.
Qed.
End DistortionClaims.

(** C4, where the code departs from it.  On a histogram of 1001 bins the
    loop writes the differences of the first 999 adjacent pairs into a
    1000-cell array; the difference of the last pair, bins 999 and 1000,
    is never taken and the last cell keeps its initial zero. *)
Theorem prime_last_cell_never_written
    {F : Type} `{Scalar F} (hist : list F) :
  length hist = 1001%nat →
  ∃ prime,
    prime_of hist = Ok prime
    ∧ length prime = 1000%nat
    ∧ (∀ j, (j < 999)%nat →
         prime !! j
         = Some (fabs (fsub (default fzero (hist !! S j))
                            (default fzero (hist !! j)))))
    ∧ prime !! 999%nat = Some fzero.
Proof.
  intros Hlen. eexists. split; [apply prime_of_spec; lia|].
  split; [|split].
  - rewrite length_app, length_map, length_seq. reflexivity.
  - intros j Hj.
    rewrite lookup_app_l by (rewrite length_map, length_seq; lia).
    rewrite list_lookup_fmap, lookup_seq_lt by lia. reflexivity.
  - rewrite lookup_app_r by (rewrite length_map, length_seq; lia).
    rewrite length_map, length_seq. reflexivity.
Qed.

(** ** A frame size of zero *)

Section ZeroFrameSize.
Context {F : Type} `{Scalar F} `{Toolkit F}.

(** C1, where the code departs from it.  [CrestFactor(sample_rate, 0)]
    is a pooling object, because its frame size is not [None], yet its
    call takes the whole-signal branch, because zero is false: the header
    list names two statistics and the vector holds the single
    whole-buffer crest factor. *)
Theorem zero_frame_size_headers_mismatch
    (sr : F) (audio : ndarray F) (crest : F) :
  crest_of audio = Ok crest →
  let self := CrestFactor_init sr (Some 0) None in
  exec (get_headers ".") self
  = Ok ["crest_factor.mean"; "crest_factor.stdev"]
  ∧ exec (call audio) self = Ok [crest].
Proof.
  intros Hc self. split.
  - rewrite (exec_get_headers self "." ["mean"; "stdev"]) by reflexivity.
    reflexivity.
  - rewrite exec_call. cbn [cls self CrestFactor_init set_feature_names
      set_frame_size ExtractorBase_init].
    rewrite exec_CrestFactor_whole by reflexivity.
    rewrite Hc. reflexivity.
Qed.

(** [PhaseCorrelation] has the same two tests of its frame size. *)
Lemma zero_frame_size_phase_correlation
    (sr : F) (audio : ndarray F) l r m :
  np_col 0 audio = Ok l → np_col 1 audio = Ok r → np_corrcoef l r = Ok m →
  let self := PhaseCorrelation_init sr (Some 0) None in
  exec (get_headers ".") self
  = Ok ["phase_correlation.mean"; "phase_correlation.stdev"]
  ∧ exec (call audio) self = Ok [c01 m].
Proof.
  intros Hl Hr Hm self. split.
  - rewrite (exec_get_headers self "." ["mean"; "stdev"]) by reflexivity.
    reflexivity.
  - rewrite exec_call. cbn [cls self PhaseCorrelation_init
      set_feature_names set_frame_size ExtractorBase_init].
    unfold PhaseCorrelation_call. exec_norm. subst self.
    cbn [frame_size PhaseCorrelation_init set_feature_names set_frame_size
      truthy Z.eqb negb].
    exec_norm. rewrite Hl. exec_norm. rewrite Hr. exec_norm.
    rewrite Hm. exec_norm. reflexivity.
Qed.
End ZeroFrameSize.

(** * The statements on concrete buffers *)

(** The exact model has the zero and not-a-number behaviour of
    [ScalarLaws]. *)
#[export] Instance xq_laws : ScalarLaws xq.
Proof.
  split; try reflexivity.
  - intros n Hn. destruct n as [|p|p]; try lia. reflexivity.
  - intros [] y; try discriminate. reflexivity.
  - intros [] y; try discriminate. reflexivity.
  - intros [] y; try discriminate. reflexivity.
Qed.

(** The exact model orders its numbers as IEEE-754 does. *)
#[export] Instance xq_order : OrderLaws xq.
Proof.
  split.
  - intros [q| | |]; cbn; try reflexivity.
    rewrite (proj1 (Qeq_alt q q) (Qeq_refl q)). reflexivity.
  - intros [p| | |] [q| | |] [t| | |]; cbn; intros Hyx Hzx;
      try reflexivity; try discriminate.
    destruct (t ?= q)%Q eqn:Htq; try reflexivity.
    exfalso. apply Qgt_alt in Htq.
    destruct (q ?= p)%Q eqn:Hqp; try discriminate. apply Qgt_alt in Hqp.
    assert ((t ?= p)%Q = Gt) as Htp
      by (apply Qgt_alt; eapply Qlt_trans; eassumption).
    rewrite Htp in Hzx. discriminate.
  - intros [p| | |] [q| | |]; cbn; intros Hnan;
      try reflexivity; discriminate.
Qed.

(** The histogram of the signal held at full scale. *)
Example full_scale_hist_bins :
  full_scale_hist = replicate 1000 (num 0 1) ++ [num 4 1].
Proof. vm_compute. reflexivity. Qed.

(** A frame size of zero on the two-sample mono buffer: two headers, one
    number. *)
Lemma zero_frame_size_on_mono :
  crest_of mono = Ok (num 2147483648 1697734891)
  ∧ exec (get_headers ".") (CrestFactor_init rate (Some 0) None)
    = Ok ["crest_factor.mean"; "crest_factor.stdev"]
  ∧ exec (call mono) (CrestFactor_init rate (Some 0) None)
    = Ok [num 2147483648 1697734891].
Proof.
  assert (crest_of mono = Ok (num 2147483648 1697734891)) as Hc
    by (vm_compute; reflexivity).
  split; [exact Hc|].
  exact (zero_frame_size_headers_mismatch rate mono _ Hc).
Defined.

(** C2 as stated fails: [StereoFeatures] does not reject the empty stereo
    buffer -- it returns two not-a-numbers -- and it does not reject a
    three-channel buffer -- it reads channels 0 and 1. *)
Lemma empty_buffer_not_rejected :
  exec (call empty_stereo) (StereoFeatures_init rate None) = Ok [NaN; NaN]
  ∧ exec (call surround) (StereoFeatures_init rate None)
    = Ok [num 13 61; num 3 37].
Proof. split; vm_compute; reflexivity. Qed.

(** A mono buffer is refused with [IndexError]; the empty stereo buffer
    is accepted. *)
Lemma wrong_shape_on_mono_and_empty :
  (stereo_indexable mono = false
   ∧ exec (call mono) (StereoFeatures_init rate None) = Raise IndexError
   ∧ exec (call mono) (PhaseCorrelation_init rate None None)
     = Raise IndexError
   ∧ is_ok (exec (call mono) (Loudness_init rate None)) = false)
  ∧ (stereo_indexable empty_stereo = true
     ∧ is_ok (exec (call empty_stereo) (StereoFeatures_init rate None))
       = true).
Proof.
  split.
  - split; [reflexivity|].
    exact (proj1 (wrong_shape_is_index_error rate None mono) eq_refl).
  - split; [reflexivity|].
    exact (proj2 (wrong_shape_is_index_error rate None empty_stereo) eq_refl).
Defined.

(** [CrestFactor(44100, 2, stats=["mean"])] has no [stats], no headers
    and no vector. *)
Lemma stats_never_assigned_crest_factor :
  CrestFactor = CrestFactor ∧ truthy (Some 2) = true
  ∧ stats (new CrestFactor rate (Some 2) (Some ["mean"])) = None
  ∧ exec (get_headers ".") (new CrestFactor rate (Some 2) (Some ["mean"]))
    = Raise AttributeError
  ∧ exec (call mono) (new CrestFactor rate (Some 2) (Some ["mean"]))
    = Raise AttributeError.
Proof.
  destruct (stats_never_assigned CrestFactor rate (Some 2) ["mean"] mono ".")
    as (Hstats & Hheaders & _ & Hcall & _).
  split; [reflexivity|]. split; [reflexivity|].
  split; [exact Hstats|].
  split; [exact (Hheaders eq_refl) | exact (Hcall eq_refl eq_refl)].
Defined.

(** The double's collaborators answer on the three-sample stereo buffer. *)
Lemma stereo_clip_readings :
  loudness_readings rate stereo_clip
    (num (-23) 1) (num 0 1) (num 0 1) (num 0 1)
    [num 1 2; num 1 2; num 1 1] [num 1 4; num 1 4; num 3 4]
    (num 1 1) (num 3 4) (num 0 1) NaN (num 8912509381 10000000000).
Proof.
  do 9 eexists. repeat (split; [vm_compute; reflexivity|]).
  vm_compute; reflexivity.
Defined.

(** On the three-sample stereo buffer one left-envelope sample of three
    is above the threshold: two over six. *)
Lemma top1db_on_stereo_clip :
  fis_zero (num (-23) 1) = false
  ∧ ∃ v, exec (call stereo_clip) (Loudness_init rate None) = Ok v
         ∧ v !! 4%nat = Some (num 1 3).
Proof.
  split; [reflexivity|].
  exact (proj1 (top1db_counts_left_twice rate None stereo_clip)
           _ _ _ _ _ _ _ _ _ _ _ stereo_clip_readings eq_refl).
Defined.

(** The double's collaborators answer on the two buffers whose channels
    peak at one tenth and one hundredth: -20 dB and -40 dB. *)
Lemma left_louder_readings :
  loudness_readings rate left_louder
    (num (-23) 1) (num 0 1) (num 0 1) (num 0 1)
    [num 1 20; num 1 10; num 1 50] [num 1 100; num 1 200; num 1 1000]
    (num 1 10) (num 1 100) (num (-1) 1) (num (-2) 1)
    (num 8912509381 10000000000).
Proof.
  do 9 eexists. repeat (split; [vm_compute; reflexivity|]).
  vm_compute; reflexivity.
Defined.

Lemma right_louder_readings :
  loudness_readings rate right_louder
    (num (-23) 1) (num 0 1) (num 0 1) (num 0 1)
    [num 1 100; num 1 200; num 1 1000] [num 1 20; num 1 10; num 1 50]
    (num 1 100) (num 1 10) (num (-2) 1) (num (-1) 1)
    (num 8912509381 10000000000).
Proof.
  do 9 eexists. repeat (split; [vm_compute; reflexivity|]).
  vm_compute; reflexivity.
Defined.

(** Whichever channel is the louder, the true peak is -20 dB and its
    ratio to the integrated loudness of -23 is 20/23. *)
Lemma peak_to_loudness_on_either_channel :
  fis_zero (num (-23) 1) = false
  ∧ exec (call left_louder) (Loudness_init rate None)
    = Ok [num 0 1; num 0 1; num 0 1; num 20 23; num 0 1]
  ∧ exec (call right_louder) (Loudness_init rate None)
    = Ok [num 0 1; num 0 1; num 0 1; num 20 23; num 0 1].
Proof.
  split; [reflexivity|]. split.
  - destruct (proj1 (peak_to_loudness_is_ratio rate None left_louder)
                _ _ _ _ _ _ _ _ _ _ _ left_louder_readings eq_refl)
      as (_ & _ & v & Hv & Hpeak).
    assert (exec (call left_louder) (Loudness_init rate None)
            = Ok [num 0 1; num 0 1; num 0 1; num 20 23; num 0 1]) as Hrun
      by (vm_compute; reflexivity).
    rewrite Hv in Hrun |- *. injection Hrun as ->. reflexivity.
  - destruct (proj1 (peak_to_loudness_is_ratio rate None right_louder)
                _ _ _ _ _ _ _ _ _ _ _ right_louder_readings eq_refl)
      as (_ & _ & v & Hv & Hpeak).
    assert (exec (call right_louder) (Loudness_init rate None)
            = Ok [num 0 1; num 0 1; num 0 1; num 20 23; num 0 1]) as Hrun
      by (vm_compute; reflexivity).
    rewrite Hv in Hrun |- *. injection Hrun as ->. reflexivity.
Defined.

(** Four samples of stereo silence give two not-a-numbers; the
    three-sample buffer gives 59/11 and -13/35. *)
Lemma stereo_features_on_silence :
  (2 ≤ 2)%nat ∧ silent silence_rows
  ∧ (∃ a b : xq,
       exec (call (Array2 2 silence_rows)) (StereoFeatures_init rate None)
       = Ok [a; b]
       ∧ fis_nan a = true ∧ fis_nan b = true)
  ∧ exec (call stereo_clip) (StereoFeatures_init rate None)
    = Ok [num 59 11; num (-13) 35].
Proof.
  assert (silent silence_rows) as Hs by (repeat constructor).
  split; [lia|]. split; [exact Hs|]. split.
  - destruct (stereo_features_silence rate None 2 silence_rows ltac:(lia))
      as [Hv Hnan].
    destruct (Hnan Hs) as [Ha Hb].
    eexists _, _. split; [exact Hv|]. split; [exact Ha | exact Hb].
  - unfold stereo_clip.
    rewrite (proj1 (stereo_features_silence rate None 2 clip_rows
                      ltac:(lia))).
    vm_compute. reflexivity.
Defined.

(** At full scale the last pair of bins differs by the whole sample
    count, and the last cell of [prime] is zero all the same. *)
Lemma prime_last_cell_at_full_scale :
  length full_scale_hist = 1001%nat
  ∧ (∃ prime, prime_of full_scale_hist = Ok prime
              ∧ prime !! 999%nat = Some (num 0 1))
  ∧ fabs (fsub (default fzero (full_scale_hist !! 1000%nat))
               (default fzero (full_scale_hist !! 999%nat)))
    = num 4 1.
Proof.
  assert (length full_scale_hist = 1001%nat) as Hlen
    by (vm_compute; reflexivity).
  split; [exact Hlen|]. split; [|vm_compute; reflexivity].
  destruct (prime_last_cell_never_written full_scale_hist Hlen)
    as (prime & Hprime & _ & _ & Hlast).
  exists prime. split; [exact Hprime | exact Hlast].
Defined.

(** *** Hardware doubles *)

Import Binary64.

(** On IEEE-754 doubles the zero and not-a-number facts of [ScalarLaws]
    hold at the values the silence result meets, and [StereoFeatures]
    turns silence into two not-a-numbers without raising. *)
Example binary64_zero_facts :
  fadd (of_Z 0) (of_Z 0) = b64_of_Z 0
  ∧ fsub (of_Z 0) (of_Z 0) = b64_of_Z 0
  ∧ fmul (of_Z 0) (of_Z 0) = b64_of_Z 0
  ∧ Forall (λ n, fdiv (of_Z 0) (of_Z n) = b64_of_Z 0)
           [1; 2; 8; 1000; 44100; 2 ^ 40]
  ∧ fis_nan (fdiv (b64_of_Z 0) (of_Z 0)) = true.
Proof. repeat split; repeat constructor. Qed.

(** The order facts of [OrderLaws] hold on every choice from the sample
    doubles. *)
Example binary64_order_facts :
  Forall (λ x, fgtb x x = false) b64_samples
  ∧ Forall (λ x, Forall (λ y, fis_nan y = true → fgtb x y = false)
                        b64_samples) b64_samples
  ∧ forallb (λ x, forallb (λ y, forallb (λ z,
               implb (fgtb y x && negb (fgtb z x)) (negb (fgtb z y)))
             b64_samples) b64_samples) b64_samples
    = true.
Proof.
  split; [repeat constructor|]. split; [|vm_compute; reflexivity].
  repeat constructor; intros Hnan; try reflexivity;
    vm_compute in Hnan; discriminate Hnan.
Qed.

Example binary64_silence :
  ∃ a b,
    exec (StereoFeatures_call b64_silence)
         (StereoFeatures_init (b64_of_Z 44100) None)
    = Ok [a; b]
    ∧ fis_nan a = true ∧ fis_nan b = true.
Proof. eexists _, _. repeat split; vm_compute; reflexivity. Qed.

Example binary64_stereo :
  exec (StereoFeatures_call b64_stereo)
       (StereoFeatures_init (b64_of_Z 44100) None)
  = Ok [lit 51 19; lit 17 35].
Proof. vm_compute. reflexivity. Qed.

(** *** The sampled sine in the exact model *)

Lemma Qred_inject_Z z : Qred (inject_Z z) = inject_Z z.
Proof.
  unfold Qred, inject_Z.
  pose proof (Z.ggcd_gcd z 1) as Hg.
  pose proof (Z.ggcd_correct_divisors z 1) as Hd.
  destruct (Z.ggcd z 1) as (g & aa & bb). cbn in Hg, Hd.
  rewrite Z.gcd_1_r in Hg. subst g. destruct Hd as [-> Hbb].
  rewrite Z.mul_1_l in Hbb. rewrite <- Hbb, Z.mul_1_l. reflexivity.
Qed.

Lemma xadd_integers a b :
  xadd (Fin (inject_Z a)) (Fin (inject_Z b)) = Fin (inject_Z (a + b)).
Proof.
  cbn [xadd]. f_equal. rewrite <- (Qred_inject_Z (a + b)).
  apply Qred_complete. rewrite inject_Z_plus. reflexivity.
Qed.

Lemma sine_periods_S p : sine_periods (S p) = sine_period ++ sine_periods p.
Proof. reflexivity. Qed.

Lemma sine_periods_length p : length (sine_periods p) = (4 * p)%nat.
Proof.
  induction p as [|p IH]; [reflexivity|].
  rewrite sine_periods_S, length_app, IH. cbn [sine_period length]. lia.
Qed.

(** The squares of [p] periods sum to [2 p]. *)
Lemma sine_power_sum p a :
  fold_left xadd (map sq (sine_periods p)) (Fin (inject_Z a))
  = Fin (inject_Z (a + 2 * Z.of_nat p)).
Proof.
  revert a. induction p as [|p IH]; intros a.
  - cbn. do 2 f_equal. lia.
  - rewrite sine_periods_S, map_app, fold_left_app.
    change (map sq sine_period)
      with [Fin (inject_Z 0); Fin (inject_Z 1);
            Fin (inject_Z 0); Fin (inject_Z 1)].
    cbn [fold_left]. rewrite !xadd_integers, IH. do 2 f_equal. lia.
Qed.

Lemma xdiv_half n :
  0 < n → xdiv (Fin (inject_Z n)) (Fin (inject_Z (2 * n))) = Fin (1 # 2).
Proof.
  intros Hn. cbn [xdiv].
  replace (sign (inject_Z (2 * n))) with Gt
    by (unfold sign; cbn [Qnum inject_Z]; symmetry; apply Z.compare_gt_iff;
        lia).
  f_equal. change (1 # 2)%Q with (Qred (1 # 2)). apply Qred_complete.
  destruct n as [|n|n]; try lia.
  change (2 * Z.pos n) with (Z.pos (2 * n)).
  unfold Qeq, Qdiv, Qmult, Qinv, inject_Z. cbn [Qnum Qden]. lia.
Qed.

Lemma sine_mean_power p :
  (0 < p)%nat → np_mean (map sq (sine_periods p)) = Fin (1 # 2).
Proof.
  intros Hp. unfold np_mean, np_sum.
  change fzero with (Fin (inject_Z 0)).
  rewrite sine_power_sum, length_map, sine_periods_length.
  change (fdiv ?a (of_Z ?n)) with (xdiv a (Fin (inject_Z n))).
  replace (Z.of_nat (4 * p)) with (2 * (0 + 2 * Z.of_nat p)) by lia.
  apply xdiv_half. lia.
Qed.

(** Once the running extreme is one that no sample of a period beats,
    further periods leave it and its position alone. *)
Lemma extreme_stable (pick : xq → xq → bool) best at_ i p :
  Forall (λ y, pick best y = false) sine_period →
  fold_left
    (λ '(best, at_, i) y,
       if pick best y then (y, i, i + 1) else (best, at_, i + 1))
    (sine_periods p) (best, at_, i)
  = (best, at_, i + 4 * Z.of_nat p).
Proof.
  intros Hp. revert i. induction p as [|p IH]; intros i.
  - cbn. f_equal. lia.
  - rewrite sine_periods_S, fold_left_app.
    apply Forall_cons in Hp as [H1 Hp]. apply Forall_cons in Hp as [H2 Hp].
    apply Forall_cons in Hp as [H3 Hp]. apply Forall_cons in Hp as [H4 _].
    cbn [sine_period fold_left]. rewrite H1, H2, H3, H4, IH.
    f_equal. lia.
Qed.

Lemma sine_extremes p :
  (0 < p)%nat →
  es_MinMax "min" (Array1 (sine_periods p)) = Ok (num (-1) 1, 3)
  ∧ es_MinMax "max" (Array1 (sine_periods p)) = Ok (num 1 1, 1).
Proof.
  destruct p as [|p]; [lia|]. intros _.
  change (sine_periods (S p))
    with (num 0 1 :: ([num 1 1; num 0 1; num (-1) 1] ++ sine_periods p)).
  split; cbn [es_MinMax xq_toolkit min_max].
  - destruct (decide ("min" = "min")); [|congruence].
    cbn [extremum]. rewrite fold_left_app.
    match goal with
    | |- context [fold_left ?f [?a; ?b; ?c] ?st] =>
        let v := eval vm_compute in (fold_left f [a; b; c] st) in
        change (fold_left f [a; b; c] st) with v
    end.
    rewrite extreme_stable by (repeat constructor). reflexivity.
  - destruct (decide ("max" = "min")); [discriminate|].
    cbn [extremum]. rewrite fold_left_app.
    match goal with
    | |- context [fold_left ?f [?a; ?b; ?c] ?st] =>
        let v := eval vm_compute in (fold_left f [a; b; c] st) in
        change (fold_left f [a; b; c] st) with v
    end.
    rewrite extreme_stable by (repeat constructor). reflexivity.
Qed.

Lemma sine_rms p :
  (0 < p)%nat →
  es_RMS (Array1 (sine_periods p)) = Ok (num 3037000499 4294967296).
Proof.
  intros Hp. cbn [es_RMS xq_toolkit rms].
  destruct (sine_periods p) eqn:E.
  - apply (f_equal length) in E. rewrite sine_periods_length in E.
    cbn in E. lia.
  - rewrite <- E, sine_mean_power by assumption. reflexivity.
Qed.

(** *** The sampled sine in exact arithmetic *)

Import Ideal.

Section SampledSine.
Local Open Scope R_scope.

Lemma np_sum_snoc (xs : list R) (x : R) :
  np_sum (xs ++ [x]) = np_sum xs + x.
Proof. unfold np_sum. rewrite fold_left_app. reflexivity. Qed.

Lemma np_sum_seq_S (f : nat → R) (n : nat) :
  np_sum (map f (seq 0 (S n))) = np_sum (map f (seq 0 n)) + f n.
Proof. rewrite seq_S, map_app. apply np_sum_snoc. Qed.

(** The cosines of an arithmetic progression of angles telescope. *)
Lemma cosines_telescope (psi beta : R) (n : nat) :
  2 * sin (beta / 2) * np_sum (map (λ i : nat, cos (psi + INR i * beta))
                                   (seq 0 n))
  = sin (psi + INR n * beta - beta / 2) - sin (psi - beta / 2).
Proof.
  induction n as [|n IH].
  - cbn [seq map]. change (np_sum []) with 0. change (INR 0) with 0.
    replace (psi + 0 * beta - beta / 2) with (psi - beta / 2) by lra. lra.
  - rewrite np_sum_seq_S, Rmult_plus_distr_l, IH, S_INR.
    replace (psi + (INR n + 1) * beta - beta / 2)
      with ((psi + INR n * beta) + beta / 2) by lra.
    replace (psi + INR n * beta - beta / 2)
      with ((psi + INR n * beta) - beta / 2) by lra.
    rewrite sin_plus, sin_minus. lra.
Qed.

Lemma squares_sum (phi alpha : R) (n : nat) :
  np_sum (map (λ i : nat, sq (sin (phi + INR i * alpha))) (seq 0 n))
  = INR n / 2
    - np_sum (map (λ i : nat, cos (2 * phi + INR i * (2 * alpha)))
                  (seq 0 n)) / 2.
Proof.
  induction n as [|n IH].
  - cbn [seq map]. change (np_sum []) with 0. change (INR 0) with 0. lra.
  - rewrite !np_sum_seq_S, IH, S_INR.
    replace (2 * phi + INR n * (2 * alpha))
      with (2 * (phi + INR n * alpha)) by lra.
    rewrite cos_2a_sin. unfold sq. cbn [fmul real_scalar]. lra.
Qed.

(** Over whole cycles below half the sampling rate the squares of the
    samples add up to half their number. *)
Lemma sine_squares (cycles window periods : nat) (phase : R) :
  (0 < cycles)%nat → (2 * cycles < window)%nat →
  np_sum (map sq (sine_wave cycles window (window * periods) phase))
  = INR (window * periods) / 2.
Proof.
  intros Hc Hw. unfold sine_wave. rewrite map_map.
  set (alpha := 2 * PI * INR cycles / INR window).
  rewrite (squares_sum phase alpha).
  assert (0 < INR window) as HM by (apply lt_0_INR; lia).
  assert (0 < INR cycles) as Hm by (apply lt_0_INR; lia).
  assert (2 * INR cycles < INR window) as Hny.
  { replace 2 with (INR 2) by reflexivity. rewrite <- mult_INR.
    apply lt_INR. lia. }
  pose proof PI_RGT_0 as Hpi.
  pose proof (cosines_telescope (2 * phase) (2 * alpha) (window * periods))
    as Htel.
  replace (2 * alpha / 2) with alpha in Htel by lra.
  assert (INR (window * periods) * (2 * alpha)
          = 2 * INR (2 * cycles * periods) * PI) as Hturn.
  { rewrite !mult_INR. unfold alpha. change (INR 2) with 2. field. lra. }
  replace (2 * phase + INR (window * periods) * (2 * alpha) - alpha)
    with ((2 * phase - alpha) + 2 * INR (2 * cycles * periods) * PI) in Htel
    by (rewrite Hturn; lra).
  rewrite sin_period, Rminus_diag in Htel.
  assert (0 < sin alpha) as Hs.
  { apply sin_gt_0; unfold alpha.
    - apply Rdiv_lt_0_compat; [|assumption].
      apply Rmult_lt_0_compat; lra.
    - apply (Rmult_lt_reg_r (INR window)); [assumption|].
      unfold Rdiv. rewrite Rmult_assoc, Rinv_l by lra.
      rewrite Rmult_1_r. nra. }
  assert (np_sum (map (λ i : nat, cos (2 * phase + INR i * (2 * alpha)))
                      (seq 0 (window * periods))) = 0) as ->.
  { apply (Rmult_eq_reg_l (2 * sin alpha)); [|lra].
    rewrite Htel. lra. }
  lra.
Qed.

Lemma real_gtb_true (x y : R) : real_gtb x y = true ↔ y < x.
Proof. unfold real_gtb. destruct (Rlt_dec y x); split; done. Qed.

Lemma real_gtb_false (x y : R) : real_gtb x y = false ↔ x <= y.
Proof.
  unfold real_gtb. destruct (Rlt_dec y x); split; try done; lra.
Qed.

(** The scan for an extreme keeps an entry that is on the far side of
    every entry, for an order that the choice follows. *)
Lemma real_extreme_spec (before : R → R → Prop) pick xs v i :
  (∀ x, before x x) → (∀ x y z, before x y → before y z → before x z) →
  (∀ b y, pick b y = true → before y b) →
  (∀ b y, pick b y = false → before b y) →
  real_extreme pick xs = Ok (v, i) → v ∈ xs ∧ Forall (before v) xs.
Proof.
  intros Hrefl Htrans Hyes Hno.
  destruct xs as [|x xs]; [discriminate|]. cbn [real_extreme].
  assert (∀ seen best at_ j,
            best ∈ seen → Forall (before best) seen →
            let r := fold_left
                       (λ '(best, at_, i) y,
                          if pick best y then (y, i, (i + 1)%Z)
                          else (best, at_, (i + 1)%Z))
                       xs (best, at_, j) in
            r.1.1 ∈ seen ++ xs ∧ Forall (before r.1.1) (seen ++ xs)) as Hfold.
  { induction xs as [|y xs IH]; intros seen best at_ j Hin Hall.
    - cbn. rewrite app_nil_r. split; assumption.
    - cbn [fold_left]. change (y :: xs) with ([y] ++ xs).
      rewrite app_assoc. destruct (pick best y) eqn:Hp.
      + apply IH.
        * rewrite elem_of_app, list_elem_of_singleton. auto.
        * apply Forall_app. rewrite Forall_singleton.
          split; [|apply Hrefl].
          eapply Forall_impl; [exact Hall|]. intros z Hz.
          eapply Htrans; [apply Hyes, Hp | exact Hz].
      + apply IH.
        * rewrite elem_of_app. auto.
        * apply Forall_app. rewrite Forall_singleton.
          split; [exact Hall | apply Hno, Hp]. }
  intros [= Hv]. specialize (Hfold [x] x 0%Z 1%Z).
  cbn zeta in Hfold. rewrite Hv in Hfold. apply Hfold.
  - apply list_elem_of_here.
  - apply Forall_singleton, Hrefl.
Qed.

Lemma real_minimum xs v i :
  real_min_max "min" (Array1 xs) = Ok (v, i) →
  v ∈ xs ∧ Forall (λ x, v <= x) xs.
Proof.
  cbn. apply (real_extreme_spec Rle).
  - intros x. lra.
  - intros x y z. lra.
  - intros b y Hp%real_gtb_true. lra.
  - intros b y Hp%real_gtb_false. exact Hp.
Qed.

Lemma real_maximum xs v i :
  real_min_max "max" (Array1 xs) = Ok (v, i) →
  v ∈ xs ∧ Forall (λ x, x <= v) xs.
Proof.
  cbn. apply (real_extreme_spec (λ a b, b <= a)).
  - intros x. lra.
  - intros x y z. lra.
  - intros b y Hp%real_gtb_true. lra.
  - intros b y Hp%real_gtb_false. exact Hp.
Qed.

Lemma real_min_max_answers type x xs :
  ∃ v i, real_min_max type (Array1 (x :: xs)) = Ok (v, i).
Proof.
  unfold real_min_max, real_extreme.
  destruct (decide (type = "min")); destruct (fold_left _ _ _) as [[v i] j];
    eauto.
Qed.

Lemma py_max_Rmax (a b : R) : py_max a b = Rmax a b.
Proof.
  unfold py_max, Rmax. cbn [fgtb real_scalar].
  destruct (real_gtb b a) eqn:Hgt.
  - apply real_gtb_true in Hgt. destruct (Rle_dec a b); lra.
  - apply real_gtb_false in Hgt. destruct (Rle_dec a b); lra.
Qed.

Lemma sine_wave_length cycles window count phase :
  length (sine_wave cycles window count phase) = count.
Proof. unfold sine_wave. rewrite length_map, length_seq. reflexivity. Qed.

Lemma sine_wave_bound cycles window count phase x :
  x ∈ sine_wave cycles window count phase → Rabs x <= 1.
Proof.
  unfold sine_wave. intros (i & -> & _)%list_elem_of_fmap.
  apply Rabs_le. apply SIN_bound.
Qed.

Lemma sine_mean_square (cycles window periods : nat) (phase : R) :
  (0 < cycles)%nat → (2 * cycles < window)%nat → (0 < periods)%nat →
  np_mean (map sq (sine_wave cycles window (window * periods) phase)) = / 2.
Proof.
  intros Hc Hw Hp. unfold np_mean.
  rewrite sine_squares by assumption.
  rewrite length_map, sine_wave_length.
  change (INR (window * periods) / 2 / IZR (Z.of_nat (window * periods))
          = / 2).
  rewrite <- INR_IZR_INZ.
  assert (0 < INR (window * periods)) as Hn by (apply lt_0_INR; nia).
  field. lra.
Qed.

Lemma sin_period_Z (x : R) (q : Z) : sin (x + 2 * IZR q * PI) = sin x.
Proof.
  destruct (Z_le_gt_dec 0 q) as [Hq|Hq].
  - rewrite <- (Z2Nat.id q Hq), <- INR_IZR_INZ. apply sin_period.
  - rewrite <- (sin_period (x + 2 * IZR q * PI) (Z.to_nat (- q))).
    rewrite INR_IZR_INZ, Z2Nat.id by lia. rewrite opp_IZR.
    f_equal. lra.
Qed.

(** With [window] samples to the cycle, some sample lies within half a
    step of a crest of the wave. *)
Lemma sample_near_crest (window : nat) (phase : R) :
  (3 <= window)%nat →
  ∃ i, (i < window)%nat
       ∧ cos (PI / INR window)
         <= Rabs (sin (phase + INR i * (2 * PI * INR 1 / INR window))).
Proof.
  intros Hw. pose proof PI_RGT_0 as Hpi.
  assert (3 <= INR window) as HM.
  { replace 3 with (INR 3) by (cbn; lra). apply le_INR. lia. }
  set (alpha := 2 * PI * INR 1 / INR window).
  assert (alpha = 2 * PI / INR window) as Halpha
    by (unfold alpha; change (INR 1) with 1; field; lra).
  assert (0 < alpha) as Hpos.
  { rewrite Halpha. apply Rdiv_lt_0_compat; lra. }
  set (t := (PI / 2 - phase) / alpha).
  set (j := up (t - / 2)).
  destruct (archimed (t - / 2)) as [Hlow Hhigh]. fold j in Hlow, Hhigh.
  set (delta := (IZR j - t) * alpha).
  assert (Rabs delta <= PI / INR window) as Hdelta.
  { replace (PI / INR window) with (/ 2 * alpha) by (rewrite Halpha; field; lra).
    unfold delta. rewrite Rabs_mult, (Rabs_pos_eq alpha) by lra.
    apply Rmult_le_compat_r; [lra|]. apply Rabs_le. lra. }
  assert (PI / INR window <= PI) as Hstep.
  { apply (Rmult_le_reg_r (INR window)); [lra|].
    unfold Rdiv. rewrite Rmult_assoc, Rinv_l by lra. nra. }
  exists (Z.to_nat (j mod Z.of_nat window)).
  assert (0 <= j mod Z.of_nat window < Z.of_nat window)%Z as Hmod
    by (apply Z.mod_pos_bound; lia).
  split; [lia|].
  rewrite (INR_IZR_INZ (Z.to_nat _)), Z2Nat.id by lia.
  pose proof (Z.div_mod j (Z.of_nat window) ltac:(lia)) as Hdm.
  assert (IZR (j mod Z.of_nat window)
          = IZR j - INR window * IZR (j / Z.of_nat window)) as ->.
  { rewrite Hdm at 2. rewrite plus_IZR, mult_IZR, <- INR_IZR_INZ. lra. }
  replace (phase + (IZR j - INR window * IZR (j / Z.of_nat window)) * alpha)
    with ((PI / 2 - - delta) + 2 * IZR (- (j / Z.of_nat window)) * PI).
  2:{ rewrite opp_IZR. unfold delta, t. rewrite Halpha. field. lra. }
  rewrite sin_period_Z, sin_shift, cos_neg.
  apply Rle_trans with (cos delta); [|apply Rle_abs].
  destruct (Rle_dec 0 delta) as [Hd|Hd].
  - rewrite Rabs_pos_eq in Hdelta by lra.
    apply cos_decr_1; lra.
  - rewrite <- (cos_neg delta). rewrite Rabs_left in Hdelta by lra.
    apply cos_decr_1; lra.
Qed.

(** The crest factor of a unit sine sampled over whole cycles, in exact
    arithmetic: the root of two times the largest absolute sample. *)
Lemma sine_crest (sr : R) (cycles window periods : nat) (phase : R) :
  (0 < cycles)%nat → (2 * cycles < window)%nat → (0 < periods)%nat →
  let xs := sine_wave cycles window (window * periods) phase in
  ∃ peak,
    exec (call (Array1 xs)) (CrestFactor_init sr None None)
    = Ok [sqrt 2 * peak]
    ∧ peak ∈ map Rabs xs ∧ Forall (λ x, Rabs x <= peak) xs ∧ peak <= 1
    ∧ (cycles = 1%nat → cos (PI / INR window) <= peak).
Proof.
  intros Hc Hw Hp xs.
  assert (cycles = 1%nat → ∃ x, x ∈ xs ∧ cos (PI / INR window) <= Rabs x)
    as Hnear.
  { intros ->.
    destruct (sample_near_crest window phase ltac:(lia)) as (i & Hi & Hcos).
    eexists. split; [|exact Hcos].
    unfold xs, sine_wave. apply list_elem_of_fmap. exists i.
    split; [reflexivity|]. apply elem_of_seq. nia. }
  pose proof (sine_mean_square cycles window periods phase Hc Hw Hp)
    as Hmean. fold xs in Hmean.
  pose proof (sine_wave_length cycles window (window * periods) phase)
    as Hlen. fold xs in Hlen.
  assert (∀ x, x ∈ xs → Rabs x <= 1) as Hbound
    by (intros x; apply sine_wave_bound).
  clearbody xs.
  destruct xs as [|x0 xs]; [cbn in Hlen; nia|].
  destruct (real_min_max_answers "min" x0 xs) as (mn & i & Hmn).
  destruct (real_min_max_answers "max" x0 xs) as (mx & j & Hmx).
  destruct (real_minimum _ _ _ Hmn) as [Hmn_in Hmn_low].
  destruct (real_maximum _ _ _ Hmx) as [Hmx_in Hmx_high].
  exists (py_max (Rabs mn) (Rabs mx)).
  pose proof Rlt_sqrt2_0 as Hsqrt2.
  assert (sqrt (/ 2) = / sqrt 2) as Hhalf by apply sqrt_inv.
  assert (Forall (λ x, Rabs x <= py_max (Rabs mn) (Rabs mx)) (x0 :: xs))
    as Hall.
  { rewrite py_max_Rmax. apply Forall_forall. intros x Hx.
    apply RmaxAbs.
    - rewrite Forall_forall in Hmn_low. apply Hmn_low, Hx.
    - rewrite Forall_forall in Hmx_high. apply Hmx_high, Hx. }
  split; [|split; [|split; [|split]]].
  - rewrite (crest_factor_whole sr None (Array1 (x0 :: xs))
               (sqrt (/ 2)) mn mx i j).
    + f_equal. f_equal.
      change (py_max (Rabs mn) (Rabs mx) / sqrt (/ 2)
              = sqrt 2 * py_max (Rabs mn) (Rabs mx)).
      rewrite Hhalf. generalize (py_max (Rabs mn) (Rabs mx)). intros peak.
      field. lra.
    + cbn. rewrite <- Hmean. reflexivity.
    + exact Hmn.
    + exact Hmx.
    + cbn. unfold real_is_zero. destruct (Req_dec_T _ _) as [E|]; [|done].
      rewrite Hhalf in E. pose proof (Rinv_0_lt_compat _ Hsqrt2). lra.
  - unfold py_max. destruct (fgtb _ _).
    + apply list_elem_of_fmap. exists mx. split; [reflexivity|assumption].
    + apply list_elem_of_fmap. exists mn. split; [reflexivity|assumption].
  - exact Hall.
  - rewrite py_max_Rmax. apply Rmax_lub; apply Hbound; assumption.
  - intros Hone. destruct (Hnear Hone) as (x & Hx & Hcos).
    rewrite Forall_forall in Hall. specialize (Hall x Hx). lra.
Qed.
End SampledSine.

(** *** The crest factor of the whole signal *)

Section CrestFactorWhole.
Context {F : Type} `{Scalar F} `{Toolkit F}.

Lemma crest_factor_whole_cases (sr : F) st audio r mn mx i j :
  es_RMS audio = Ok r →
  es_MinMax "min" audio = Ok (mn, i) →
  es_MinMax "max" audio = Ok (mx, j) →
  exec (call audio) (CrestFactor_init sr None st)
  = if fis_zero r then Raise ZeroDivisionError
    else Ok [fdiv (if fgtb (fabs mx) (fabs mn) then fabs mx else fabs mn) r].
Proof.
  intros Hr Hmn Hmx. rewrite exec_call.
  cbn [cls CrestFactor_init set_feature_names set_frame_size
    ExtractorBase_init].
  rewrite exec_CrestFactor_whole by reflexivity.
  unfold crest_of. rewrite Hr, Hmn, Hmx. cbn [mbind result_bind rbind].
  unfold py_truediv, py_max. destruct (fis_zero r); reflexivity.
Qed.
End CrestFactorWhole.

(** Two samples of silence have a root mean square of zero, and
    [CrestFactor] returns no number for them: it raises. *)
Lemma silence_has_no_crest_factor :
  es_RMS silence_mono = Ok (num 0 1)
  ∧ exec (call silence_mono) (CrestFactor_init rate None None)
    = Raise ZeroDivisionError
  ∧ ∀ c, exec (call silence_mono) (CrestFactor_init rate None None)
         ≠ Ok [c].
Proof.
  split; [vm_compute; reflexivity|].
  assert (exec (call silence_mono) (CrestFactor_init rate None None)
          = Raise ZeroDivisionError) as Hx by (vm_compute; reflexivity).
  split; [exact Hx|]. intros c. rewrite Hx. discriminate.
Qed.

(** C8, as the code has it.  Without a frame size [CrestFactor]
    aggregates nothing.  When the root mean square of the whole buffer
    is not zero it returns one number: the absolute minimum, or the
    absolute maximum if that is greater, over the root mean square.  When
    the root mean square is zero it raises [ZeroDivisionError].
    In exact arithmetic, a unit sine sampled over whole cycles at more
    than two samples to the cycle and from any phase has the crest factor
    [sqrt 2] times its largest absolute sample: never more than [sqrt 2],
    and with [window] samples to the cycle not less than
    [sqrt 2 * cos (PI / window)].  Sampled at its zeros and extremes, and
    with a root mean square rounded to [2^-32], the number squared is
    within [10^-8] of 2. *)
Theorem crest_factor_whole_signal :
  (∀ (F : Type) (S : Scalar F) (T : Toolkit F)
     (sr : F) (st : option (list string)) (audio : ndarray F)
     (r mn mx : F) (i j : Z),
     es_RMS audio = Ok r →
     es_MinMax "min" audio = Ok (mn, i) →
     es_MinMax "max" audio = Ok (mx, j) →
     let peak := if fgtb (fabs mx) (fabs mn) then fabs mx else fabs mn in
     exec (call audio) (CrestFactor_init sr None st)
     = if fis_zero r then Raise ZeroDivisionError else Ok [fdiv peak r])
  ∧ (∀ (sr : R) (cycles window periods : nat) (phase : R),
       (0 < cycles)%nat → (2 * cycles < window)%nat → (0 < periods)%nat →
       let xs := sine_wave cycles window (window * periods) phase in
       ∃ peak : R,
         exec (call (Array1 xs)) (CrestFactor_init sr None None)
         = Ok [(sqrt 2 * peak)%R]
         ∧ peak ∈ map Rabs xs ∧ Forall (λ x, (Rabs x <= peak)%R) xs
         ∧ (peak <= 1)%R
         ∧ (cycles = 1%nat → (cos (PI / INR window) <= peak)%R))
  ∧ ∃ c : Q,
      (Qabs (c * c - 2) < 1 # 100000000)%Q
      ∧ ∀ p, (0 < p)%nat →
          exec (call (Array1 (sine_periods p)))
               (CrestFactor_init rate None None)
          = Ok [Fin c].
Proof.
  split; [|split].
  - intros. eapply crest_factor_whole_cases; eassumption.
  - intros sr cycles window periods phase Hc Hw Hp.
    exact (sine_crest sr cycles window periods phase Hc Hw Hp).
  - exists (4294967296 # 3037000499)%Q.
    split; [vm_compute; reflexivity|].
    intros p Hp. destruct (sine_extremes p Hp) as [Hmin Hmax].
    rewrite (crest_factor_whole rate None _ _ _ _ _ _
               (sine_rms p Hp) Hmin Hmax) by reflexivity.
    reflexivity.
Qed.

(** The buffer whose minimum is the larger in absolute value and the one
    whose maximum is have the crest factor seven fifths; the sine of one
    cycle in eight samples has a largest sample between [cos (PI / 8)] and
    one. *)
Lemma crest_factor_on_lopsided_buffers :
  exec (call low_heavy) (CrestFactor_init rate None None) = Ok [num 7 5]
  ∧ exec (call high_heavy) (CrestFactor_init rate None None) = Ok [num 7 5]
  ∧ ∃ peak : R,
      exec (call (Array1 (sine_wave 1 8 8 0)))
           (CrestFactor_init 44100%R None None)
      = Ok [(sqrt 2 * peak)%R]
      ∧ (cos (PI / INR 8) <= peak <= 1)%R.
Proof.
  split; [|split].
  - assert (exec (call low_heavy) (CrestFactor_init rate None None)
            = Ok [num 7 5]) as Hrun by (vm_compute; reflexivity).
    assert (es_RMS low_heavy = Ok (num 5 8)) as Hr
      by (vm_compute; reflexivity).
    assert (es_MinMax "min" low_heavy = Ok (num (-7) 8, 1))
      as Hmn by (vm_compute; reflexivity).
    assert (es_MinMax "max" low_heavy = Ok (num 1 8, 0))
      as Hmx by (vm_compute; reflexivity).
    rewrite (proj1 crest_factor_whole_signal _ _ _ rate None low_heavy
               _ _ _ _ _ Hr Hmn Hmx) in Hrun |- *.
    exact Hrun.
  - assert (exec (call high_heavy) (CrestFactor_init rate None None)
            = Ok [num 7 5]) as Hrun by (vm_compute; reflexivity).
    assert (es_RMS high_heavy = Ok (num 5 8)) as Hr
      by (vm_compute; reflexivity).
    assert (es_MinMax "min" high_heavy = Ok (num (-1) 8, 1))
      as Hmn by (vm_compute; reflexivity).
    assert (es_MinMax "max" high_heavy = Ok (num 7 8, 0))
      as Hmx by (vm_compute; reflexivity).
    rewrite (proj1 crest_factor_whole_signal _ _ _ rate None high_heavy
               _ _ _ _ _ Hr Hmn Hmx) in Hrun |- *.
    exact Hrun.
  - destruct (proj1 (proj2 crest_factor_whole_signal) 44100%R 1%nat 8%nat
                1%nat 0%R ltac:(lia) ltac:(lia) ltac:(lia))
      as (peak & Hx & _ & _ & Hone & Hcos).
    exists peak. split; [exact Hx|]. split; [exact (Hcos eq_refl) | exact Hone].
Defined.

(** * Further properties of the methods *)

(** ** Pools *)

Section Pools.
Context {F : Type} `{Scalar F} `{Toolkit F}.

Lemma pool_extend_insert (key : string) (vs : list F) pool :
  vs ≠ [] →
  pool_extend key vs pool = <[key := default [] (pool !! key) ++ vs]> pool.
Proof.
  revert pool. induction vs as [|v vs IH]; intros pool Hvs; [done|].
  unfold pool_extend. cbn [fold_left].
  destruct vs as [|v' vs]; [reflexivity|].
  fold (pool_extend key (v' :: vs) (pool_add key v pool)).
  rewrite IH by done. unfold pool_add.
  rewrite lookup_insert_eq, insert_insert_eq. cbn [default Datatypes.id].
  rewrite <- app_assoc. reflexivity.
Qed.

Lemma pool_extend_empty (key : string) (vs : list F) :
  pool_extend key vs ∅ = pool_of key vs.
Proof.
  destruct vs as [|v vs]; [reflexivity|].
  rewrite pool_extend_insert by done.
  rewrite lookup_empty. reflexivity.
Qed.

Lemma pool_get_lookup {V} key (p : gmap string V) v :
  pool_get key p = Ok v ↔ p !! key = Some v.
Proof.
  unfold pool_get. destruct (p !! key); split; congruence.
Qed.

Lemma rbind_ret {A} (m : result A) : m ≫= (λ a, Ok a) = m.
Proof. destruct m; reflexivity. Qed.

Lemma rmap_Forall2 {A B} (f : A → result B) xs ys :
  rmap f xs = Ok ys → Forall2 (λ x y, f x = Ok y) xs ys.
Proof.
  revert ys. induction xs as [|x xs IH]; intros ys; cbn.
  - intros [= <-]. constructor.
  - destruct (f x) as [y|] eqn:Hy; cbn; [|discriminate].
    destruct (rmap f xs) as [ys'|]; cbn; [|discriminate].
    intros [= <-]. constructor; [exact Hy | apply IH; reflexivity].
Qed.
End Pools.

(** ** The layout of the headers *)

Section HeaderLayout.
Context {F : Type} `{Scalar F} `{Toolkit F}.

(** X1. [get_headers] on an object that pools and has its statistics
    returns one header per feature and statistic: the list is as long as
    the product of the two counts, the header of statistic [i] of feature
    [j] is at position [j * len(stats) + i], so all the statistics of one
    feature come before the next feature, in the declared order, and it
    reads feature name, separator, statistic name. *)
Theorem headers_feature_major
    (self : instance F) (join : string) (st : list string) :
  pooling self = true → stats self = Some st →
  ∃ hs, exec (get_headers join) self = Ok hs
    ∧ length hs = (length (feature_names self) * length st)%nat
    ∧ ∀ j i feature stat,
        feature_names self !! j = Some feature → st !! i = Some stat →
        hs !! (j * length st + i)%nat = Some (feature +:+ join +:+ stat).
Proof.
  intros Hp Hst. exists (headers_of self join st).
  split; [apply exec_get_headers, Hst|]. split.
  - rewrite headers_of_length, Hp. reflexivity.
  - intros j i feature stat Hj Hi. apply headers_of_lookup; assumption.
Qed.
End HeaderLayout.

(** ** CrestFactor, framed mode *)

Section CrestFactorFramed.
Context {F : Type} `{Scalar F} `{Toolkit F}.

Lemma exec_CrestFactor_framed (self : instance F) audio k :
  frame_size self = Some k → k ≠ 0 →
  exec (CrestFactor_call audio) self
  = (st ← exec self_stats self;
     pool_agg ← es_PoolAggregator st;
     frames ← es_FrameGenerator audio k k;
     crests ← rmap (λ frame, crest_of (Array1 frame)) frames;
     agg ← pool_agg (pool_of "crest_factor" crests);
     rmap (λ stat, pool_get ("crest_factor." +:+ stat) agg) st).
Proof.
  intros Hfs Hk. unfold CrestFactor_call.
  exec_norm. rewrite Hfs. cbn [truthy].
  destruct (Z.eqb_spec k 0) as [|_]; [contradiction|]. cbn [negb].
  exec_norm.
  destruct (stats self) as [st|] eqn:Hst; exec_norm; [|reflexivity].
  destruct (es_PoolAggregator st) as [pool_agg|]; exec_norm; [|reflexivity].
  rewrite Hfs. cbn [as_int]. rewrite !rbind_ok.
  destruct (es_FrameGenerator audio k k) as [frames|]; exec_norm;
    [|reflexivity].
  rewrite (rfold_rmap (λ frame, crest_of (Array1 frame))
             (λ pool v, pool_add "crest_factor" v pool)).
  destruct (rmap _ frames) as [crests|]; exec_norm; [|reflexivity].
  change (fold_left _ crests ∅) with (pool_extend "crest_factor" crests ∅).
  rewrite pool_extend_empty.
  destruct (pool_agg _) as [agg|]; exec_norm; [|reflexivity].
  rewrite Hst. exec_norm. reflexivity.
Qed.

Lemma crest_of_peak_over_rms (v : ndarray F) : crest_of v = peak_over_rms v.
Proof.
  unfold crest_of, peak_over_rms.
  destruct (es_RMS v) as [r|]; [|reflexivity]. rewrite !rbind_ok.
  destruct (es_MinMax "min" v) as [[mn i]|]; [|reflexivity].
  rewrite !rbind_ok.
  destruct (es_MinMax "max" v) as [[mx j]|]; reflexivity.
Qed.

Lemma pool_get_mean_stdev (feature : string) (agg : gmap string F) :
  (mean ← pool_get (feature +:+ ".mean") agg;
   stdev ← pool_get (feature +:+ ".stdev") agg;
   Ok [mean; stdev])
  = mean_and_stdev feature agg.
Proof.
  unfold pool_get, mean_and_stdev.
  destruct (agg !! (feature +:+ ".mean")); [|reflexivity].
  destruct (agg !! (feature +:+ ".stdev")); reflexivity.
Qed.

(** X2. With a frame size [k] other than zero, [CrestFactor] asks the
    frame generator for frames of [k] samples every [k] samples, takes the
    crest factor -- the larger of the absolute minimum and the absolute
    maximum over the root mean square, [ZeroDivisionError] when that is
    zero -- of every frame, in frame order, and returns the aggregate of
    those numbers under the default statistics, the mean first and the
    standard deviation second.  If there is no frame the aggregator is
    given the empty pool. *)
Theorem crest_factor_framed (sr : F) (k : Z) (audio : ndarray F) :
  k ≠ 0 →
  exec (call audio) (new CrestFactor sr (Some k) None)
  = (pool_agg ← es_PoolAggregator ["mean"; "stdev"];
     frames ← es_FrameGenerator audio k k;
     crests ← rmap (λ frame, peak_over_rms (Array1 frame)) frames;
     agg ← pool_agg (pool_of "crest_factor" crests);
     mean_and_stdev "crest_factor" agg).
Proof.
  intros Hk. rewrite exec_call. cbn [new cls CrestFactor_init
    set_feature_names set_frame_size ExtractorBase_init].
  rewrite (exec_CrestFactor_framed _ audio k) by (reflexivity || assumption).
  exec_norm. cbn [stats CrestFactor_init set_feature_names set_frame_size
    ExtractorBase_init]. rewrite ?rbind_ok.
  destruct (es_PoolAggregator _) as [pool_agg|]; [|reflexivity].
  rewrite !rbind_ok.
  destruct (es_FrameGenerator audio k k) as [frames|]; [|reflexivity].
  rewrite !rbind_ok.
  rewrite (rmap_ext _ (λ frame, peak_over_rms (Array1 frame)))
    by (intros frame; apply crest_of_peak_over_rms).
  destruct (rmap _ frames) as [crests|]; [|reflexivity].
  rewrite !rbind_ok.
  destruct (pool_agg _) as [agg|]; [|reflexivity].
  rewrite !rbind_ok. rewrite <- pool_get_mean_stdev. cbn [rmap].
  change ("crest_factor." +:+ "mean") with ("crest_factor" +:+ ".mean").
  change ("crest_factor." +:+ "stdev") with ("crest_factor" +:+ ".stdev").
  destruct (pool_get ("crest_factor" +:+ ".mean") agg); [|reflexivity].
  rewrite !rbind_ok.
  destruct (pool_get ("crest_factor" +:+ ".stdev") agg); reflexivity.
Qed.
End CrestFactorFramed.

(** ** PhaseCorrelation: no slice, one slice *)

Section PhaseCorrelationEdges.
Context {F : Type} `{Scalar F} `{Toolkit F}.

Lemma exec_PhaseCorrelation_new (sr : F) (k : Z) (audio : ndarray F) :
  k ≠ 0 →
  exec (call audio) (new PhaseCorrelation sr (Some k) None)
  = (idx ← slice_indices (shape0 audio) k;
     cs ← rmap (slice_correlation audio) (adjacent idx);
     pool_agg ← es_PoolAggregator ["mean"; "stdev"];
     agg ← pool_agg (pool_of "phase_correlation" cs);
     mean ← pool_get "phase_correlation.mean" agg;
     stdev ← pool_get "phase_correlation.stdev" agg;
     Ok [mean; stdev]).
Proof.
  intros Hk. rewrite exec_call. cbn [new cls PhaseCorrelation_init
    set_feature_names set_frame_size ExtractorBase_init].
  rewrite (exec_PhaseCorrelation_framed _ audio k "phase_correlation" [])
    by (reflexivity || assumption).
  destruct (slice_indices _ k) as [idx|]; [|reflexivity].
  rewrite !rbind_ok.
  destruct (rmap _ (adjacent idx)) as [cs|]; [|reflexivity].
  rewrite !rbind_ok. exec_norm. cbn [stats PhaseCorrelation_init
    set_feature_names set_frame_size ExtractorBase_init]. rewrite ?rbind_ok.
  destruct (es_PoolAggregator _) as [pool_agg|]; [|reflexivity].
  rewrite !rbind_ok.
  change (fold_left _ cs ∅) with (pool_extend "phase_correlation" cs ∅).
  rewrite pool_extend_empty.
  destruct (pool_agg _) as [agg|]; [|reflexivity].
  rewrite !rbind_ok. cbn [rmap].
  change ("phase_correlation" +:+ "." +:+ "mean")
    with "phase_correlation.mean".
  change ("phase_correlation" +:+ "." +:+ "stdev")
    with "phase_correlation.stdev".
  destruct (pool_get "phase_correlation.mean" agg); [|reflexivity].
  rewrite !rbind_ok.
  destruct (pool_get "phase_correlation.stdev" agg); reflexivity.
Qed.

Lemma exec_PhaseCorrelation_whole (self : instance F) audio :
  truthy (frame_size self) = false →
  exec (PhaseCorrelation_call audio) self
  = (l ← np_col 0 audio; r ← np_col 1 audio;
     correlation_matrix ← np_corrcoef l r;
     Ok [c01 correlation_matrix]).
Proof.
  intros Hfs. unfold PhaseCorrelation_call. exec_norm. rewrite Hfs.
  exec_norm.
  destruct (np_col 0 audio) as [l|]; exec_norm; [|reflexivity].
  destruct (np_col 1 audio) as [r|]; exec_norm; [|reflexivity].
  destruct (np_corrcoef l r) as [cm|]; exec_norm; reflexivity.
Qed.

Lemma shape0_nonneg (audio : ndarray F) : 0 ≤ shape0 audio.
Proof. destruct audio; cbn; lia. Qed.

(** X3. A negative frame size is not refused, and neither is an empty
    buffer with a positive one: [range] is empty, no slice is taken and no
    column of the buffer is read, so the outcome is what the aggregator
    makes of the empty pool -- the same for every buffer, a mono one
    included. *)
Theorem phase_correlation_no_slice (sr : F) (k : Z) (audio : ndarray F) :
  k < 0 ∨ (0 < k ∧ shape0 audio = 0) →
  exec (call audio) (new PhaseCorrelation sr (Some k) None)
  = (pool_agg ← es_PoolAggregator ["mean"; "stdev"];
     agg ← pool_agg ∅;
     mean ← pool_get "phase_correlation.mean" agg;
     stdev ← pool_get "phase_correlation.stdev" agg;
     Ok [mean; stdev]).
Proof.
  intros Hk. rewrite exec_PhaseCorrelation_new by lia.
  pose proof (shape0_nonneg audio) as Hn.
  destruct Hk as [Hk|[Hk Hz]].
  - destruct (slice_indices_negative _ _ Hk Hn) as [-> _]. reflexivity.
  - destruct (slice_indices_bounds _ _ Hk Hn) as (idx & -> & _ & Hadj).
    rewrite rbind_ok, Hadj, Hz. unfold frame_bounds.
    destruct (frame_count_spec 0 k Hk ltac:(lia)) as (_ & _ & Hzero & _).
    specialize (Hzero eq_refl).
    replace (frame_count 0 k) with 0%nat by lia. reflexivity.
Qed.

Lemma whole_slice (audio : ndarray F) :
  slice_correlation audio (0, shape0 audio)
  = (l ← np_col 0 audio; r ← np_col 1 audio;
     correlation_matrix ← np_corrcoef l r;
     Ok (c01 correlation_matrix)).
Proof.
  unfold slice_correlation. destruct audio as [xs|c rows]; [reflexivity|].
  cbn [fst snd np_slice_col np_col shape0].
  change 0 with (Z.of_nat 0). rewrite py_slice_nat by lia.
  rewrite drop_0, Nat.sub_0_r, firstn_all. reflexivity.
Qed.

Lemma frame_bounds_one (n k : Z) : 0 < n ≤ k → frame_bounds n k = [(0, n)].
Proof.
  intros Hnk. unfold frame_bounds, frame_count.
  replace ((n + k - 1) / k) with 1.
  - change (Z.to_nat 1) with 1%nat. cbn [seq map]. f_equal. f_equal; lia.
  - apply Z.div_unique with (r := n - 1); lia.
Qed.

(** X4. A frame size that is at least the number of rows gives one slice,
    the whole buffer: the only number pooled is the correlation that the
    unframed mode returns, and the result is the aggregate of that one
    number. *)
Theorem phase_correlation_one_slice (sr : F) (k : Z) (audio : ndarray F) :
  0 < shape0 audio ≤ k →
  exec (call audio) (new PhaseCorrelation sr (Some k) None)
  = (whole ← exec (call audio) (new PhaseCorrelation sr None None);
     pool_agg ← es_PoolAggregator ["mean"; "stdev"];
     agg ← pool_agg {[ "phase_correlation" := whole ]};
     mean ← pool_get "phase_correlation.mean" agg;
     stdev ← pool_get "phase_correlation.stdev" agg;
     Ok [mean; stdev]).
Proof.
  intros Hnk. rewrite exec_PhaseCorrelation_new by lia.
  destruct (slice_indices_bounds (shape0 audio) k) as (idx & -> & _ & Hadj);
    [lia | lia |].
  rewrite rbind_ok, Hadj, frame_bounds_one by lia.
  cbn [rmap]. rewrite whole_slice.
  rewrite exec_call. cbn [new cls PhaseCorrelation_init set_feature_names
    set_frame_size ExtractorBase_init].
  rewrite exec_PhaseCorrelation_whole by reflexivity.
  destruct (np_col 0 audio) as [l|]; [|reflexivity]. rewrite !rbind_ok.
  destruct (np_col 1 audio) as [r|]; [|reflexivity]. rewrite !rbind_ok.
  destruct (np_corrcoef l r) as [cm|]; reflexivity.
Qed.
End PhaseCorrelationEdges.

(** ** PhaseCorrelation, framed mode *)

Section PhaseCorrelationClaim.
Context {F : Type} `{Scalar F} `{Toolkit F}.

(** C7. With a frame size [k > 0], the slices [PhaseCorrelation] takes
    are the partition of the buffer into contiguous runs of [k] rows, the
    last one possibly shorter and ending at the end of the buffer: laid
    end to end they are the buffer, so every sample is in exactly one
    slice and none is dropped.  The correlation of the two channels over
    each slice, in slice order, is what the pool holds under
    ["phase_correlation"] -- nothing at all when there is no slice -- and
    the result is the mean and the standard deviation that the aggregator
    reports for that pool. *)
Theorem phase_correlation_framed
    (sr : F) (k : Z) (c : nat) (rows : list (list F)) :
  0 < k → (2 ≤ c)%nat →
  let audio := Array2 c rows in
  let n := Z.of_nat (length rows) in
  let self := PhaseCorrelation_init sr (Some k) None in
  let bounds := frame_bounds n k in
  let correlation '(x1, x2) :=
    m ← np_corrcoef
           (map (λ r, default (of_Z 0) (r !! 0%nat)) (py_slice x1 x2 rows))
           (map (λ r, default (of_Z 0) (r !! 1%nat)) (py_slice x1 x2 rows));
    Ok (c01 m) in
  slice_indices (shape0 audio) k ≫= (λ idx, Ok (adjacent idx)) = Ok bounds
  ∧ concat (map (λ '(x1, x2), py_slice x1 x2 rows) bounds) = rows
  ∧ (∀ i x1 x2, bounds !! i = Some (x1, x2) →
       x1 = Z.of_nat i * k ∧ 0 ≤ x1 < x2 ∧ x2 ≤ n ∧ x2 - x1 ≤ k
       ∧ ((S i < length bounds)%nat → x2 - x1 = k)
       ∧ (S i = length bounds → x2 = n))
  ∧ exec (call audio) self
    = (cs ← rmap correlation bounds;
       pool_agg ← es_PoolAggregator ["mean"; "stdev"];
       agg ← pool_agg
               match cs with
               | [] => ∅
               | _ => {[ "phase_correlation" := cs ]}
               end;
       match agg !! "phase_correlation.mean",
             agg !! "phase_correlation.stdev" with
       | Some mean, Some stdev => Ok [mean; stdev]
       | _, _ => Raise KeyError
       end).
Proof.
  intros Hk Hc audio n self bounds correlation.
  assert (0 ≤ n) as Hn by (unfold n; lia).
  destruct (slice_indices_bounds n k Hk Hn) as (idx & Hidx & Hlen & Hadj).
  assert (length bounds = frame_count n k) as Hcount.
  { unfold bounds, frame_bounds. rewrite length_map, length_seq.
    reflexivity. }
  split; [|split; [|split]].
  - change (shape0 audio) with n. rewrite Hidx, rbind_ok, Hadj. reflexivity.
  - apply frame_bounds_partition, Hk.
  - intros i x1 x2 Hb. rewrite Hcount.
    pose proof (frame_bounds_lookup _ _ _ _ _ Hb) as (Hx1 & _ & _).
    pose proof (frame_bounds_sizes _ _ _ _ _ Hk Hn Hb). tauto.
  - unfold self. change (PhaseCorrelation_init sr (Some k) None)
      with (new PhaseCorrelation sr (Some k) None).
    rewrite exec_PhaseCorrelation_new by lia.
    change (shape0 audio) with n. rewrite Hidx, rbind_ok, Hadj.
    fold bounds.
    rewrite (rmap_ext (slice_correlation audio) correlation).
    2:{ intros [x1 x2]. unfold slice_correlation, correlation, audio,
          np_slice_col. cbn [fst snd].
        destruct (decide (0 < c)%nat); [|lia].
        destruct (decide (1 < c)%nat); [|lia].
        reflexivity. }
    destruct (rmap correlation bounds) as [cs|]; [|reflexivity].
    rewrite !rbind_ok.
    destruct (es_PoolAggregator _) as [pool_agg|]; [|reflexivity].
    rewrite !rbind_ok. change (pool_of "phase_correlation" cs)
      with (match cs with
            | [] => ∅
            | _ => {[ "phase_correlation" := cs ]}
            end : gmap string (list F)).
    destruct (pool_agg _) as [agg|]; [|reflexivity].
    rewrite !rbind_ok.
    exact (pool_get_mean_stdev "phase_correlation" agg).
Qed.
End PhaseCorrelationClaim.

(** ** DynamicSpread *)

Section DynamicSpreadValue.
Context {F : Type} `{Scalar F} `{Toolkit F}.

(** The loop over the frames, which threads the state of the one
    [LoudnessVickers] object, pools the loudness of each frame in frame
    order. *)
Lemma vickers_loop {B} (frames : list (list F)) pool state
    (K : gmap string (list F) * vickers_state → result B)
    (k : gmap string (list F) → result B) :
  (∀ p s, K (p, s) = k p) →
  (rfold (λ '(pool, vickers_loudness) frame,
            '(frame_loudness, vickers_loudness) ←
              vickers_compute vickers_loudness frame;
            Ok (pool_add "vdb" frame_loudness pool, vickers_loudness))
         frames (pool, state)
   ≫= K)
  = (vdbs ← vickers_run state frames; k (pool_extend "vdb" vdbs pool)).
Proof.
  intros HK. revert pool state. induction frames as [|frame frames IH];
    intros pool state; [apply HK|].
  cbn [rfold vickers_run].
  destruct (vickers_compute state frame) as [[loudness state']|];
    [|reflexivity].
  rewrite !rbind_ok. rewrite IH.
  destruct (vickers_run state' frames); reflexivity.
Qed.

Lemma exec_DynamicSpread (self : instance F) audio k :
  frame_size self = Some k →
  exec (DynamicSpread_call audio) self
  = (pool_agg ← es_PoolAggregator ["mean"];
     frames ← es_FrameGenerator audio k k;
     vdbs ← vickers_run es_LoudnessVickers frames;
     agg ← pool_agg (pool_of "vdb" vdbs);
     vickers_mean ← pool_get "vdb.mean" agg;
     match vdbs with
     | [] => Raise KeyError
     | _ => Ok [fdiv (absolute_deviations vdbs vickers_mean)
                     (of_Z (Z.of_nat (length vdbs)))]
     end).
Proof.
  intros Hfs. unfold DynamicSpread_call. exec_norm.
  destruct (es_PoolAggregator ["mean"]) as [pool_agg|]; exec_norm;
    [|reflexivity].
  rewrite Hfs. cbn [as_int]. rewrite !rbind_ok.
  destruct (es_FrameGenerator audio k k) as [frames|]; exec_norm;
    [|reflexivity].
  erewrite vickers_loop; [|intros p s; cbn beta iota; reflexivity].
  destruct (vickers_run _ frames) as [vdbs|]; [|reflexivity].
  rewrite !rbind_ok, pool_extend_empty. exec_norm.
  destruct (pool_agg _) as [agg|]; exec_norm; [|reflexivity].
  destruct (pool_get "vdb.mean" agg) as [m|]; exec_norm; [|reflexivity].
  destruct vdbs as [|v vdbs]; [reflexivity|].
  cbn [pool_of]. unfold pool_get. rewrite lookup_singleton_eq.
  exec_norm. reflexivity.
Qed.

(** X5. [DynamicSpread] is the mean absolute deviation of the per-frame
    Vickers loudness from the mean the aggregator reports: the frames are
    [frame_size] samples long and [frame_size] apart, one
    [LoudnessVickers] object meters them in order, carrying its state from
    frame to frame, the readings are pooled under ["vdb"], and the sum of
    [|vdb - mean|] is divided by the number of frames.  The constructor's
    [stats] argument has no part in it.  With no frame at all the pool
    has no ["vdb"] and reading it raises [KeyError], so the division is
    never one by zero. *)
Theorem dynamic_spread_value
    (sr : F) (k : Z) (st : option (list string)) (audio : ndarray F) :
  exec (call audio) (new DynamicSpread sr (Some k) st)
  = (pool_agg ← es_PoolAggregator ["mean"];
     frames ← es_FrameGenerator audio k k;
     vdbs ← vickers_run es_LoudnessVickers frames;
     agg ← pool_agg (pool_of "vdb" vdbs);
     vickers_mean ← pool_get "vdb.mean" agg;
     match vdbs with
     | [] => Raise KeyError
     | _ => Ok [fdiv (absolute_deviations vdbs vickers_mean)
                     (of_Z (Z.of_nat (length vdbs)))]
     end).
Proof.
  rewrite exec_call. cbn [new cls DynamicSpread_init set_feature_names
    set_frame_size ExtractorBase_init].
  apply exec_DynamicSpread. reflexivity.
Qed.

(** X6. On a buffer that gives the frame generator no frame,
    [DynamicSpread] does not return: when the aggregator accepts the
    empty pool the exception is [KeyError]. *)
Theorem dynamic_spread_no_frame
    (sr : F) (k : Z) (st : option (list string)) (audio : ndarray F) :
  es_FrameGenerator audio k k = Ok [] →
  is_ok (exec (call audio) (new DynamicSpread sr (Some k) st)) = false
  ∧ ∀ pool_agg agg,
      es_PoolAggregator ["mean"] = Ok pool_agg → pool_agg ∅ = Ok agg →
      exec (call audio) (new DynamicSpread sr (Some k) st) = Raise KeyError.
Proof.
  intros Hframes. rewrite exec_call. cbn [new cls DynamicSpread_init
    set_feature_names set_frame_size ExtractorBase_init].
  rewrite (exec_DynamicSpread _ audio k) by reflexivity.
  rewrite Hframes. split.
  - destruct (es_PoolAggregator ["mean"]) as [pool_agg|]; [|reflexivity].
    rewrite !rbind_ok. cbn [vickers_run]. rewrite ?rbind_ok.
    cbn [pool_of].
    destruct (pool_agg ∅) as [agg|]; [|reflexivity].
    rewrite rbind_ok. destruct (pool_get "vdb.mean" agg); reflexivity.
  - intros pool_agg agg -> Hagg. rewrite !rbind_ok.
    cbn [vickers_run]. rewrite ?rbind_ok. cbn [pool_of].
    rewrite Hagg, rbind_ok. unfold pool_get.
    destruct (agg !! "vdb.mean"); reflexivity.
Qed.
End DynamicSpreadValue.

Section DynamicSpreadConstant.
Context {F : Type} `{ScalarLaws F} `{Toolkit F}.

Lemma absolute_deviations_zero (vdbs : list F) (mean : F) :
  Forall (λ vdb, fabs (fsub vdb mean) = fzero) vdbs →
  absolute_deviations vdbs mean = fzero.
Proof.
  unfold absolute_deviations. induction 1 as [|vdb vdbs Hv _ IH];
    [reflexivity|].
  cbn [fold_left]. rewrite Hv. unfold fzero at 1 2. rewrite fadd_zero.
  exact IH.
Qed.

(** X7. When every frame has the loudness that the aggregator reports as
    the mean, the dynamic spread is exactly zero. *)
Theorem dynamic_spread_constant
    (sr : F) (k : Z) (st : option (list string)) (audio : ndarray F)
    pool_agg frames vdbs agg mean :
  es_PoolAggregator ["mean"] = Ok pool_agg →
  es_FrameGenerator audio k k = Ok frames →
  vickers_run es_LoudnessVickers frames = Ok vdbs → vdbs ≠ [] →
  pool_agg {[ "vdb" := vdbs ]} = Ok agg → agg !! "vdb.mean" = Some mean →
  Forall (λ vdb, fabs (fsub vdb mean) = fzero) vdbs →
  exec (call audio) (new DynamicSpread sr (Some k) st) = Ok [fzero].
Proof.
  intros Hagg Hframes Hrun Hne Hpool Hmean Hflat.
  rewrite exec_call. cbn [new cls DynamicSpread_init set_feature_names
    set_frame_size ExtractorBase_init].
  rewrite (exec_DynamicSpread _ audio k) by reflexivity.
  rewrite Hagg, rbind_ok, Hframes, rbind_ok, Hrun, rbind_ok.
  destruct vdbs as [|vdb vdbs]; [done|]. cbn [pool_of].
  rewrite Hpool, rbind_ok.
  apply pool_get_lookup in Hmean. rewrite Hmean, rbind_ok.
  rewrite absolute_deviations_zero by assumption.
  unfold fzero. rewrite fdiv_zero_pos by (cbn [length]; lia). reflexivity.
Qed.
End DynamicSpreadConstant.

(** ** Attributes a method does not read *)

(** Two runs of one method body on two objects, step by step: both sides
    take the same step on the same values. *)
Ltac exec_both :=
  repeat first
    [ reflexivity
    | progress exec_norm
    | progress cbn [cls sample_rate pooling feature_names stats frame_size
                    new Spectral_init CrestFactor_init Loudness_init
                    DynamicSpread_init Distortion_init StereoFeatures_init
                    PhaseCorrelation_init set_feature_names set_frame_size
                    ExtractorBase_init truthy negb]
    | match goal with
      | |- (?r ≫= _) = (?r ≫= _) =>
          destruct r; [rewrite !rbind_ok | reflexivity]
      | |- context [match ?x with (_, _) => _ end] => destruct x
      end ].

Section UnreadAttributes.
Context {F : Type} `{Scalar F} `{Toolkit F}.

Lemma pooling_new c (sr : F) fs st :
  pooling (new c sr fs st)
  = match c with
    | Spectral => true
    | CrestFactor | PhaseCorrelation => bool_decide (fs ≠ None)
    | _ => false
    end.
Proof. destruct c; reflexivity. Qed.

(** X8. An extractor that does not pool never reads [self.stats]: the
    constructor's [stats] argument changes neither what [__call__] returns
    or raises nor the headers, which are the feature names for any
    separator. *)
Theorem stats_unread_without_pooling
    (c : kind) (sr : F) (fs : option Z) (st : list string)
    (audio : ndarray F) (join : string) :
  pooling (new c sr fs None) = false →
  exec (call audio) (new c sr fs (Some st))
  = exec (call audio) (new c sr fs None)
  ∧ exec (get_headers join) (new c sr fs (Some st))
    = Ok (feature_names (new c sr fs None)).
Proof.
  intros Hp. split.
  - rewrite !exec_call, !cls_new. rewrite pooling_new in Hp.
    destruct c; try discriminate Hp.
    + apply bool_decide_eq_false in Hp. destruct fs as [k|]; [|clear Hp].
      { exfalso. apply Hp. intros Hn. discriminate Hn. }
      unfold CrestFactor_call. exec_both.
    + unfold Loudness_call. exec_both.
    + unfold DynamicSpread_call. exec_both.
    + unfold Distortion_call. exec_both.
    + unfold StereoFeatures_call. exec_both.
    + apply bool_decide_eq_false in Hp. destruct fs as [k|]; [|clear Hp].
      { exfalso. apply Hp. intros Hn. discriminate Hn. }
      unfold PhaseCorrelation_call. exec_both.
  - rewrite exec_get_headers_flat.
    + destruct c; reflexivity.
    + rewrite pooling_new in *. exact Hp.
Qed.

(** X9. Only [Spectral] and [Loudness] read [self.sample_rate].  The
    other five extractors return or raise the same for every sample rate
    they are constructed with: [DynamicSpread] meters loudness with a
    [LoudnessVickers] that is configured without it. *)
Theorem sample_rate_unread
    (c : kind) (sr1 sr2 : F) (fs : option Z) (st : option (list string))
    (audio : ndarray F) :
  reads_sample_rate c = false →
  exec (call audio) (new c sr1 fs st) = exec (call audio) (new c sr2 fs st).
Proof.
  intros Hc. rewrite !exec_call, !cls_new.
  destruct c; try discriminate Hc.
  - unfold CrestFactor_call. exec_both.
    destruct st, (truthy fs); exec_both.
  - unfold DynamicSpread_call. exec_both.
  - unfold Distortion_call. exec_both.
  - unfold StereoFeatures_call. exec_both.
  - destruct fs as [k|].
    + destruct (decide (k = 0)) as [->|Hk].
      * rewrite !exec_PhaseCorrelation_whole by reflexivity. reflexivity.
      * cbn [new].
        rewrite !(exec_PhaseCorrelation_framed _ audio k
                    "phase_correlation" [])
          by (reflexivity || assumption).
        exec_both.
    + rewrite !exec_PhaseCorrelation_whole by reflexivity. reflexivity.
Qed.
End UnreadAttributes.

(** ** Spectral: the pool behind the aggregate *)

Section FeaturePools.
Context {F : Type} `{Scalar F} `{Toolkit F}.

Lemma pool_add_row_cons n ns (v : F) vs pool :
  pool_add_row (n :: ns) (v :: vs) pool
  = pool_add_row ns vs (pool_add n v pool).
Proof. reflexivity. Qed.

Lemma pool_add_row_other names (row : list F) pool key :
  key ∉ names → pool_add_row names row pool !! key = pool !! key.
Proof.
  revert row pool. induction names as [|n ns IH]; intros row pool Hkey;
    [reflexivity|].
  destruct row as [|v vs]; [reflexivity|].
  apply not_elem_of_cons in Hkey as [Hn Hns].
  rewrite pool_add_row_cons, IH by assumption.
  unfold pool_add. apply lookup_insert_ne. congruence.
Qed.

Lemma pool_add_row_lookup names (row : list F) pool j name v :
  NoDup names → names !! j = Some name → row !! j = Some v →
  pool_add_row names row pool !! name
  = Some (default [] (pool !! name) ++ [v]).
Proof.
  revert row pool j. induction names as [|n ns IH];
    intros row pool j Hnd Hj Hv; [done|].
  destruct row as [|v0 vs]; [done|].
  apply NoDup_cons in Hnd as [Hn Hnd]. rewrite pool_add_row_cons.
  destruct j as [|j]; cbn in Hj, Hv.
  - injection Hj as ->. injection Hv as ->.
    rewrite pool_add_row_other by assumption.
    unfold pool_add. apply lookup_insert_eq.
  - rewrite (IH vs _ j) by assumption.
    unfold pool_add. rewrite lookup_insert_ne; [reflexivity|].
    intros ->. apply Hn. eapply list_elem_of_lookup_2; eauto.
Qed.

Lemma feature_pool_keys names (rows : list (list F)) :
  fst <$> imap (λ (j : nat) (name : string),
                  (name, map (λ row : list F, default fzero (row !! j)) rows))
               names
  = names.
Proof.
  apply list_eq. intros i. rewrite list_lookup_fmap, list_lookup_imap.
  destruct (names !! i); reflexivity.
Qed.

Lemma feature_pool_lookup names (rows : list (list F)) j name :
  NoDup names → rows ≠ [] → names !! j = Some name →
  feature_pool names rows !! name
  = Some (map (λ row, default fzero (row !! j)) rows).
Proof.
  intros Hnd Hne Hj. unfold feature_pool.
  destruct rows as [|r rows]; [done|].
  apply elem_of_list_to_map_1; [rewrite feature_pool_keys; exact Hnd|].
  apply list_elem_of_lookup. exists j.
  rewrite list_lookup_imap, Hj. reflexivity.
Qed.

Lemma feature_pool_other names (rows : list (list F)) key :
  key ∉ names → feature_pool names rows !! key = None.
Proof.
  intros Hk. unfold feature_pool.
  destruct rows as [|r rows]; [apply lookup_empty|].
  apply not_elem_of_list_to_map_1. rewrite feature_pool_keys. exact Hk.
Qed.

(** Adding row after row, name by name, builds the pool that holds
    column [j] of the rows under the [j]-th name. *)
Lemma pool_of_rows names (rows : list (list F)) :
  NoDup names → Forall (λ row, length row = length names) rows →
  fold_left (λ pool row, pool_add_row names row pool) rows ∅
  = feature_pool names rows.
Proof.
  intros Hnd. induction rows as [|row rows IH] using rev_ind; intros Hlen;
    [reflexivity|].
  apply Forall_app in Hlen as [Hrows Hrow].
  apply Forall_cons in Hrow as [Hrow _].
  rewrite fold_left_app. cbn [fold_left]. rewrite IH by assumption.
  apply map_eq. intros key.
  destruct (decide (key ∈ names)) as [Hin|Hout].
  - apply list_elem_of_lookup in Hin as [j Hj].
    assert (is_Some (row !! j)) as [v Hv].
    { apply lookup_lt_is_Some. rewrite Hrow. eapply lookup_lt_Some; eauto. }
    rewrite (pool_add_row_lookup _ _ _ j key v) by assumption.
    rewrite (feature_pool_lookup names (rows ++ [row]) j)
      by (assumption || (destruct rows; discriminate)).
    rewrite map_app. cbn [map]. rewrite Hv. cbn [default].
    destruct rows as [|r rows]; [reflexivity|].
    rewrite (feature_pool_lookup names (r :: rows) j) by (assumption || done).
    reflexivity.
  - rewrite pool_add_row_other, !feature_pool_other by assumption.
    reflexivity.
Qed.

Lemma rmap_Forall {A B} (f : A → result B) (P : B → Prop) xs ys :
  (∀ x y, f x = Ok y → P y) → rmap f xs = Ok ys → Forall P ys.
Proof.
  intros Hf Hxs. apply rmap_Forall2 in Hxs.
  induction Hxs; constructor; eauto.
Qed.
End FeaturePools.

Section SpectralPool.
Context {F : Type} `{Scalar F} `{Toolkit F}.

Lemma spectral_frame_length centroid central_moments harsh low r85 r95
    (frame row : list F) :
  spectral_frame centroid central_moments harsh low r85 r95 frame = Ok row →
  length row = 10%nat.
Proof.
  unfold spectral_frame. intros Hx. exec_inv Hx.
  injection Hx as <-. reflexivity.
Qed.

(** One turn of the loop of [Spectral.__call__]: the ten numbers of the
    frame go to the pool under the ten feature names, in that order. *)
Lemma spectral_body (self : instance F) sr centroid central_moments
    harsh low r85 r95 pool frame :
  self = Spectral_init sr None →
  exec
    (win ← lift (es_Windowing "hann" 2048 frame);
     spec ← lift (es_Spectrum win);
     sc ← lift (centroid spec);
     moments ← lift (central_moments spec);
     '(spread, skewness, kurtosis) ← lift (es_DistributionShape moments);
     spectral_flatness ← lift (es_Flatness spec);
     spectral_entropy ← lift (es_Entropy spec);
     harsh ← lift (harsh spec);
     energy_lf ← lift (low spec);
     roll85 ← lift (r85 spec);
     roll95 ← lift (r95 spec);
     keys ← self_feature_names;
     k ← lift (py_getitem keys 0); let pool := pool_add k roll85 pool in
     k ← lift (py_getitem keys 1); let pool := pool_add k roll95 pool in
     k ← lift (py_getitem keys 2); let pool := pool_add k sc pool in
     k ← lift (py_getitem keys 3); let pool := pool_add k spread pool in
     k ← lift (py_getitem keys 4); let pool := pool_add k skewness pool in
     k ← lift (py_getitem keys 5); let pool := pool_add k kurtosis pool in
     k ← lift (py_getitem keys 6);
     let pool := pool_add k spectral_flatness pool in
     k ← lift (py_getitem keys 7);
     let pool := pool_add k spectral_entropy pool in
     k ← lift (py_getitem keys 8); let pool := pool_add k harsh pool in
     k ← lift (py_getitem keys 9); let pool := pool_add k energy_lf pool in
     mret pool) self
  = (row ← spectral_frame centroid central_moments harsh low r85 r95 frame;
     Ok (pool_add_row (feature_names self) row pool)).
Proof.
  intros ->. unfold spectral_frame.
  repeat (exec_norm;
          match goal with
          | |- (?r ≫= _) = _ => destruct r as [?|?]; [|reflexivity]
          | |- context [match ?x with (_, _) => _ end] => destruct x
          end).
  exec_norm. reflexivity.
Qed.

Lemma spectral_names_distinct (sr : F) :
  NoDup (feature_names (Spectral_init sr None)).
Proof.
  cbn [feature_names Spectral_init set_feature_names].
  eapply bool_decide_eq_true_1. vm_compute. reflexivity.
Qed.

(** X10. [Spectral] turns every frame of 2048 samples, taken every 1024
    samples, into ten numbers -- Hann window, spectrum, then roll-off at
    85 and 95 percent, centroid, spread, skewness, kurtosis, flatness,
    entropy and the energy ratios of the bands 2000-5000 Hz and 20-80 Hz
    -- and the pool it hands to the aggregator holds, under each of the
    ten feature names, that feature's number of every frame in frame
    order, paired by position in the declared name order; with no frame
    the pool is empty.  The centroid and the central moments are
    configured with half the sample rate as their range.  The result is
    the aggregate read at the twenty headers, feature by feature, mean
    before standard deviation. *)
Theorem spectral_pool_by_feature
    (sr : F) (fs : option Z) (audio : ndarray F) :
  let names := feature_names (new Spectral sr fs None) in
  exec (call audio) (new Spectral sr fs None)
  = (pool_agg ← es_PoolAggregator ["mean"; "stdev"];
     centroid ← es_Centroid (fdiv sr (of_Z 2));
     central_moments ← es_CentralMoments (fdiv sr (of_Z 2));
     energy_band_harsh ← es_EnergyBandRatio sr (of_Z 2000) (of_Z 5000);
     energy_band_low ← es_EnergyBandRatio sr (of_Z 20) (of_Z 80);
     rolloff_85 ← es_RollOff (lit 85 100) sr;
     rolloff_95 ← es_RollOff (lit 95 100) sr;
     frames ← es_FrameGenerator audio 2048 1024;
     rows ← rmap (spectral_frame centroid central_moments energy_band_harsh
                    energy_band_low rolloff_85 rolloff_95) frames;
     agg ← pool_agg (feature_pool names rows);
     rmap (λ header, pool_get header agg)
          (flat_map (λ feature, [feature +:+ ".mean"; feature +:+ ".stdev"])
                    names)).
Proof.
  intros names. subst names. rewrite exec_call. cbn [new cls Spectral_init
    set_feature_names ExtractorBase_init].
  remember (Spectral_init sr None) as self eqn:Hself.
  assert (stats self = Some ["mean"; "stdev"]) as Hst
    by (subst; reflexivity).
  assert (sample_rate self = sr) as Hsr by (subst; reflexivity).
  assert (pooling self = true) as Hp by (subst; reflexivity).
  unfold Spectral_call. exec_norm. rewrite Hst, ?Hsr, ?rbind_ok.
  destruct (es_PoolAggregator _) as [pool_agg|]; exec_norm; [|reflexivity].
  rewrite ?Hsr.
  destruct (es_Centroid _) as [centroid|]; exec_norm; [|reflexivity].
  rewrite ?Hsr.
  destruct (es_CentralMoments _) as [central_moments|]; exec_norm;
    [|reflexivity].
  rewrite ?Hsr.
  destruct (es_EnergyBandRatio sr (of_Z 2000) _) as [harsh|]; exec_norm;
    [|reflexivity].
  rewrite ?Hsr.
  destruct (es_EnergyBandRatio sr (of_Z 20) _) as [low|]; exec_norm;
    [|reflexivity].
  rewrite ?Hsr.
  destruct (es_RollOff (lit 85 100) sr) as [r85|]; exec_norm; [|reflexivity].
  rewrite ?Hsr.
  destruct (es_RollOff (lit 95 100) sr) as [r95|]; exec_norm; [|reflexivity].
  destruct (es_FrameGenerator audio 2048 1024) as [frames|]; exec_norm;
    [|reflexivity].
  rewrite exec_pfold by (intros; readonly_solve).
  erewrite rfold_ext;
    [|intros pool frame; apply (spectral_body self sr); exact Hself].
  rewrite rfold_rmap.
  destruct (rmap _ frames) as [rows|] eqn:Hrows; exec_norm; [|reflexivity].
  rewrite pool_of_rows.
  2:{ subst self. apply spectral_names_distinct. }
  2:{ eapply rmap_Forall; [|exact Hrows]. intros frame row Hrow.
      apply spectral_frame_length in Hrow. rewrite Hrow. subst self.
      reflexivity. }
  destruct (pool_agg _) as [agg|]; exec_norm; [|reflexivity].
  rewrite (exec_get_headers self "." _ Hst), rbind_ok.
  unfold headers_of. rewrite Hp. exec_norm. exact (rbind_ret _).
Qed.
End SpectralPool.

(** ** Vector entries and headers *)

Section Alignment.
Context {F : Type} `{Scalar F} `{Toolkit F}.

(** X11. On an extractor that pools, entry [i] of the returned vector is
    the number the aggregator filed under header [i]: vector and headers
    are aligned, so they are equally long and a caller may zip them.  A
    frame size of zero, where the two differ in length, is set aside. *)
Theorem vector_aligned_with_headers
    (c : kind) (sr : F) (fs : option Z) (audio : ndarray F)
    (v : list F) (hs : list string) :
  pooling (new c sr fs None) = true → c = Spectral ∨ fs ≠ Some 0 →
  exec (call audio) (new c sr fs None) = Ok v →
  exec (get_headers ".") (new c sr fs None) = Ok hs →
  ∃ pool_agg pool agg,
    es_PoolAggregator ["mean"; "stdev"] = Ok pool_agg
    ∧ pool_agg pool = Ok agg
    ∧ Forall2 (λ header x, agg !! header = Some x) hs v.
Proof.
  intros Hp Hfs Hv Hh.
  rewrite (exec_get_headers _ "." ["mean"; "stdev"]) in Hh
    by apply stats_new.
  injection Hh as <-.
  rewrite exec_call, cls_new in Hv. rewrite pooling_new in Hp.
  destruct c; try discriminate Hp.
  - cbn [new] in *. unfold Spectral_call in Hv. exec_inv Hv.
    injection Hv as <-.
    match goal with
    | E : match stats _ with _ => _ end = Ok _ |- _ =>
        cbn in E; injection E as <-
    end.
    match goal with
    | E : exec (get_headers _) _ = Ok _ |- _ =>
        rewrite (exec_get_headers _ "." ["mean"; "stdev"]) in E
          by reflexivity;
        injection E as <-
    end.
    match goal with
    | E : rmap _ _ = Ok _ |- _ => apply rmap_Forall2 in E; rename E into Hall
    end.
    eexists _, _, _. split; [eassumption|]. split; [eassumption|].
    eapply Forall2_impl; [exact Hall|]. intros header x.
    apply pool_get_lookup.
  - destruct fs as [k|]; [|discriminate Hp].
    assert (k ≠ 0) as Hk by (destruct Hfs as [|Hfs]; congruence).
    cbn [new] in *.
    rewrite (exec_CrestFactor_framed _ audio k) in Hv
      by (reflexivity || assumption).
    exec_inv Hv.
    match goal with
    | E : match stats _ with _ => _ end = Ok _ |- _ =>
        cbn in E; injection E as <-
    end.
    apply rmap_Forall2 in Hv.
    eexists _, _, _. split; [eassumption|]. split; [eassumption|].
    change (headers_of _ _ _)
      with ((λ stat, "crest_factor." +:+ stat) <$> ["mean"; "stdev"]).
    apply Forall2_fmap_l. eapply Forall2_impl; [exact Hv|].
    intros stat x. apply pool_get_lookup.
  - destruct fs as [k|]; [|discriminate Hp].
    assert (k ≠ 0) as Hk by (destruct Hfs as [|Hfs]; congruence).
    cbn [new] in *.
    rewrite (exec_PhaseCorrelation_framed _ audio k "phase_correlation" [])
      in Hv by (reflexivity || assumption).
    exec_inv Hv.
    match goal with
    | E : match stats _ with _ => _ end = Ok _ |- _ =>
        cbn in E; injection E as <-
    end.
    apply rmap_Forall2 in Hv.
    eexists _, _, _. split; [eassumption|]. split; [eassumption|].
    change (headers_of _ _ _)
      with ((λ stat, "phase_correlation" +:+ "." +:+ stat)
              <$> ["mean"; "stdev"]).
    apply Forall2_fmap_l. eapply Forall2_impl; [exact Hv|].
    intros stat x. apply pool_get_lookup.
Qed.
End Alignment.

(** ** CrestFactor on silence *)

Section CrestFactorSilence.
Context {F : Type} `{Scalar F} `{Toolkit F}.

Lemma crest_of_zero_rms (v : ndarray F) :
  measurable v = true → zero_rms v = true →
  crest_of v = Raise ZeroDivisionError.
Proof.
  unfold measurable, zero_rms, crest_of.
  destruct (es_RMS v) as [r|]; [|discriminate].
  destruct (es_MinMax "min" v) as [[mn i]|]; [|discriminate].
  destruct (es_MinMax "max" v) as [[mx j]|]; [|discriminate].
  intros _ Hz. rewrite !rbind_ok. unfold py_truediv. rewrite Hz.
  reflexivity.
Qed.

Lemma crest_of_measurable (v : ndarray F) :
  measurable v = true →
  crest_of v = Raise ZeroDivisionError ∨ ∃ c, crest_of v = Ok c.
Proof.
  unfold measurable, crest_of.
  destruct (es_RMS v) as [r|]; [|discriminate].
  destruct (es_MinMax "min" v) as [[mn i]|]; [|discriminate].
  destruct (es_MinMax "max" v) as [[mx j]|]; [|discriminate].
  intros _. rewrite !rbind_ok. unfold py_truediv.
  destruct (fis_zero r); eauto.
Qed.

Lemma rmap_crests_silent (frames : list (list F)) :
  Forall (λ frame, measurable (Array1 frame) = true) frames →
  Exists (λ frame, zero_rms (Array1 frame) = true) frames →
  rmap (λ frame, crest_of (Array1 frame)) frames = Raise ZeroDivisionError.
Proof.
  intros Hall. induction Hall as [|frame frames Hm Hall IH]; intros Hex.
  - inversion Hex.
  - cbn [rmap].
    destruct (crest_of_measurable _ Hm) as [->|[c Hc]]; [reflexivity|].
    rewrite Hc, rbind_ok.
    apply Exists_cons in Hex as [Hz|Hex].
    + rewrite (crest_of_zero_rms _ Hm Hz) in Hc. discriminate Hc.
    + rewrite IH by assumption. reflexivity.
Qed.

(** X12. Without a frame size, a buffer whose root mean square is
    reported as zero -- digital silence -- makes [CrestFactor] raise
    [ZeroDivisionError]: the peak and the RMS are Python floats and their
    quotient is not a not-a-number. *)
Theorem crest_factor_silence_raises
    (sr : F) (fs : option Z) (st : option (list string))
    (audio : ndarray F) :
  truthy fs = false → measurable audio = true → zero_rms audio = true →
  exec (call audio) (new CrestFactor sr fs st) = Raise ZeroDivisionError.
Proof.
  intros Hfs Hm Hz. rewrite exec_call. cbn [new cls CrestFactor_init
    set_feature_names set_frame_size ExtractorBase_init].
  rewrite exec_CrestFactor_whole by exact Hfs.
  rewrite crest_of_zero_rms by assumption. reflexivity.
Qed.

(** X13. In framed mode one frame of zero RMS is enough: wherever it
    lies among the frames, the call raises [ZeroDivisionError] and
    nothing is returned for the other frames. *)
Theorem crest_factor_silent_frame
    (sr : F) (k : Z) (audio : ndarray F) pool_agg frames :
  k ≠ 0 →
  es_PoolAggregator ["mean"; "stdev"] = Ok pool_agg →
  es_FrameGenerator audio k k = Ok frames →
  Forall (λ frame, measurable (Array1 frame) = true) frames →
  Exists (λ frame, zero_rms (Array1 frame) = true) frames →
  exec (call audio) (new CrestFactor sr (Some k) None)
  = Raise ZeroDivisionError.
Proof.
  intros Hk Hagg Hframes Hall Hex. rewrite exec_call. cbn [new cls
    CrestFactor_init set_feature_names set_frame_size ExtractorBase_init].
  rewrite (exec_CrestFactor_framed _ audio k) by (reflexivity || assumption).
  exec_norm. cbn [stats CrestFactor_init set_feature_names set_frame_size
    ExtractorBase_init].
  rewrite ?rbind_ok, Hagg, rbind_ok, Hframes, rbind_ok.
  rewrite rmap_crests_silent by assumption. reflexivity.
Qed.
End CrestFactorSilence.

(** ** PhaseCorrelation, framed mode, on a buffer without two columns *)

Section PhaseCorrelationShape.
Context {F : Type} `{Scalar F} `{Toolkit F}.

Lemma slice_correlation_bad (audio : ndarray F) (b : Z * Z) :
  stereo_indexable audio = false →
  slice_correlation audio b = Raise IndexError.
Proof.
  unfold slice_correlation. destruct audio as [xs|c rows]; [reflexivity|].
  cbn [stereo_indexable np_slice_col]. intros Hc%bool_decide_eq_false.
  destruct (decide (0 < c)%nat); [|reflexivity]. rewrite rbind_ok.
  destruct (decide (1 < c)%nat); [lia | reflexivity].
Qed.

(** X14. With a positive frame size, a buffer that has rows but not two
    columns -- a mono buffer -- is refused at the first slice with numpy's
    [IndexError]. *)
Theorem phase_correlation_framed_wrong_shape
    (sr : F) (k : Z) (audio : ndarray F) :
  0 < k → 0 < shape0 audio → stereo_indexable audio = false →
  exec (call audio) (new PhaseCorrelation sr (Some k) None)
  = Raise IndexError.
Proof.
  intros Hk Hn Hbad. rewrite exec_PhaseCorrelation_new by lia.
  destruct (slice_indices_bounds (shape0 audio) k) as (idx & -> & _ & Hadj);
    [lia | lia |].
  rewrite rbind_ok, Hadj. unfold frame_bounds.
  destruct (frame_count_spec (shape0 audio) k) as (_ & _ & _ & Hcover);
    [lia | lia |].
  destruct (frame_count (shape0 audio) k) as [|m]; [cbn in Hcover; lia|].
  cbn [seq map rmap]. rewrite slice_correlation_bad by assumption.
  reflexivity.
Qed.
End PhaseCorrelationShape.

(** * The further statements on concrete buffers *)

(** The twenty headers of [Spectral]; the sixth is the standard deviation
    of the third feature. *)
Lemma headers_of_spectral :
  pooling (Spectral_init rate None) = true
  ∧ ∃ hs, exec (get_headers ".") (Spectral_init rate None) = Ok hs
      ∧ length hs = 20%nat
      ∧ hs !! 5%nat = Some "spectral_centroid.stdev".
Proof.
  split; [reflexivity|].
  destruct (headers_feature_major (Spectral_init rate None) "."
              ["mean"; "stdev"] eq_refl eq_refl) as (hs & Hx & Hlen & Hat).
  exists hs. split; [exact Hx|]. split; [exact Hlen|].
  exact (Hat 2%nat 1%nat "spectral_centroid" "stdev" eq_refl eq_refl).
Defined.

(** Twelve samples in frames of eight: the first frame is centred on
    the first sample, so it is four zeros and four samples, of crest factor
    two; the second has crest factor three halves.  Their mean is seven
    quarters and their deviation one quarter. *)
Lemma crest_factor_framed_on_two_frames :
  8 ≠ 0
  ∧ es_FrameGenerator two_frames 8 8
    = Ok [[num 0 1; num 0 1; num 0 1; num 0 1;
           num 1 4; num 1 2; num 3 4; num (-1) 2];
          [num (-3) 4; num (-3) 4; num 1 2; num 1 2;
           num 1 2; num 1 4; num 1 4; num 0 1]]
  ∧ exec (call two_frames) (new CrestFactor rate (Some 8) None)
    = Ok [num 7 4; num 1 4].
Proof.
  split; [lia|]. split; [vm_compute; reflexivity|].
  assert (exec (call two_frames) (new CrestFactor rate (Some 8) None)
          = Ok [num 7 4; num 1 4]) as Hrun by (vm_compute; reflexivity).
  rewrite (crest_factor_framed rate 8 two_frames) in Hrun |- * by lia.
  exact Hrun.
Defined.

(** A frame size of minus one on a mono buffer: the aggregate of the
    empty pool has no mean to read. *)
Lemma phase_correlation_negative_frame_on_mono :
  (-1 < 0 ∨ 0 < -1 ∧ shape0 mono = 0)
  ∧ exec (call mono) (new PhaseCorrelation rate (Some (-1)) None)
    = Raise KeyError.
Proof.
  split; [left; lia|].
  rewrite (phase_correlation_no_slice rate (-1) mono) by (left; lia).
  vm_compute. reflexivity.
Defined.

(** Three rows in frames of five: the mean is the whole-signal
    correlation and the deviation is zero. *)
Lemma phase_correlation_one_slice_on_stereo_clip :
  0 < shape0 stereo_clip ≤ 5
  ∧ exec (call stereo_clip) (new PhaseCorrelation rate None None)
    = Ok [num (-4294967296) 5681707677]
  ∧ exec (call stereo_clip) (new PhaseCorrelation rate (Some 5) None)
    = Ok [num (-4294967296) 5681707677; num 0 1].
Proof.
  assert (0 < shape0 stereo_clip ≤ 5) as Hn by (change (0 < 3 ≤ 5); lia).
  split; [exact Hn|]. split; [vm_compute; reflexivity|].
  rewrite (phase_correlation_one_slice rate 5 stereo_clip Hn).
  vm_compute. reflexivity.
Defined.

(** Two samples in frames of two: [0, 1/2] and [-1/4, 0], of levels one
    quarter and one eighth, each one sixteenth away from their mean. *)
Lemma dynamic_spread_on_mono :
  exec (call mono) (new DynamicSpread rate (Some 2) None) = Ok [num 1 16].
Proof. rewrite dynamic_spread_value. vm_compute. reflexivity. Defined.

(** No sample, no frame, no ["vdb"]. *)
Lemma dynamic_spread_on_empty :
  es_FrameGenerator empty_mono 2 2 = Ok []
  ∧ is_ok (exec (call empty_mono) (new DynamicSpread rate (Some 2) None))
    = false
  ∧ exec (call empty_mono) (new DynamicSpread rate (Some 2) None)
    = Raise KeyError.
Proof.
  assert (es_FrameGenerator empty_mono 2 2 = Ok []) as Hf
    by (vm_compute; reflexivity).
  destruct (dynamic_spread_no_frame rate 2 None empty_mono Hf)
    as [Hno Hkey].
  split; [exact Hf|]. split; [exact Hno|].
  eapply Hkey; reflexivity.
Defined.

(** Two frames of the same level. *)
Lemma dynamic_spread_on_flat :
  exec (call flat_mono) (new DynamicSpread rate (Some 2) None)
  = Ok [num 0 1].
Proof.
  change (num 0 1) with (fzero (F:=xq)).
  eapply (dynamic_spread_constant rate 2 None flat_mono _
            [[num 0 1; num 1 1]; [num 1 2; num (-1) 2]]
            [num 1 2; num 1 2] _ (num 1 2)).
  - reflexivity.
  - vm_compute. reflexivity.
  - vm_compute. reflexivity.
  - discriminate.
  - reflexivity.
  - vm_compute. reflexivity.
  - repeat constructor.
Defined.

(** [StereoFeatures(44100, stats=["max"])] works as without [stats]. *)
Lemma stats_unread_stereo_features :
  pooling (new StereoFeatures rate None None) = false
  ∧ exec (call stereo_clip) (new StereoFeatures rate None (Some ["max"]))
    = Ok [num 59 11; num (-13) 35]
  ∧ exec (get_headers "_") (new StereoFeatures rate None (Some ["max"]))
    = Ok ["side_mid_ratio"; "lr_imbalance"].
Proof.
  destruct (stats_unread_without_pooling StereoFeatures rate None ["max"]
              stereo_clip "_" eq_refl) as [Hc Hh].
  split; [reflexivity|]. split; [|exact Hh].
  rewrite Hc. vm_compute. reflexivity.
Defined.

(** [DynamicSpread] at 8000 Hz gives what it gives at 44100 Hz. *)
Lemma sample_rate_unread_dynamic_spread :
  reads_sample_rate DynamicSpread = false
  ∧ exec (call mono) (new DynamicSpread (num 8000 1) (Some 2) None)
    = Ok [num 1 16].
Proof.
  split; [reflexivity|].
  rewrite (sample_rate_unread DynamicSpread (num 8000 1) rate (Some 2) None
             mono eq_refl).
  vm_compute. reflexivity.
Defined.

(** The two numbers of framed [CrestFactor] sit under its two headers. *)
Lemma vector_aligned_on_two_frames :
  ∃ pool_agg pool agg,
    es_PoolAggregator ["mean"; "stdev"] = Ok pool_agg
    ∧ pool_agg pool = Ok agg
    ∧ Forall2 (λ header x, agg !! header = Some x)
              ["crest_factor.mean"; "crest_factor.stdev"]
              [num 7 4; num 1 4].
Proof.
  apply (vector_aligned_with_headers CrestFactor rate (Some 8) two_frames).
  - reflexivity.
  - right. intros E. discriminate E.
  - vm_compute. reflexivity.
  - vm_compute. reflexivity.
Defined.

(** Two samples of silence. *)
Lemma crest_factor_on_silence :
  measurable silence_mono = true ∧ zero_rms silence_mono = true
  ∧ exec (call silence_mono) (new CrestFactor rate None None)
    = Raise ZeroDivisionError.
Proof.
  assert (measurable silence_mono = true) as Hm by (vm_compute; reflexivity).
  assert (zero_rms silence_mono = true) as Hz by (vm_compute; reflexivity).
  split; [exact Hm|]. split; [exact Hz|].
  exact (crest_factor_silence_raises rate None None silence_mono
           eq_refl Hm Hz).
Defined.

(** A frame of silence after two frames of signal. *)
Lemma crest_factor_on_half_silent :
  es_FrameGenerator half_silent 2 2
  = Ok [[num 0 1; num 1 2]; [num 1 2; num 1 2]; [num 0 1; num 0 1]]
  ∧ exec (call half_silent) (new CrestFactor rate (Some 2) None)
    = Raise ZeroDivisionError.
Proof.
  assert (es_FrameGenerator half_silent 2 2
          = Ok [[num 0 1; num 1 2]; [num 1 2; num 1 2]; [num 0 1; num 0 1]])
    as Hf by (vm_compute; reflexivity).
  split; [exact Hf|].
  eapply (crest_factor_silent_frame rate 2 half_silent).
  - lia.
  - reflexivity.
  - exact Hf.
  - repeat constructor.
  - apply Exists_cons_tl, Exists_cons_tl, Exists_cons_hd.
    vm_compute. reflexivity.
Defined.

(** The two-sample mono buffer in frames of one. *)
Lemma phase_correlation_framed_on_mono :
  0 < 1 ∧ 0 < shape0 mono ∧ stereo_indexable mono = false
  ∧ exec (call mono) (new PhaseCorrelation rate (Some 1) None)
    = Raise IndexError.
Proof.
  assert (0 < shape0 mono) as Hn by (change (0 < 2); lia).
  split; [lia|]. split; [exact Hn|]. split; [reflexivity|].
  exact (phase_correlation_framed_wrong_shape rate 1 mono
           ltac:(lia) Hn eq_refl).
Defined.

(** Five rows in frames of three: the slices [0:3] and [3:5].  The
    channels correlate fully over the first and inversely over the second,
    so the pool holds 1 and -1: mean zero, deviation one. *)
Lemma phase_correlation_framed_on_two_slices :
  0 < 3 ∧ (2 ≤ 2)%nat
  ∧ frame_bounds 5 3 = [(0, 3); (3, 5)]
  ∧ rmap (slice_correlation two_slices) (frame_bounds 5 3)
    = Ok [num 1 1; num (-1) 1]
  ∧ exec (call two_slices) (PhaseCorrelation_init rate (Some 3) None)
    = Ok [num 0 1; num 1 1].
Proof.
  split; [lia|]. split; [lia|]. split; [vm_compute; reflexivity|].
  split; [vm_compute; reflexivity|].
  assert (exec (call two_slices) (PhaseCorrelation_init rate (Some 3) None)
          = Ok [num 0 1; num 1 1]) as Hrun by (vm_compute; reflexivity).
  unfold two_slices in Hrun |- *.
  rewrite (proj2 (proj2 (proj2 (phase_correlation_framed rate 3 2 _
                                   ltac:(lia) ltac:(lia))))) in Hrun |- *.
  exact Hrun.
Defined.
